(** * PACE: promotion-board roster tooling

    A shallow embedding of the Python sources
      - [constants.py]            (policy tables, column lists, thresholds),
      - [hyt_test_exemption.py]   (the higher-tenure exemption window test),
      - [initial_mel_generator.py] ([get_accounting_date], the text wrapping
                                    and the identifier of the page footer,
                                    [create_table], [create_ineligible_table],
                                    [generate_pascode_pdf], [merge_pdfs],
                                    [generate_roster_pdf]),
      - [main.py]                 (the column selection done at upload, the
                                    grouping of unit codes by senior rater),
    together with the parts of the Python runtime they rely on
    ([datetime], [dateutil.relativedelta], [_strptime], [calendar]).

    Python dictionaries are [gmap]s, Python sets are [gset]s, exceptions are
    an explicit [result] type, and [datetime] values are records of their
    seven integer fields.

    The eligibility evaluator ([board_filter.py]) and the roster processor
    ([roster_processor.py]) are not among the sources; the parts of them
    that statements below need are modelled from the specification and
    marked as such. *)

From Stdlib Require Import ZArith Lia List String Ascii DecimalString.
From Stdlib Require DecimalFacts DecimalZ.
From stdpp Require Import base option list gmap strings sorting.

Local Open Scope Z_scope.

(** ** Python values that can raise *)

Inductive exn : Type :=
  | ValueError
  | TypeError
  | KeyError
  | OverflowError
  | AttributeError.

Inductive result (A : Type) : Type :=
  | Ok (a : A)
  | Raise (e : exn).
Arguments Ok {A} a.
Arguments Raise {A} e.

Definition bind {A B : Type} (r : result A) (k : A -> result B) : result B :=
  match r with
  | Ok a => k a
  | Raise e => Raise e
  end.

Notation "x <-! r ;; k" := (bind r (fun x => k))
  (at level 100, r at next level, right associativity).

(** [try: body except Exception: handler] *)
Definition try_except {A : Type} (body : result A) (handler : exn -> result A)
  : result A :=
  match body with
  | Ok a => Ok a
  | Raise e => handler e
  end.

(** [str(n)] and [f'{n}'] for a Python [int]. *)
Definition str_int (n : Z) : string := NilZero.string_of_int (Z.to_int n).

(** [f'{x}'] where [x] is the result of [dict.get]: a [str] or [None]. *)
Definition fstr_opt (o : option string) : string :=
  match o with
  | Some s => s
  | None => "None"
  end.

(** Slices [s[:n]] and [s[-n:]], for [n >= 0], of a [str] of ASCII
    characters (a month name, the digits of an integer), where a character
    is one byte. *)
Fixpoint str_take (n : nat) (s : string) : string :=
  match n, s with
  | S n', String c s' => String c (str_take n' s')
  | _, _ => EmptyString
  end.

Fixpoint str_drop (n : nat) (s : string) : string :=
  match n, s with
  | S n', String _ s' => str_drop n' s'
  | _, _ => s
  end.

Definition str_last (n : nat) (s : string) : string :=
  str_drop (String.length s - n)%nat s.

(** A [str] is held as its UTF-8 bytes, and Python slices count code
    points. The bytes [10xxxxxx] continue a code point; every other byte
    starts one. *)
Definition is_continuation (c : ascii) : bool :=
  let n := N_of_ascii c in (N.leb 128 n && N.ltb n 192)%bool.

(** The code points of a [str], each as its bytes. *)
Fixpoint code_points (s : string) : list string :=
  match s with
  | EmptyString => []
  | String c s' =>
    let cps := code_points s' in
    match s' with
    | String c' _ =>
      if is_continuation c' then
        match cps with
        | chunk :: rest => String c chunk :: rest
        | [] => [ String c EmptyString ]
        end
      else String c EmptyString :: cps
    | EmptyString => [ String c EmptyString ]
    end
  end.

(** [s[:n]] and [s[-n:]] of any [str], for [n >= 0]. *)
Definition slice_first (n : nat) (s : string) : string :=
  fold_right String.append EmptyString (firstn n (code_points s)).

Definition slice_last (n : nat) (s : string) : string :=
  let cps := code_points s in
  fold_right String.append EmptyString (skipn (length cps - n)%nat cps).

(** ** The [datetime] runtime: proleptic Gregorian dates

    The definitions follow CPython's reference implementation
    ([Lib/_pydatetime.py], [Lib/calendar.py]) and
    [dateutil/relativedelta.py].  Python's [//] and [%] are floor division
    and its remainder, which is what [Z.div] and [Z.modulo] compute. *)

Module pydatetime.

Definition MINYEAR : Z := 1.
Definition MAXYEAR : Z := 9999.

Record datetime : Type := mk_datetime {
  year : Z;
  month : Z;
  day : Z;
  hour : Z;
  minute : Z;
  second : Z;
  microsecond : Z
}.

Definition _is_leap (y : Z) : bool :=
  (y mod 4 =? 0) && (negb (y mod 100 =? 0) || (y mod 400 =? 0)).

Definition _days_before_year (y : Z) : Z :=
  let y := y - 1 in
  y * 365 + y / 4 - y / 100 + y / 400.

(** [_DAYS_IN_MONTH[month]], for [1 <= month <= 12]. *)
Definition _DAYS_IN_MONTH (m : Z) : Z :=
  if m =? 2 then 28
  else if (m =? 4) || (m =? 6) || (m =? 9) || (m =? 11) then 30
  else 31.

Definition _days_in_month (y m : Z) : Z :=
  if (m =? 2) && _is_leap y then 29 else _DAYS_IN_MONTH m.

(** [_DAYS_BEFORE_MONTH[month]], for [1 <= month <= 12]. *)
Definition _DAYS_BEFORE_MONTH (m : Z) : Z :=
  if m =? 1 then 0 else if m =? 2 then 31 else if m =? 3 then 59
  else if m =? 4 then 90 else if m =? 5 then 120 else if m =? 6 then 151
  else if m =? 7 then 181 else if m =? 8 then 212 else if m =? 9 then 243
  else if m =? 10 then 273 else if m =? 11 then 304 else 334.

Definition _days_before_month (y m : Z) : Z :=
  _DAYS_BEFORE_MONTH m + (if (2 <? m) && _is_leap y then 1 else 0).

Definition _ymd2ord (y m d : Z) : Z :=
  _days_before_year y + _days_before_month y m + d.

Definition _DI400Y : Z := 146097.
Definition _DI100Y : Z := 36524.
Definition _DI4Y : Z := 1461.

Definition _ord2ymd (n : Z) : Z * Z * Z :=
  let n := n - 1 in
  let n400 := n / _DI400Y in
  let n := n mod _DI400Y in
  let year := n400 * 400 + 1 in
  let n100 := n / _DI100Y in
  let n := n mod _DI100Y in
  let n4 := n / _DI4Y in
  let n := n mod _DI4Y in
  let n1 := n / 365 in
  let n := n mod 365 in
  let year := year + n100 * 100 + n4 * 4 + n1 in
  if (n1 =? 4) || (n100 =? 4) then (year - 1, 12, 31)
  else
    let leapyear := (n1 =? 3) && (negb (n4 =? 24) || (n100 =? 3)) in
    let month := Z.shiftr (n + 50) 5 in
    let preceding :=
      _DAYS_BEFORE_MONTH month
      + (if (2 <? month) && leapyear then 1 else 0) in
    if n <? preceding then
      let month := month - 1 in
      let preceding :=
        preceding
        - (_DAYS_IN_MONTH month
           + (if (month =? 2) && leapyear then 1 else 0)) in
      (year, month, n - preceding + 1)
    else (year, month, n - preceding + 1).

(** The range checks of the [datetime] constructor and of [replace]. *)
Definition _check_date_fields (y m d : Z) : bool :=
  (MINYEAR <=? y) && (y <=? MAXYEAR)
  && (1 <=? m) && (m <=? 12)
  && (1 <=? d) && (d <=? _days_in_month y m).

Definition _check_time_fields (h mi s us : Z) : bool :=
  (0 <=? h) && (h <=? 23) && (0 <=? mi) && (mi <=? 59)
  && (0 <=? s) && (s <=? 59) && (0 <=? us) && (us <=? 999999).

Definition valid (dt : datetime) : bool :=
  _check_date_fields (year dt) (month dt) (day dt)
  && _check_time_fields (hour dt) (minute dt) (second dt) (microsecond dt).

(** [datetime(y, m, d, h, mi, s, us)] *)
Definition new (y m d h mi s us : Z) : result datetime :=
  if _check_date_fields y m d && _check_time_fields h mi s us
  then Ok (mk_datetime y m d h mi s us)
  else Raise ValueError.

(** [dt.replace(year=y, month=m, day=d)] *)
Definition replace_date (dt : datetime) (y m d : Z) : result datetime :=
  new y m d (hour dt) (minute dt) (second dt) (microsecond dt).

(** [dt.replace(day=d, hour=h, minute=mi, second=s)] *)
Definition replace_day_hms (dt : datetime) (d h mi s : Z) : result datetime :=
  new (year dt) (month dt) d h mi s (microsecond dt).

(** Comparison of two naive datetimes: [_cmp] on the field tuples. *)
Definition _cmp (a b : datetime) : comparison :=
  match year a ?= year b with
  | Eq =>
    match month a ?= month b with
    | Eq =>
      match day a ?= day b with
      | Eq =>
        match hour a ?= hour b with
        | Eq =>
          match minute a ?= minute b with
          | Eq =>
            match second a ?= second b with
            | Eq => microsecond a ?= microsecond b
            | c => c
            end
          | c => c
          end
        | c => c
        end
      | c => c
      end
    | c => c
    end
  | c => c
  end.

Definition lt (a b : datetime) : bool :=
  match _cmp a b with Lt => true | _ => false end.

Definition le (a b : datetime) : bool :=
  match _cmp a b with Gt => false | _ => true end.

Definition toordinal (dt : datetime) : Z :=
  _ymd2ord (year dt) (month dt) (day dt).

Definition _MAXORDINAL : Z := 3652059.

(** [dt + timedelta(days=n)]: the time of day is kept, the date moves by
    [n] days; outside [1 .. _MAXORDINAL] it raises [OverflowError]. *)
Definition add_days (dt : datetime) (n : Z) : result datetime :=
  let o := toordinal dt + n in
  if (0 <? o) && (o <=? _MAXORDINAL) then
    let '(y, m, d) := _ord2ymd o in
    Ok (mk_datetime y m d (hour dt) (minute dt) (second dt) (microsecond dt))
  else Raise OverflowError.

(** [calendar.monthrange(year, month)[1]], for [1 <= month <= 12]. *)
Definition monthrange_ndays (y m : Z) : Z :=
  _DAYS_IN_MONTH m + (if (m =? 2) && _is_leap y then 1 else 0).

(** [dt + relativedelta(years=ys, days=ds)]: the year is shifted, the day
    is clamped to the length of the target month, the fields are
    replaced, and the days are added as a [timedelta]. *)
Definition add_relativedelta (dt : datetime) (ys ds : Z) : result datetime :=
  let y := year dt + ys in
  let d := Z.min (monthrange_ndays y (month dt)) (day dt) in
  r <-! replace_date dt y (month dt) d ;;
  add_days r ds.

(** [dt - relativedelta(days=ds)] is [dt + relativedelta(days=-ds)]. *)
Definition sub_relativedelta_days (dt : datetime) (ds : Z) : result datetime :=
  add_relativedelta dt 0 (- ds).

(** *** [strftime] in the C locale *)

Definition month_name (m : Z) : string :=
  if m =? 1 then "January" else if m =? 2 then "February"
  else if m =? 3 then "March" else if m =? 4 then "April"
  else if m =? 5 then "May" else if m =? 6 then "June"
  else if m =? 7 then "July" else if m =? 8 then "August"
  else if m =? 9 then "September" else if m =? 10 then "October"
  else if m =? 11 then "November" else "December".

Definition month_abbr (m : Z) : string := str_take 3 (month_name m).

(** [%d]: the day of the month, zero-padded to two digits. *)
Definition fmt_d (d : Z) : string :=
  if d <? 10 then "0" +:+ str_int d else str_int d.

(** [%Y]: the year in decimal, as the C library prints it. *)
Definition fmt_Y (y : Z) : string := str_int y.

(** One directive of a format: [%d], [%b], [%B] and [%Y] are the ones the
    sources use; any other pair is left as it is. *)
Definition strftime_directive (c : ascii) (dt : datetime) : string :=
  if Ascii.eqb c "d" then fmt_d (day dt)
  else if Ascii.eqb c "b" then month_abbr (month dt)
  else if Ascii.eqb c "B" then month_name (month dt)
  else if Ascii.eqb c "Y" then fmt_Y (year dt)
  else if Ascii.eqb c "%" then "%"
  else String "%" (String c EmptyString).

(** [dt.strftime(fmt)] *)
Fixpoint strftime (fmt : string) (dt : datetime) : string :=
  match fmt with
  | EmptyString => EmptyString
  | String c rest =>
    match rest with
    | String c' rest' =>
      if Ascii.eqb c "%" then strftime_directive c' dt +:+ strftime rest' dt
      else String c (strftime rest dt)
    | EmptyString => String c EmptyString
    end
  end.

End pydatetime.

(** ** constants.py *)

Module constants.

Definition SESSION_TTL_SECONDS : Z := 1800.

Definition REQUIRED_COLUMNS : list string :=
  [ "FULL_NAME"; "GRADE"; "ASSIGNED_PAS_CLEARTEXT"; "DAFSC"; "DOR";
    "DATE_ARRIVED_STATION"; "TAFMSD"; "REENL_ELIG_STATUS"; "ASSIGNED_PAS";
    "PAFSC" ].

Definition OPTIONAL_COLUMNS : list string :=
  [ "GRADE_PERM_PROJ"; "UIF_CODE"; "UIF_DISPOSITION_DATE"; "2AFSC"; "3AFSC";
    "4AFSC" ].

Definition PDF_COLUMNS : list string :=
  [ "FULL_NAME"; "GRADE"; "DATE_ARRIVED_STATION"; "DAFSC";
    "ASSIGNED_PAS_CLEARTEXT"; "DOR"; "TAFMSD"; "ASSIGNED_PAS" ].

Definition PROMOTION_MAP : gmap string string :=
  list_to_map
    [ ("SRA", "E5"); ("SSG", "E6"); ("TSG", "E7"); ("MSG", "E8");
      ("SMS", "E9") ].

Definition SCODS : gmap string string :=
  list_to_map
    [ ("SRA", "31-MAR"); ("SSG", "31-JAN"); ("TSG", "30-NOV");
      ("MSG", "30-SEP"); ("SMS", "31-JUL") ].

Definition MAIN_HIGHER_TENURE_items : list (string * Z) :=
  [ ("AB", 6); ("AMN", 6); ("A1C", 8); ("SRA", 10); ("SSG", 20);
    ("TSG", 22); ("MSG", 24); ("SMS", 26) ].

Definition MAIN_HIGHER_TENURE : gmap string Z :=
  list_to_map MAIN_HIGHER_TENURE_items.

Definition EXCEPTION_HIGHER_TENURE_items : list (string * Z) :=
  [ ("AB", 8); ("AMN", 8); ("A1C", 10); ("SRA", 12); ("SSG", 22);
    ("TSG", 24); ("MSG", 26); ("SMS", 28) ].

Definition EXCEPTION_HIGHER_TENURE : gmap string Z :=
  list_to_map EXCEPTION_HIGHER_TENURE_items.

Definition INITIAL_MEL_HEADER_ROW : list string :=
  [ "FULL NAME"; "GRADE"; "DAS"; "DAFSC"; "UNIT"; "DOR"; "TAFMSD";
    "PASCODE" ].

Definition INITIAL_MEL_INELIGIBLE_HEADER_ROW : list string :=
  [ "FULL NAME"; "GRADE"; "PASCODE"; "DAFSC"; "UNIT"; "REASON" ].

Definition EXCEPTION_HYT_START_DATE : pydatetime.datetime :=
  pydatetime.mk_datetime 2023 12 8 0 0 0 0.
Definition EXCEPTION_HYT_END_DATE : pydatetime.datetime :=
  pydatetime.mk_datetime 2026 9 30 0 0 0 0.

Definition SMALL_UNIT_THRESHOLD : nat := 10.

Definition DATE_FORMAT_INPUT : string := "%d-%b-%Y".
Definition DATE_FORMAT_DISPLAY : string := "%d %B %Y".

End constants.

(** ** [_strptime]: parsing with the format ["%d-%b-%Y"]

    The format compiles to the regular expression
    [(?P<d>3[0-1]|[1-2]\d|0[1-9]|[1-9]| [1-9])-(?P<b>jan|feb|...|dec)-(?P<Y>\d\d\d\d)],
    matched case-insensitively at the start of the input; text left over
    after the match is an error.  Strings are sequences of bytes here, and
    [\d] is read as an ASCII digit. *)

Module _strptime.

Definition is_digit (c : ascii) : bool :=
  let n := N_of_ascii c in (N.leb 48 n && N.leb n 57)%bool.

Definition digit_val (c : ascii) : Z := Z.of_N (N_of_ascii c) - 48.

Definition is_digit_in (lo hi : Z) (c : ascii) : bool :=
  is_digit c && (lo <=? digit_val c) && (digit_val c <=? hi).

Definition lower (c : ascii) : ascii :=
  let n := N_of_ascii c in
  if (N.leb 65 n && N.leb n 90)%bool then ascii_of_N (n + 32) else c.

(** The alternatives of group [d], in the order the regex tries them;
    each yields the day and the rest of the input. *)
Definition match_d (s : string) : list (Z * string) :=
  (match s with
   | String c1 (String c2 r) =>
     if Ascii.eqb c1 "3" && is_digit_in 0 1 c2
     then [(30 + digit_val c2, r)] else []
   | _ => []
   end)
  ++ (match s with
      | String c1 (String c2 r) =>
        if is_digit_in 1 2 c1 && is_digit c2
        then [(10 * digit_val c1 + digit_val c2, r)] else []
      | _ => []
      end)
  ++ (match s with
      | String c1 (String c2 r) =>
        if Ascii.eqb c1 "0" && is_digit_in 1 9 c2
        then [(digit_val c2, r)] else []
      | _ => []
      end)
  ++ (match s with
      | String c1 r => if is_digit_in 1 9 c1 then [(digit_val c1, r)] else []
      | _ => []
      end)
  ++ (match s with
      | String c1 (String c2 r) =>
        if Ascii.eqb c1 " " && is_digit_in 1 9 c2
        then [(digit_val c2, r)] else []
      | _ => []
      end).

Definition match_lit (c : ascii) (s : string) : option string :=
  match s with
  | String c' r => if Ascii.eqb c c' then Some r else None
  | EmptyString => None
  end.

Definition a_month : list string :=
  [ "jan"; "feb"; "mar"; "apr"; "may"; "jun"; "jul"; "aug"; "sep"; "oct";
    "nov"; "dec" ].

Fixpoint index_from (n : Z) (x : string) (l : list string) : option Z :=
  match l with
  | [] => None
  | y :: l' => if String.eqb x y then Some n else index_from (n + 1) x l'
  end.

(** Group [b]: three letters spelling a month abbreviation in any case;
    the month number is [a_month.index(found.lower())], counted from 1. *)
Definition match_b (s : string) : option (Z * string) :=
  match s with
  | String c1 (String c2 (String c3 r)) =>
    let w := String (lower c1) (String (lower c2) (String (lower c3) EmptyString)) in
    match index_from 1 w a_month with
    | Some m => Some (m, r)
    | None => None
    end
  | _ => None
  end.

(** Group [Y]: exactly four digits. *)
Definition match_Y (s : string) : option (Z * string) :=
  match s with
  | String c1 (String c2 (String c3 (String c4 r))) =>
    if is_digit c1 && is_digit c2 && is_digit c3 && is_digit c4
    then Some (1000 * digit_val c1 + 100 * digit_val c2
               + 10 * digit_val c3 + digit_val c4, r)
    else None
  | _ => None
  end.

(** What follows group [d] in the pattern: [-], the month, [-], the year. *)
Definition match_tail (s : string) : option (Z * Z * string) :=
  match match_lit "-" s with
  | Some s1 =>
    match match_b s1 with
    | Some (m, s2) =>
      match match_lit "-" s2 with
      | Some s3 =>
        match match_Y s3 with
        | Some (y, s4) => Some (m, y, s4)
        | None => None
        end
      | None => None
      end
    | None => None
    end
  | None => None
  end.

(** The first alternative of [d] that lets the whole pattern match. *)
Fixpoint first_match (cands : list (Z * string)) : option (Z * Z * Z * string) :=
  match cands with
  | [] => None
  | (d, r) :: cands' =>
    match match_tail r with
    | Some (m, y, rest) => Some (d, m, y, rest)
    | None => first_match cands'
    end
  end.

(** [datetime.strptime(s, "%d-%b-%Y")] *)
Definition strptime_d_b_Y (s : string) : result pydatetime.datetime :=
  match first_match (match_d s) with
  | None => Raise ValueError
  | Some (d, m, y, rest) =>
    if String.eqb rest "" then pydatetime.new y m d 0 0 0 0
    else Raise ValueError
  end.

End _strptime.

(** ** hyt_test_exemption.py *)

Module hyt_test_exemption.

(** The dictionary built by [create_test_member]. *)
Record member : Type := mk_member {
  name : string;
  grade : string;
  year : Z;
  date_of_rank : string;
  uif_code : option string;
  uif_disposition_date : option string;
  tafmsd : string;
  re_status : option string;
  pafsc : string;
  two_afsc : option string;
  three_afsc : option string;
  four_afsc : option string;
  description : string;
  expected_hyt_date : pydatetime.datetime;
  exception_hyt_date : pydatetime.datetime
}.

(** [d + relativedelta(years=table.get(grade))]: when the grade is not in
    the table the years are [None] and the addition raises. *)
Definition add_tenure_years (table : gmap string Z) (grade : string)
    (d : pydatetime.datetime) : result pydatetime.datetime :=
  match table !! grade with
  | Some years => pydatetime.add_relativedelta d years 0
  | None => Raise TypeError
  end.

Definition create_test_member (name grade : string) (year : Z)
    (tafmsd_date dor_date : pydatetime.datetime) (description : string)
    : result member :=
  expected <-! add_tenure_years constants.MAIN_HIGHER_TENURE grade tafmsd_date ;;
  exception <-! add_tenure_years constants.EXCEPTION_HIGHER_TENURE grade tafmsd_date ;;
  Ok {| name := name;
        grade := grade;
        year := year;
        date_of_rank := pydatetime.strftime "%d-%b-%Y" dor_date;
        uif_code := None;
        uif_disposition_date := None;
        tafmsd := pydatetime.strftime "%d-%b-%Y" tafmsd_date;
        re_status := None;
        pafsc := "3S0X1";
        two_afsc := None;
        three_afsc := None;
        four_afsc := None;
        description := description;
        expected_hyt_date := expected;
        exception_hyt_date := exception |}.

(** [EXCEPTION_HYT_START_DATE < member['expected_hyt_date'] < EXCEPTION_HYT_END_DATE] *)
Definition main_hyt_in_exemption (m : member) : bool :=
  pydatetime.lt constants.EXCEPTION_HYT_START_DATE (expected_hyt_date m)
  && pydatetime.lt (expected_hyt_date m) constants.EXCEPTION_HYT_END_DATE.

Definition test_member_1 : result member :=
  create_test_member "SSgt Smith (Should FAIL HYT)" "SSG" 2024
    (pydatetime.mk_datetime 2003 1 15 0 0 0 0)
    (pydatetime.mk_datetime 2018 6 1 0 0 0 0)
    "HYT date falls BEFORE exemption period - should be INELIGIBLE".

Definition test_member_2 : result member :=
  create_test_member "SSgt Johnson (Should PASS with exemption)" "SSG" 2024
    (pydatetime.mk_datetime 2004 6 15 0 0 0 0)
    (pydatetime.mk_datetime 2019 3 1 0 0 0 0)
    "HYT date falls WITHIN exemption period - should be ELIGIBLE".

End hyt_test_exemption.

(** ** The higher-tenure step of the eligibility evaluator *)

Module board_filter.

(** Modelled from the spec: the two tenure limits of step 6 of section
    4.1, the standard one and the exception one. *)
Inductive hyt_limit : Type := MainLimit | ExceptionLimit.

(** Modelled from the spec: the file [board_filter.py], which holds the
    eligibility evaluator, is not among the sources; this is step 6 of
    section 4.1, "compute [standard_hyt_date = tafmsd +
    MAIN_HIGHER_TENURE[grade]] years". An unknown grade is a configuration
    error (section 7). *)
Definition standard_hyt_date (grade : string) (tafmsd : pydatetime.datetime)
    : result pydatetime.datetime :=
  match constants.MAIN_HIGHER_TENURE !! grade with
  | Some years => pydatetime.add_relativedelta tafmsd years 0
  | None => Raise KeyError
  end.

(** Modelled from the spec: "all comparisons are on calendar dates, not
    date-times"; this is the calendar date of a date-time, [d.date()], as
    the date-time at midnight of that day. *)
Definition date (d : pydatetime.datetime) : pydatetime.datetime :=
  pydatetime.mk_datetime (pydatetime.year d) (pydatetime.month d)
    (pydatetime.day d) 0 0 0 0.

(** Modelled from the spec: "the exemption window is open (strict [<]) at
    both ends", the comparisons being on calendar dates. *)
Definition in_exception_window (d : pydatetime.datetime) : bool :=
  pydatetime.lt (date constants.EXCEPTION_HYT_START_DATE) (date d)
  && pydatetime.lt (date d) (date constants.EXCEPTION_HYT_END_DATE).

(** Modelled from the spec: which of the two tenure limits step 6 uses;
    "the exemption test is evaluated against the standard HYT date". *)
Definition hyt_limit_applied (grade : string) (tafmsd : pydatetime.datetime)
    : result hyt_limit :=
  sd <-! standard_hyt_date grade tafmsd ;;
  Ok (if in_exception_window sd then ExceptionLimit else MainLimit).

(** Modelled from the spec: "if [standard_hyt_date] falls strictly inside
    the exception window, recompute [effective_hyt_date = tafmsd +
    EXCEPTION_HIGHER_TENURE[grade]] years and use it instead". *)
Definition effective_hyt_date (grade : string) (tafmsd : pydatetime.datetime)
    : result pydatetime.datetime :=
  sd <-! standard_hyt_date grade tafmsd ;;
  if in_exception_window sd then
    match constants.EXCEPTION_HIGHER_TENURE !! grade with
    | Some years => pydatetime.add_relativedelta tafmsd years 0
    | None => Raise KeyError
    end
  else Ok sd.

End board_filter.

(** ** The part of [pandas] the pipeline uses

    A frame is its column labels and its rows; cells are strings, which is
    what the name, code and date columns of an uploaded roster hold. *)

Module pandas.

Record DataFrame : Type := mk_df {
  columns : list string;
  values : list (list string)
}.

(** Every row has one cell per column. *)
Definition well_formed (df : DataFrame) : Prop :=
  Forall (fun r : list string => length r = length (columns df)) (values df).

(** [df.empty]: one of the two axes has length zero. *)
Definition empty (df : DataFrame) : bool :=
  match columns df, values df with
  | [], _ | _, [] => true
  | _, _ => false
  end.

Fixpoint position (c : string) (cols : list string) : option nat :=
  match cols with
  | [] => None
  | c' :: cols' =>
    if String.eqb c c' then Some O
    else match position c cols' with
         | Some i => Some (S i)
         | None => None
         end
  end.

Fixpoint positions (cols have : list string) : option (list nat) :=
  match cols with
  | [] => Some []
  | c :: cols' =>
    match position c have, positions cols' have with
    | Some i, Some ixs => Some (i :: ixs)
    | _, _ => None
    end
  end.

Definition project (ixs : list nat) (r : list string) : list string :=
  map (fun i => r !!! i) ixs.

(** [df[cols]] for a list of labels: the listed columns in the listed
    order, [KeyError] when a label is missing. Labels of [df] are taken
    to be distinct. *)
Definition getitem (df : DataFrame) (cols : list string) : result DataFrame :=
  match positions cols (columns df) with
  | Some ixs => Ok (mk_df cols (map (project ixs) (values df)))
  | None => Raise KeyError
  end.

(** [df.values.tolist()] *)
Definition values_tolist (df : DataFrame) : list (list string) := values df.

End pandas.

(** ** main.py: the frames stored at upload *)

Module main.

(** [processed_df = df[REQUIRED_COLUMNS + OPTIONAL_COLUMNS]] and
    [pdf_df = processed_df[PDF_COLUMNS]]. *)
Definition upload_frames (df : pandas.DataFrame)
    : result (pandas.DataFrame * pandas.DataFrame) :=
  processed_df <-! pandas.getitem df
    (constants.REQUIRED_COLUMNS ++ constants.OPTIONAL_COLUMNS) ;;
  pdf_df <-! pandas.getitem processed_df constants.PDF_COLUMNS ;;
  Ok (processed_df, pdf_df).

End main.

(** ** initial_mel_generator.py *)

Module initial_mel_generator.

Definition get_accounting_date (grade : string) (year : Z) : result string :=
  try_except
    (let scod := fstr_opt (constants.SCODS !! grade) +:+ "-" +:+ str_int year in
     formatted_scod_date <-! _strptime.strptime_d_b_Y scod ;;
     accounting_date <-! pydatetime.sub_relativedelta_days formatted_scod_date 119 ;;
     adjusted_accounting_date <-!
       pydatetime.replace_day_hms accounting_date 3 23 59 59 ;;
     Ok (pydatetime.strftime constants.DATE_FORMAT_DISPLAY adjusted_accounting_date))
    (fun _ => Ok "Error calculating date").

(** The [table_data] that [create_table] hands to the table renderer. *)
Definition create_table (data : list (list string)) (header : list string)
    (table_type : string) (count : option nat) : list (list string) :=
  let table_data := header :: data in
  match count with
  | Some n =>
    if negb (String.eqb table_type "") then
      [ table_type; ""; ""; ""; ""; ""; ""; "Total: " +:+ str_int (Z.of_nat n) ]
      :: table_data
    else table_data
  | None => table_data
  end.

(** The dictionary [pas_info] built for one PASCODE. *)
Record pas_info : Type := mk_pas_info {
  srid : string;
  rank : string;
  title : string;
  fd_name : string;
  fdid : string;
  srid_mpf : string;
  mp : Z;
  pn : Z
}.

(** The arguments of one call to [generate_pascode_pdf]. *)
Record pascode_job : Type := mk_job {
  eligible_data : list (list string);
  ineligible_data : list (list string);
  btz_data : list (list string);
  small_unit_data : pandas.DataFrame;
  is_last : bool;
  job_cycle : string;
  job_melYear : Z;
  job_pascode : string;
  job_pas_info : pas_info;
  output_filename : string
}.

(** What [get_session] returns, restricted to the keys read here. *)
Record session : Type := mk_session {
  eligible_df : pandas.DataFrame;
  ineligible_df : pandas.DataFrame;
  btz_df : pandas.DataFrame;
  small_unit_df : pandas.DataFrame;
  cycle : string;
  melYear : Z;
  pascode_map : gmap string (gmap string string)
}.

(** What [generate_roster_pdf] leaves behind: the files handed to
    [merge_pdfs], in order, and the PASCODEs for which
    [generate_pascode_pdf] was called, in call order. *)
Record emitted : Type := mk_emitted {
  temp_pdfs : list string;
  rendered : list string
}.

Definition ineligible_columns : list string :=
  [ "FULL_NAME"; "GRADE"; "ASSIGNED_PAS"; "DAFSC"; "ASSIGNED_PAS_CLEARTEXT";
    "REASON" ].

(** [for row in data: if len(row) > i: unique_pascodes.add(row[i])] *)
Definition collect (i : nat) (data : list (list string)) (acc : gset string)
    : gset string :=
  foldl (fun (acc : gset string) (row : list string) =>
           match row !! i with
           | Some p => acc ∪ {[ p ]}
           | None => acc
           end) acc data.

(** [[row for row in data if len(row) > i and row[i] == pascode]] *)
Definition rows_of (i : nat) (pascode : string) (data : list (list string))
    : list (list string) :=
  List.filter (fun row : list string =>
            match row !! i with
            | Some p => String.eqb p pascode
            | None => false
            end) data.

(** [dict.get(key, default)] *)
Definition dict_get (d : gmap string string) (key default : string) : string :=
  match d !! key with
  | Some v => v
  | None => default
  end.

(** [f"temp_{pascode}.pdf"] *)
Definition temp_name (pascode : string) : string :=
  "temp_" +:+ pascode +:+ ".pdf".

Section generate.

(** [get_promotion_eligibility] is imported from
    [promotion_eligible_counter]; it is a parameter here, and it may
    raise. *)
Variable get_promotion_eligibility : nat -> string -> result (Z * Z).

(** Whether building the document for a job succeeds: the layout
    engine is outside this development. *)
Variable doc_build : pascode_job -> bool.

(** [generate_pascode_pdf]: the file name when the document was built,
    [None] when building raised. *)
Definition generate_pascode_pdf (job : pascode_job) : option string :=
  if doc_build job then Some (output_filename job) else None.

(** [unique_pascodes], collected and then sorted. [sorted] on [str] orders
    by code point; on the bytes of a string that is [String.le]. *)
Definition sorted_pascodes (eligible ineligible btz : list (list string))
    : list string :=
  let unique_pascodes := collect 7 eligible ∅ in
  let unique_pascodes := collect 2 ineligible unique_pascodes in
  let unique_pascodes := collect 7 btz unique_pascodes in
  merge_sort String.le (elements unique_pascodes).

(** The body of [for pascode in unique_pascodes], applied to the
    PASCODEs still to visit. *)
Fixpoint pascode_loop (s : session)
    (eligible ineligible btz : list (list string)) (last : option string)
    (todo : list string) (acc : emitted) : result emitted :=
  match todo with
  | [] => Ok acc
  | pascode :: todo' =>
    match pascode_map s !! pascode with
    | None => pascode_loop s eligible ineligible btz last todo' acc
    | Some info =>
      let pascode_eligible := rows_of 7 pascode eligible in
      let pascode_ineligible := rows_of 2 pascode ineligible in
      let pascode_btz := rows_of 7 pascode btz in
      match pascode_eligible, pascode_ineligible, pascode_btz with
      | [], [], [] => pascode_loop s eligible ineligible btz last todo' acc
      | _, _, _ =>
        let eligible_candidates := length pascode_eligible in
        quota <-! get_promotion_eligibility eligible_candidates (cycle s) ;;
        let job :=
          {| eligible_data := pascode_eligible;
             ineligible_data := pascode_ineligible;
             btz_data := pascode_btz;
             small_unit_data := small_unit_df s;
             is_last := bool_decide (Some pascode = last);
             job_cycle := cycle s;
             job_melYear := melYear s;
             job_pascode := pascode;
             job_pas_info :=
               {| srid := dict_get info "srid" "N/A";
                  rank := dict_get info "senior_rater_rank" "N/A";
                  title := dict_get info "senior_rater_title" "N/A";
                  fd_name := dict_get info "senior_rater_name" "N/A";
                  fdid := dict_get info "srid" "" +:+ slice_last 4 pascode;
                  srid_mpf := slice_first 2 pascode;
                  mp := quota.1;
                  pn := quota.2 |};
             output_filename := temp_name pascode |} in
        let acc' :=
          match generate_pascode_pdf job with
          | Some temp_pdf =>
            {| temp_pdfs := temp_pdfs acc ++ [temp_pdf];
               rendered := rendered acc ++ [pascode] |}
          | None =>
            {| temp_pdfs := temp_pdfs acc;
               rendered := rendered acc ++ [pascode] |}
          end in
        pascode_loop s eligible ineligible btz last todo' acc'
      end
    end
  end.

(** [eligible_data], [btz_data] and [ineligible_data]: the rows of the
    stored frames, the ineligible ones restricted to the columns of
    [ineligible_columns] that the frame has. *)
Definition eligible_rows (s : session) : list (list string) :=
  if pandas.empty (eligible_df s) then []
  else pandas.values_tolist (eligible_df s).

Definition btz_rows (s : session) : list (list string) :=
  if pandas.empty (btz_df s) then []
  else pandas.values_tolist (btz_df s).

Definition ineligible_rows (s : session) : result (list (list string)) :=
  let available_columns :=
    List.filter (fun col => bool_decide (col ∈ pandas.columns (ineligible_df s)))
           ineligible_columns in
  if pandas.empty (ineligible_df s) then Ok []
  else selected <-! pandas.getitem (ineligible_df s) available_columns ;;
       Ok (pandas.values_tolist selected).

(** [generate_roster_pdf], from the session on: [None] stands for the
    three [return None] exits, the last of which is the handler of the
    enclosing [try]. *)
Definition generate_roster_pdf (s : session) : option emitted :=
  let eligible_data := eligible_rows s in
  let btz_data := btz_rows s in
  let body :=
    ineligible_data <-! ineligible_rows s ;;
    let unique_pascodes :=
      sorted_pascodes eligible_data ineligible_data btz_data in
    match unique_pascodes with
    | [] => Ok None
    | _ =>
      out <-! pascode_loop s eligible_data ineligible_data btz_data
                (last unique_pascodes) unique_pascodes
                {| temp_pdfs := []; rendered := [] |} ;;
      match temp_pdfs out with
      | [] => Ok None
      | _ => Ok (Some out)
      end
    end in
  match body with
  | Ok r => r
  | Raise _ => None
  end.

End generate.

End initial_mel_generator.

(** ** The roster processor *)

Module roster_processor.

(** Modelled from the spec: the file [roster_processor.py] is not among
    the sources ([main.py] only calls it); these are the three categories
    of the EligibilityResult of section 3. *)
Inductive category : Type := ELIGIBLE | INELIGIBLE | BELOW_THE_ZONE.

#[global] Instance category_eq_dec : EqDecision category.
Proof. solve_decision. Defined.

(** Modelled from the spec: the MemberRecord of section 3. *)
Record MemberRecord : Type := mk_record {
  full_name : string;
  grade : string;
  assigned_pas : string;
  assigned_pas_cleartext : string;
  primary_afsc : string;
  secondary_afscs : list string;
  date_of_rank : pydatetime.datetime;
  date_arrived_station : pydatetime.datetime;
  tafmsd : pydatetime.datetime;
  reenlistment_status : option string;
  uif_code : option string;
  uif_disposition_date : option pydatetime.datetime;
  grade_perm_proj : option string
}.

(** Modelled from the spec: the EligibilityResult of section 3. *)
Record EligibilityResult : Type := mk_result {
  result_category : category;
  result_eligible : bool;
  result_reason : option string
}.

(** Modelled from the spec: a categorized row, with the reason attached
    for ineligible and below-the-zone rows (section 4.2). *)
Record entry : Type := mk_entry {
  row_identifier : nat;
  record : MemberRecord;
  reason : option string
}.

(** Modelled from the spec: "a structured error entry
    [{row_identifier, reason}]" (section 4.2). *)
Record error_entry : Type := mk_error {
  error_row : nat;
  error_reason : string
}.

(** Modelled from the spec: the four collections of the RosterPartition
    of section 3. *)
Record RosterPartition : Type := mk_partition {
  eligible : list entry;
  ineligible : list entry;
  below_the_zone : list entry;
  error_log : list error_entry
}.

(** Modelled from the spec: the unit code ("PASCODE") of a row. *)
Definition unit_of (e : entry) : string := assigned_pas (record e).

(** The row identifiers held by a collection. *)
Definition ids (es : list entry) : list nat := row_identifier <$> es.
Definition error_ids (es : list error_entry) : list nat := error_row <$> es.

Section process.

Context {RawRow : Type}.

(** Parsing one raw row: a record, or the reason it is malformed. *)
Variable parse : RawRow -> string + MemberRecord.

(** The eligibility evaluator: a verdict, or the reason of a
    configuration error (section 7, kind c). *)
Variable evaluate : MemberRecord -> string -> Z -> string + EligibilityResult.

Variable grade_cycle : string.
Variable board_year : Z.

(** Modelled from the spec: "append a structured error entry" to the error
    log; the categorized collections are left as they are. *)
Definition log_error (i : nat) (why : string) (p : RosterPartition)
    : RosterPartition :=
  {| eligible := eligible p;
     ineligible := ineligible p;
     below_the_zone := below_the_zone p;
     error_log := error_log p ++ [mk_error i why] |}.

(** Modelled from the spec: section 4.2, "for each raw row: parse
    fields into a MemberRecord; if parsing fails, append a structured
    error entry and exclude the row from categorization; otherwise
    invoke EligibilityEvaluator and place the row into the category it
    returns"; a configuration error of the evaluator is "surfaced as a
    structural error" (section 7). *)
Definition place (i : nat) (raw : RawRow) (p : RosterPartition)
    : RosterPartition :=
  match parse raw with
  | inl why => log_error i why p
  | inr rec =>
    match evaluate rec grade_cycle board_year with
    | inl why => log_error i why p
    | inr res =>
      match result_category res with
      | ELIGIBLE =>
        {| eligible := eligible p ++ [mk_entry i rec None];
           ineligible := ineligible p;
           below_the_zone := below_the_zone p;
           error_log := error_log p |}
      | INELIGIBLE =>
        {| eligible := eligible p;
           ineligible := ineligible p ++ [mk_entry i rec (result_reason res)];
           below_the_zone := below_the_zone p;
           error_log := error_log p |}
      | BELOW_THE_ZONE =>
        {| eligible := eligible p;
           ineligible := ineligible p;
           below_the_zone :=
             below_the_zone p ++ [mk_entry i rec (result_reason res)];
           error_log := error_log p |}
      end
    end
  end.

(** Modelled from the spec: the pass over the rows, in input order, the
    first of them having position [i]. *)
Fixpoint process_from (i : nat) (raw_rows : list RawRow) (p : RosterPartition)
    : RosterPartition :=
  match raw_rows with
  | [] => p
  | raw :: rest => process_from (S i) rest (place i raw p)
  end.

(** Modelled from the spec: [process(raw_rows, grade_cycle, board_year)];
    the row identifier is the position of the row in the input. *)
Definition process (raw_rows : list RawRow) : RosterPartition :=
  process_from 0 raw_rows
    {| eligible := []; ineligible := []; below_the_zone := [];
       error_log := [] |}.

(** The category the evaluator assigns to a raw row; [None] when the row
    does not parse or the evaluator reports a configuration error. *)
Definition verdict (raw : RawRow) : option category :=
  match parse raw with
  | inl _ => None
  | inr rec =>
    match evaluate rec grade_cycle board_year with
    | inl _ => None
    | inr res => Some (result_category res)
    end
  end.

(** The positions, counted from [i], of the rows with verdict [v]. *)
Fixpoint rows_with (v : option category) (i : nat) (raw_rows : list RawRow)
    : list nat :=
  match raw_rows with
  | [] => []
  | raw :: rest =>
    (if decide (verdict raw = v) then [i] else []) ++ rows_with v (S i) rest
  end.

End process.

(** Modelled from the spec: section 4.2, "group eligible rows by unit
    code, building a [unit_code -> eligible_subset] map". *)
Definition eligible_by_unit (es : list entry) : gmap string (list entry) :=
  foldr (fun e (m : gmap string (list entry)) =>
           <[ unit_of e := e :: default [] (m !! unit_of e) ]> m) ∅ es.

(** Modelled from the spec: "the eligible count is strictly below the
    small-unit threshold". *)
Definition is_small_unit (rows : list entry) : bool :=
  bool_decide (length rows < constants.SMALL_UNIT_THRESHOLD)%nat.

(** Modelled from the spec: section 4.2, "for each unit, if the eligible
    count is strictly below the small-unit threshold (10), remove that
    unit's eligible rows from the per-unit reporting set and accumulate
    them into a single cross-unit small-unit grouping". The state is the
    per-unit reporting map and the small-unit grouping. *)
Definition merge_if_small (st : gmap string (list entry) * list entry)
    (unit : string * list entry) : gmap string (list entry) * list entry :=
  if is_small_unit unit.2
  then (delete unit.1 st.1, st.2 ++ unit.2)
  else st.

(** A unit of the map that is below the threshold. *)
Definition small_pair (unit : string * list entry) : Prop :=
  is_small_unit unit.2 = true.

(** Modelled from the spec: the step above applied to each unit of the
    map in turn, starting from the whole map and an empty grouping. The
    eligible collection of the partition itself is not changed by it. *)
Definition group_small_units (es : list entry)
    : gmap string (list entry) * list entry :=
  let by_unit := eligible_by_unit es in
  foldl merge_if_small (by_unit, []) (map_to_list by_unit).

Definition per_unit_reporting (es : list entry) : gmap string (list entry) :=
  (group_small_units es).1.

Definition small_unit_grouping (es : list entry) : list entry :=
  (group_small_units es).2.

End roster_processor.

(** ** The column order as the specification words it

    Section 6 lists the columns handed to report rendering as "name, grade,
    unit-code, AFSC, cleartext unit, date-of-rank, service date,
    unit-code"; these are the input labels those words denote. *)
Definition spec_column_order : list string :=
  [ "FULL_NAME"; "GRADE"; "ASSIGNED_PAS"; "DAFSC"; "ASSIGNED_PAS_CLEARTEXT";
    "DOR"; "TAFMSD"; "ASSIGNED_PAS" ].

(** ** Auxiliary definitions for the proofs *)

Module calendar.
Import pydatetime.

(** The month and the day that [_ord2ymd] assigns to the zero-based day
    [n] of a year: the second half of its body. *)
Definition month_day (leapyear : bool) (n : Z) : Z * Z :=
  let month := Z.shiftr (n + 50) 5 in
  let preceding :=
    _DAYS_BEFORE_MONTH month + (if (2 <? month) && leapyear then 1 else 0) in
  if n <? preceding then
    let month := month - 1 in
    let preceding :=
      preceding
      - (_DAYS_IN_MONTH month + (if (month =? 2) && leapyear then 1 else 0)) in
    (month, n - preceding + 1)
  else (month, n - preceding + 1).

End calendar.

(** Whether [s] is the four-digit decimal spelling of [y], as group [Y] of
    the date pattern reads it. *)
Definition four_digits (y : Z) (s : string) : bool :=
  match s with
  | String c1 (String c2 (String c3 (String c4 EmptyString))) =>
    _strptime.is_digit c1 && _strptime.is_digit c2 && _strptime.is_digit c3
    && _strptime.is_digit c4
    && (1000 * _strptime.digit_val c1 + 100 * _strptime.digit_val c2
        + 10 * _strptime.digit_val c3 + _strptime.digit_val c4 =? y)
  | _ => false
  end.

(** The PASCODE has rows in one of the three tables. *)
Definition has_rows (eligible ineligible btz : list (list string)) (p : string)
    : Prop :=
  initial_mel_generator.rows_of 7 p eligible <> [] \/ initial_mel_generator.rows_of 2 p ineligible <> []
  \/ initial_mel_generator.rows_of 7 p btz <> [].

#[global] Instance has_rows_dec (eligible ineligible btz : list (list string))
    (p : string) : Decision (has_rows eligible ineligible btz p).
Proof. unfold has_rows. apply _. Defined.

(** A one-row roster with the sixteen input columns. *)
Definition sample_roster : pandas.DataFrame :=
  pandas.mk_df (constants.REQUIRED_COLUMNS ++ constants.OPTIONAL_COLUMNS)
    [ [ "DOE, JANE"; "SSG"; "51 FSS"; "3F071"; "01-MAR-2019"; "15-JUN-2021";
        "15-JUN-2004"; "1A"; "OS1MFDB3"; "3F071"; ""; ""; ""; ""; ""; "" ] ].

(** Nineteen eligible rows, nine of unit "AA" and ten of unit "BB". *)
Definition sample_record (unit : string) : roster_processor.MemberRecord :=
  roster_processor.mk_record "DOE, JANE" "SSG" unit "51 FSS" "3F071" []
    (pydatetime.mk_datetime 2019 3 1 0 0 0 0)
    (pydatetime.mk_datetime 2021 6 15 0 0 0 0)
    (pydatetime.mk_datetime 2004 6 15 0 0 0 0) None None None None.

Definition sample_unit (unit : string) (start n : nat)
    : list roster_processor.entry :=
  (fun i => roster_processor.mk_entry i (sample_record unit) None) <$> seq start n.

Definition sample_eligible : list roster_processor.entry :=
  sample_unit "AA" 0 9 ++ sample_unit "BB" 9 10.

(** ** Further auxiliary definitions *)

(** A datetime moved by [ys] whole years as [relativedelta(years=ys)] moves
    it: 29 February becomes 28 February in a year that is not a leap
    year. *)
Definition shifted (dt : pydatetime.datetime) (ys : Z) : pydatetime.datetime :=
  pydatetime.mk_datetime (pydatetime.year dt + ys) (pydatetime.month dt)
    (if (pydatetime.month dt =? 2) && (pydatetime.day dt =? 29) && negb (pydatetime._is_leap (pydatetime.year dt + ys))
     then 28 else pydatetime.day dt)
    (pydatetime.hour dt) (pydatetime.minute dt) (pydatetime.second dt)
    (pydatetime.microsecond dt).

(** ** The calls to [generate_pascode_pdf] *)

Module roster_jobs.
Import initial_mel_generator.

(** The job built for one PASCODE in the loop of [generate_roster_pdf]. *)
Definition job_of (s : session) (eligible ineligible btz : list (list string))
    (last : option string) (pascode : string) (info : gmap string string)
    (quota : Z * Z) : pascode_job :=
  {| eligible_data := rows_of 7 pascode eligible;
     ineligible_data := rows_of 2 pascode ineligible;
     btz_data := rows_of 7 pascode btz;
     small_unit_data := small_unit_df s;
     is_last := bool_decide (Some pascode = last);
     job_cycle := cycle s;
     job_melYear := melYear s;
     job_pascode := pascode;
     job_pas_info :=
       {| srid := dict_get info "srid" "N/A";
          rank := dict_get info "senior_rater_rank" "N/A";
          title := dict_get info "senior_rater_title" "N/A";
          fd_name := dict_get info "senior_rater_name" "N/A";
          fdid := dict_get info "srid" "" +:+ slice_last 4 pascode;
          srid_mpf := slice_first 2 pascode;
          mp := quota.1;
          pn := quota.2 |};
     output_filename := temp_name pascode |}.

Section jobs.

Variable get_promotion_eligibility : nat -> string -> result (Z * Z).

(** The jobs handed to [generate_pascode_pdf], in call order: the loop of
    [generate_roster_pdf] without the rendering. *)
Fixpoint pascode_jobs (s : session)
    (eligible ineligible btz : list (list string)) (last : option string)
    (todo : list string) : result (list pascode_job) :=
  match todo with
  | [] => Ok []
  | pascode :: todo' =>
    match pascode_map s !! pascode with
    | None => pascode_jobs s eligible ineligible btz last todo'
    | Some info =>
      match rows_of 7 pascode eligible, rows_of 2 pascode ineligible,
            rows_of 7 pascode btz with
      | [], [], [] => pascode_jobs s eligible ineligible btz last todo'
      | _, _, _ =>
        quota <-! get_promotion_eligibility
                    (length (rows_of 7 pascode eligible)) (cycle s) ;;
        rest <-! pascode_jobs s eligible ineligible btz last todo' ;;
        Ok (job_of s eligible ineligible btz last pascode info quota :: rest)
      end
    end
  end.

(** [generate_pascode_pdf] goes on to [generate_small_unit_pdf] when the
    document was built, the job is the last one and there are small-unit
    rows. *)
Definition reaches_small_unit (doc_build : pascode_job -> bool)
    (job : pascode_job) : bool :=
  doc_build job && is_last job
  && negb (bool_decide (pandas.values (small_unit_data job) = [])).

(** [unique_pascodes] of a session. *)
Definition unique_pascodes_of (s : session) : result (list string) :=
  ineligible <-! ineligible_rows s ;;
  Ok (sorted_pascodes (eligible_rows s) ineligible (btz_rows s)).

(** The jobs of a session. *)
Definition session_jobs (s : session) : result (list pascode_job) :=
  ineligible <-! ineligible_rows s ;;
  let unique_pascodes :=
    sorted_pascodes (eligible_rows s) ineligible (btz_rows s) in
  pascode_jobs s (eligible_rows s) ineligible (btz_rows s)
    (last unique_pascodes) unique_pascodes.

End jobs.

(** What the loop adds to [temp_pdfs] and to the units rendered when the
    jobs are handed to [generate_pascode_pdf] one after the other. *)
Definition emit (doc_build : pascode_job -> bool) (acc : emitted)
    (jobs : list pascode_job) : emitted :=
  {| temp_pdfs := temp_pdfs acc ++ omap (generate_pascode_pdf doc_build) jobs;
     rendered := rendered acc ++ (job_pascode <$> jobs) |}.

(** A session with three units, the greatest of which, "C3", may be left
    out of [pascode_map], and one small-unit row. *)
Definition sample_row (p : string) : list string :=
  [ "N"; "SSG"; "01-JAN-2020"; "3F071"; "UNIT"; "D"; "T"; p ].

Definition sample_session (m : gmap string (gmap string string)) : session :=
  {| eligible_df :=
       pandas.mk_df constants.PDF_COLUMNS
         [ sample_row "B2"; sample_row "C3"; sample_row "A1"; sample_row "C3" ];
     ineligible_df := pandas.mk_df [] [];
     btz_df := pandas.mk_df [] [];
     small_unit_df := pandas.mk_df constants.PDF_COLUMNS [ sample_row "D4" ];
     cycle := "SSG";
     melYear := 2025;
     pascode_map := m |}.

Definition sample_quota (n : nat) (cycle : string) : result (Z * Z) :=
  Ok (Z.of_nat n, 0%Z).

Definition jobs_or_nil (r : result (list pascode_job)) : list pascode_job :=
  match r with
  | Ok jobs => jobs
  | Raise _ => []
  end.

Definition sample_jobs (m : gmap string (gmap string string))
    : list pascode_job :=
  jobs_or_nil (session_jobs sample_quota (sample_session m)).

End roster_jobs.

(** ** MilitaryRosterDocument.draw_wrapped_text *)

Module wrapped_text.

(** [sep.join(words)] *)
Fixpoint join (sep : string) (words : list string) : string :=
  match words with
  | [] => ""
  | [ w ] => w
  | w :: words' => w +:+ sep +:+ join sep words'
  end.

Section wrap.

(** Widths are the floats of [stringWidth]; nothing is assumed of their
    sum or their comparison. *)
Variable W : Type.
Variable zero : W.
Variable add : W -> W -> W.
Variable leb : W -> W -> bool.

(** [stringWidth(word + ' ', BOLD_FONT, 8)] and [self.page_width - inch]. *)
Variable word_width : string -> W.
Variable max_width : W.

(** The [for word in words] loop on [lines], [current_line] and
    [current_width]. *)
Fixpoint wrap_loop (words : list string) (lines : list string)
    (current_line : list string) (current_width : W)
    : list string * list string * W :=
  match words with
  | [] => (lines, current_line, current_width)
  | word :: words' =>
    let word_width := word_width word in
    if leb (add current_width word_width) max_width then
      wrap_loop words' lines (current_line ++ [word])
        (add current_width word_width)
    else
      wrap_loop words' (lines ++ [join " " current_line]) [word] word_width
  end.

(** [lines] when the drawing starts. *)
Definition wrapped_lines (words : list string) : list string :=
  let '(lines, current_line, _) := wrap_loop words [] [] zero in
  match current_line with
  | [] => lines
  | _ => lines ++ [join " " current_line]
  end.

(** The same loop with the words of each line kept apart. *)
Fixpoint group_loop (words : list string) (groups : list (list string))
    (current_line : list string) (current_width : W)
    : list (list string) * list string * W :=
  match words with
  | [] => (groups, current_line, current_width)
  | word :: words' =>
    let word_width := word_width word in
    if leb (add current_width word_width) max_width then
      group_loop words' groups (current_line ++ [word])
        (add current_width word_width)
    else
      group_loop words' (groups ++ [current_line]) [word] word_width
  end.

Definition wrapped_groups (words : list string) : list (list string) :=
  let '(groups, current_line, _) := group_loop words [] [] zero in
  match current_line with
  | [] => groups
  | _ => groups ++ [current_line]
  end.

(** [current_width] after the words of a line, from the width [start]. *)
Definition acc_width (start : W) (line : list string) : W :=
  foldl (fun a w => add a (word_width w)) start line.

(** The width the loop has accumulated for a line: from [zero] on the
    first line, from the width of its first word on the others. *)
Definition line_width (first : bool) (line : list string) : W :=
  if first then acc_width zero line
  else match line with
       | [] => zero
       | w :: line' => acc_width (word_width w) line'
       end.

(** Every line but the first fits once it has two words; the first fits
    unless it is empty. *)
Definition fits (groups : list (list string)) : Prop :=
  match groups with
  | [] => True
  | g0 :: gs =>
    (g0 <> [] -> leb (line_width true g0) max_width = true)
    /\ Forall (fun g => (2 <= length g)%nat
                        -> leb (line_width false g) max_width = true) gs
  end.

(** A line is closed only by a word that does not fit after it. *)
Definition greedy (groups : list (list string)) : Prop :=
  forall (i : nat) (g : list string) (w : string) (rest : list string),
    groups !! i = Some g -> groups !! S i = Some (w :: rest) ->
    leb (add (line_width (bool_decide (i = 0%nat)) g) (word_width w)) max_width
    = false.

(** What the loop keeps true of the lines closed so far, the line being
    filled and its width. *)
Record inv (groups : list (list string)) (cur : list string) (cw : W)
    : Prop := mk_inv {
  inv_cur : groups <> [] -> cur <> [];
  inv_tail : Forall (fun g => g <> []) (tail groups);
  inv_width : cw = line_width (bool_decide (groups = [])) cur;
  inv_fits : fits (groups ++ [cur]);
  inv_greedy : greedy (groups ++ [cur])
}.

End wrap.

End wrapped_text.

(** ** main.py: the PASCODEs of each senior rater *)

Module submit.

#[global] Instance exn_eq_dec : EqDecision exn.
Proof. solve_decision. Defined.

#[global] Instance result_eq_dec {A : Type} `{EqDecision A}
  : EqDecision (result A).
Proof. solve_decision. Defined.

(** A [dict] whose key order is read: keys in insertion order. *)
Definition odict (V : Type) : Type := list (string * V).

(** [key in d] *)
Definition contains {V : Type} (d : odict V) (key : string) : bool :=
  bool_decide (key ∈ d.*1).

(** [d[key].append(x)] for a key of [d]. *)
Fixpoint append_at (d : odict (list string)) (key x : string)
    : odict (list string) :=
  match d with
  | [] => []
  | (k, l) :: d' =>
    if String.eqb k key then (k, l ++ [x]) :: d'
    else (k, l) :: append_at d' key x
  end.

(** [d[key] = v] for a key that [d] does not have. *)
Definition set_new {V : Type} (d : odict V) (key : string) (v : V) : odict V :=
  d ++ [(key, v)].

(** [session['pascode_map'][pascode]['srid']] *)
Definition srid_of (pascode_map : gmap string (gmap string string))
    (pascode : string) : result string :=
  match pascode_map !! pascode with
  | None => Raise KeyError
  | Some info =>
    match info !! "srid" with
    | None => Raise KeyError
    | Some srid => Ok srid
    end
  end.

(** The loop [for pascode in session['pascodes']] of
    [submit_pascode_info] on [srid_pascode_map]. *)
Fixpoint srid_loop (pascode_map : gmap string (gmap string string))
    (pascodes : list string) (srid_pascode_map : odict (list string))
    : result (odict (list string)) :=
  match pascodes with
  | [] => Ok srid_pascode_map
  | pascode :: pascodes' =>
    srid <-! srid_of pascode_map pascode ;;
    if contains srid_pascode_map srid then
      srid_loop pascode_map pascodes' (append_at srid_pascode_map srid pascode)
    else
      srid_loop pascode_map pascodes' (set_new srid_pascode_map srid [pascode])
  end.

Definition srid_pascode_map (pascode_map : gmap string (gmap string string))
    (pascodes : list string) : result (odict (list string)) :=
  srid_loop pascode_map pascodes [].

(** The PASCODEs of a list whose senior rater is [srid]. *)
Definition rated_by (pascode_map : gmap string (gmap string string))
    (srid : string) (pascodes : list string) : list string :=
  filter (fun p => srid_of pascode_map p = Ok srid) pascodes.

(** The distinct elements of a list, in the order of their first
    occurrence. *)
Fixpoint distinct (l : list string) : list string :=
  match l with
  | [] => []
  | x :: l' => x :: filter (fun y => y <> x) (distinct l')
  end.

(** What the loop keeps true of the map built from the PASCODEs [seen]. *)
Definition grouped (pascode_map : gmap string (gmap string string))
    (seen : list string) (d : odict (list string)) : Prop :=
  exists srids,
    Forall2 (fun p srid => srid_of pascode_map p = Ok srid) seen srids
    /\ d.*1 = distinct srids
    /\ forall srid l, (srid, l) ∈ d -> l = rated_by pascode_map srid seen.

Definition sample_pascode_map : gmap string (gmap string string) :=
  {[ "A1" := {[ "srid" := "R1" ]};
     "B2" := {[ "srid" := "R2" ]};
     "C3" := {[ "srid" := "R1" ]} ]}.

End submit.

(** ** merge_pdfs and the temporary files *)

Module merge.

Section merge_pdfs.

(** Whether [merger.append(pdf_path)] returns for a file, whether
    [merger.write] and the building of the response return for the files
    appended, and whether [os.remove(path)] returns. *)
Variable append_ok : string -> bool.
Variable write_ok : list string -> bool.
Variable remove_ok : string -> bool.

(** [pdf_path and os.path.exists(pdf_path)] on the files [fs] of the disk. *)
Definition present (fs : gset string) (path : string) : bool :=
  negb (String.eqb path "") && bool_decide (path ∈ fs).

(** The files appended to the merger, in order. *)
Fixpoint appended (fs : gset string) (temp_pdfs : list string) : list string :=
  match temp_pdfs with
  | [] => []
  | pdf_path :: rest =>
    if present fs pdf_path then
      if append_ok pdf_path then pdf_path :: appended fs rest
      else appended fs rest
    else appended fs rest
  end.

(** The [finally] clause: the disk after the clean-up loop. *)
Fixpoint clean_up (fs : gset string) (temp_pdfs : list string) : gset string :=
  match temp_pdfs with
  | [] => fs
  | path :: rest =>
    if present fs path then
      if remove_ok path then clean_up (fs ∖ {[ path ]}) rest
      else clean_up fs rest
    else clean_up fs rest
  end.

(** [merge_pdfs]: the files of the response, [None] for [return None],
    and the disk afterwards. *)
Definition merge_pdfs (fs : gset string) (temp_pdfs : list string)
    : option (list string) * gset string :=
  match temp_pdfs with
  | [] => (None, fs)
  | _ =>
    let files := appended fs temp_pdfs in
    (if write_ok files then Some files else None, clean_up fs temp_pdfs)
  end.

End merge_pdfs.

End merge.

(** ** The flowables of a unit's document and the page footer *)

Module roster_document.
Import initial_mel_generator.

(** The [table_data] that [create_ineligible_table] hands to the table
    renderer. *)
Definition create_ineligible_table (data : list (list string))
    (header : list string) (table_type : string) (count : option nat)
    : list (list string) :=
  let table_data := header :: data in
  match count with
  | Some n =>
    if negb (String.eqb table_type "") then
      [ table_type; ""; ""; ""; ""; "Total: " +:+ str_int (Z.of_nat n) ]
      :: table_data
    else table_data
  | None => table_data
  end.

(** [repeat_rows] of both table builders. *)
Definition repeat_rows (table_type : string) (count : option nat) : nat :=
  match count with
  | Some _ => if negb (String.eqb table_type "") then 2%nat else 1%nat
  | None => 1%nat
  end.

Inductive flowable : Type :=
  | Table (table_data : list (list string)) (repeatRows : nat)
  | PageBreak.

(** [elements] of [generate_pascode_pdf] when [doc.build] is called. *)
Definition pascode_elements (job : pascode_job) : list flowable :=
  let elements := [] in
  let elements :=
    match eligible_data job with
    | [] => elements
    | _ =>
      elements
      ++ [ Table (create_table (eligible_data job)
                    constants.INITIAL_MEL_HEADER_ROW "ELIGIBLE"
                    (Some (length (eligible_data job))))
                 (repeat_rows "ELIGIBLE" (Some (length (eligible_data job))));
           PageBreak ]
    end in
  let elements :=
    match ineligible_data job with
    | [] => elements
    | _ =>
      elements
      ++ [ Table (create_ineligible_table (ineligible_data job)
                    constants.INITIAL_MEL_INELIGIBLE_HEADER_ROW "INELIGIBLE"
                    (Some (length (ineligible_data job))))
                 (repeat_rows "INELIGIBLE" (Some (length (ineligible_data job))));
           PageBreak ]
    end in
  match btz_data job with
  | [] => elements
  | _ =>
    elements
    ++ [ Table (create_table (btz_data job)
                  constants.INITIAL_MEL_HEADER_ROW "BELOW THE ZONE"
                  (Some (length (btz_data job))))
               (repeat_rows "BELOW THE ZONE" (Some (length (btz_data job))));
         PageBreak ]
  end.

(** [identifier_text] of [add_bottom_footer]. *)
Definition identifier_text (melYear : Z) (cycle : string) : string :=
  str_last 2 (str_int (melYear + 1))
  +:+ default "XX" (constants.PROMOTION_MAP !! cycle)
  +:+ " - Initial MEL".

(** [available_columns] of [generate_roster_pdf]. *)
Definition available_columns (s : session) : list string :=
  List.filter (fun col => bool_decide (col ∈ pandas.columns (ineligible_df s)))
    ineligible_columns.

(** An ineligible frame without the [GRADE] column. *)
Definition sample_ineligible_session : session :=
  {| eligible_df := pandas.mk_df [] [];
     ineligible_df :=
       pandas.mk_df [ "FULL_NAME"; "ASSIGNED_PAS"; "DAFSC"; "REASON" ]
         [ [ "DOE, JANE"; "A1"; "3F071"; "UIF" ] ];
     btz_df := pandas.mk_df [] [];
     small_unit_df := pandas.mk_df [] [];
     cycle := "SSG";
     melYear := 2025;
     pascode_map := {[ "A1" := ∅ ]} |}.

End roster_document.

(** ** A session whose frames come from an upload *)

Module report_sample.
Import initial_mel_generator.

(** The report frame stored at the upload of [sample_roster]. *)
Definition sample_pdf_frame : pandas.DataFrame :=
  match main.upload_frames sample_roster with
  | Ok (_, pdf_df) => pdf_df
  | Raise _ => pandas.mk_df [] []
  end.

(** A session with that frame as its eligible rows and one ineligible
    row, stored with the reason first. *)
Definition sample_report_session : session :=
  {| eligible_df := sample_pdf_frame;
     ineligible_df :=
       pandas.mk_df
         [ "REASON"; "FULL_NAME"; "GRADE"; "ASSIGNED_PAS"; "DAFSC";
           "ASSIGNED_PAS_CLEARTEXT" ]
         [ [ "UIF"; "ROE, RICK"; "SSG"; "OS1MFDB3"; "3F071"; "51 FSS" ] ];
     btz_df := pandas.mk_df [] [];
     small_unit_df := pandas.mk_df [] [];
     cycle := "SSG";
     melYear := 2025;
     pascode_map := {[ "OS1MFDB3" := ∅ ]} |}.

End report_sample.

(** * Verification *)

(** ** The calendar arithmetic of [datetime] *)

Module calendar_facts.
Import pydatetime calendar.

Lemma days_before_year_split (a b c e : Z) :
  0 <= b <= 3 -> 0 <= c <= 24 -> 0 <= e <= 3 ->
  _days_before_year (400 * a + 100 * b + 4 * c + e + 1)
  = 146097 * a + 36524 * b + 1461 * c + 365 * e.
Proof.
  intros Hb Hc He. unfold _days_before_year.
  replace (400 * a + 100 * b + 4 * c + e + 1 - 1)
    with (400 * a + 100 * b + 4 * c + e) by lia.
  Z.div_mod_to_equations. lia.
Qed.

Lemma is_leap_split (a b c e : Z) :
  0 <= b <= 3 -> 0 <= c <= 24 -> 0 <= e <= 3 ->
  _is_leap (400 * a + 100 * b + 4 * c + e + 1)
  = (e =? 3) && (negb (c =? 24) || (b =? 3)).
Proof.
  intros Hb Hc He. unfold _is_leap.
  destruct (e =? 3) eqn:E3, (c =? 24) eqn:C24, (b =? 3) eqn:B3; simpl;
    rewrite ?andb_true_iff, ?andb_false_iff, ?orb_true_iff, ?orb_false_iff,
      ?negb_true_iff, ?negb_false_iff, ?Z.eqb_eq, ?Z.eqb_neq in *;
    Z.div_mod_to_equations; lia.
Qed.

Lemma year_split (y : Z) :
  exists a b c e, y = 400 * a + 100 * b + 4 * c + e + 1
                  /\ 0 <= b <= 3 /\ 0 <= c <= 24 /\ 0 <= e <= 3.
Proof.
  exists ((y - 1) / 400), ((y - 1) mod 400 / 100),
    ((y - 1) mod 100 / 4), ((y - 1) mod 4).
  Z.div_mod_to_equations. lia.
Qed.

Lemma div_mod_at (d q r : Z) :
  0 <= r < d -> (d * q + r) / d = q /\ (d * q + r) mod d = r.
Proof.
  intros Hr. split.
  - rewrite (Z.mul_comm d q), Z.div_add_l, Z.div_small by lia. lia.
  - rewrite Z.add_comm, (Z.mul_comm d q), Z.mod_add by lia.
    apply Z.mod_small; lia.
Qed.

Lemma ord2ymd_split (a b c e n : Z) :
  0 <= b <= 3 -> 0 <= c <= 24 -> 0 <= e <= 3 ->
  0 <= n < 365 + (if (e =? 3) && (negb (c =? 24) || (b =? 3)) then 1 else 0) ->
  _ord2ymd (146097 * a + 36524 * b + 1461 * c + 365 * e + n + 1)
  = let '(m, d) := month_day ((e =? 3) && (negb (c =? 24) || (b =? 3))) n in
    (400 * a + 100 * b + 4 * c + e + 1, m, d).
Proof.
  intros Hb Hc He Hn.
  unfold _ord2ymd, _DI400Y, _DI100Y, _DI4Y. cbv zeta.
  replace (146097 * a + 36524 * b + 1461 * c + 365 * e + n + 1 - 1)
    with (146097 * a + (36524 * b + 1461 * c + 365 * e + n)) by lia.
  destruct (Z_le_gt_dec n 364) as [Hsmall | Hlast].
  - destruct (div_mod_at 146097 a (36524 * b + 1461 * c + 365 * e + n))
      as [-> ->]; [lia|].
    replace (36524 * b + 1461 * c + 365 * e + n)
      with (36524 * b + (1461 * c + 365 * e + n)) by lia.
    destruct (div_mod_at 36524 b (1461 * c + 365 * e + n)) as [-> ->]; [lia|].
    replace (1461 * c + 365 * e + n) with (1461 * c + (365 * e + n)) by lia.
    destruct (div_mod_at 1461 c (365 * e + n)) as [-> ->]; [lia|].
    destruct (div_mod_at 365 e n) as [-> ->]; [lia|].
    replace (e =? 4) with false by (symmetry; apply Z.eqb_neq; lia).
    replace (b =? 4) with false by (symmetry; apply Z.eqb_neq; lia).
    simpl orb. cbv iota. unfold month_day. cbv zeta.
    destruct (n <? _); f_equal; f_equal; lia.
  - destruct ((e =? 3) && (negb (c =? 24) || (b =? 3))) eqn:Hleap; [|lia].
    apply andb_true_iff in Hleap as [He3 Hcb]. apply Z.eqb_eq in He3.
    assert (n = 365) as -> by lia. subst e.
    replace (month_day true 365) with (12, 31) by (vm_compute; reflexivity).
    destruct (Z.eq_dec c 24) as [-> | Hc24].
    + rewrite Z.eqb_refl in Hcb. simpl in Hcb. apply Z.eqb_eq in Hcb. subst b.
      replace (146097 * a + (36524 * 3 + 1461 * 24 + 365 * 3 + 365))
        with (146097 * a + 146096) by lia.
      destruct (div_mod_at 146097 a 146096) as [-> ->]; [lia|].
      vm_compute (146096 / 36524). vm_compute (146096 mod 36524).
      vm_compute (0 / 1461). vm_compute (0 mod 1461).
      vm_compute (0 / 365). vm_compute (0 mod 365).
      simpl. f_equal. f_equal. lia.
    + destruct (div_mod_at 146097 a (36524 * b + 1461 * c + 365 * 3 + 365))
        as [-> ->]; [lia|].
      replace (36524 * b + 1461 * c + 365 * 3 + 365)
        with (36524 * b + (1461 * c + 1460)) by lia.
      destruct (div_mod_at 36524 b (1461 * c + 1460)) as [-> ->]; [lia|].
      destruct (div_mod_at 1461 c 1460) as [-> ->]; [lia|].
      vm_compute (1460 / 365). vm_compute (1460 mod 365).
      simpl. f_equal. f_equal. lia.
Qed.

Lemma month_day_table :
  Forall (fun leap : bool =>
    Forall (fun m : Z =>
      Forall (fun d : Z =>
        d <= _DAYS_IN_MONTH m + (if (m =? 2) && leap then 1 else 0) ->
        month_day leap
          (_DAYS_BEFORE_MONTH m + (if (2 <? m) && leap then 1 else 0) + d - 1)
        = (m, d)) (seqZ 1 31)) (seqZ 1 12)) [true; false].
Proof. refine (bool_decide_unpack _ _). vm_compute. exact I. Qed.

Lemma month_day_spec (leap : bool) (m d : Z) :
  1 <= m <= 12 ->
  1 <= d <= _DAYS_IN_MONTH m + (if (m =? 2) && leap then 1 else 0) ->
  month_day leap
    (_DAYS_BEFORE_MONTH m + (if (2 <? m) && leap then 1 else 0) + d - 1)
  = (m, d).
Proof.
  intros Hm Hd.
  assert (Hleap : leap ∈ [true; false]) by (destruct leap; repeat constructor).
  assert (Hdmax : d <= 31).
  { unfold _DAYS_IN_MONTH in Hd. destruct (m =? 2); simpl in Hd.
    - destruct leap; lia.
    - destruct (_ || _); lia. }
  pose proof month_day_table as T.
  rewrite Forall_forall in T. specialize (T leap Hleap).
  rewrite Forall_forall in T.
  assert (Hm' : m ∈ seqZ 1 12) by (apply elem_of_seqZ; lia).
  specialize (T m Hm'). rewrite Forall_forall in T.
  assert (Hd' : d ∈ seqZ 1 31) by (apply elem_of_seqZ; lia).
  apply (T d Hd'). lia.
Qed.

Lemma days_in_month_eq (y m : Z) :
  _days_in_month y m
  = _DAYS_IN_MONTH m + (if (m =? 2) && _is_leap y then 1 else 0).
Proof.
  unfold _days_in_month, _DAYS_IN_MONTH.
  destruct (m =? 2) eqn:E; simpl; [destruct (_is_leap y)|]; lia.
Qed.

Lemma days_before_month_bound (leap : bool) (m d : Z) :
  1 <= m <= 12 ->
  1 <= d <= _DAYS_IN_MONTH m + (if (m =? 2) && leap then 1 else 0) ->
  0 <= _DAYS_BEFORE_MONTH m + (if (2 <? m) && leap then 1 else 0) + d - 1
    < 365 + (if leap then 1 else 0).
Proof.
  intros Hm Hd.
  assert (Hcases : m = 1 \/ m = 2 \/ m = 3 \/ m = 4 \/ m = 5 \/ m = 6 \/ m = 7
                   \/ m = 8 \/ m = 9 \/ m = 10 \/ m = 11 \/ m = 12) by lia.
  unfold _DAYS_IN_MONTH, _DAYS_BEFORE_MONTH in *.
  destruct leap; repeat (destruct Hcases as [-> | Hcases]); try subst m;
    simpl in *; lia.
Qed.

(** [_ord2ymd] inverts [_ymd2ord] on every calendar date. *)
Lemma ord2ymd_ymd2ord (y m d : Z) :
  1 <= m <= 12 -> 1 <= d <= _days_in_month y m ->
  _ord2ymd (_ymd2ord y m d) = (y, m, d).
Proof.
  intros Hm Hd. rewrite days_in_month_eq in Hd.
  destruct (year_split y) as (a & b & c & e & -> & Hb & Hc & He).
  unfold _ymd2ord, _days_before_month.
  rewrite days_before_year_split by assumption.
  rewrite is_leap_split in * by assumption.
  set (leap := (e =? 3) && (negb (c =? 24) || (b =? 3))) in *.
  pose proof (days_before_month_bound leap m d Hm Hd) as Hn.
  pose proof (month_day_spec leap m d Hm Hd) as Hmd.
  set (n := _DAYS_BEFORE_MONTH m + (if (2 <? m) && leap then 1 else 0) + d - 1) in *.
  replace (146097 * a + 36524 * b + 1461 * c + 365 * e
           + (_DAYS_BEFORE_MONTH m + (if (2 <? m) && leap then 1 else 0)) + d)
    with (146097 * a + 36524 * b + 1461 * c + 365 * e + n + 1) by (unfold n; lia).
  rewrite ord2ymd_split by (fold leap; assumption).
  fold leap. rewrite Hmd. reflexivity.
Qed.

(** Ordinals of valid dates lie in [1 .. _MAXORDINAL]. *)
Lemma toordinal_range (y m d : Z) :
  _check_date_fields y m d = true -> 0 < _ymd2ord y m d <= _MAXORDINAL.
Proof.
  unfold _check_date_fields, MINYEAR, MAXYEAR, _MAXORDINAL.
  rewrite !andb_true_iff, !Z.leb_le. intros [[[[[Hy1 Hy2] Hm1] Hm2] Hd1] Hd2].
  rewrite days_in_month_eq in Hd2.
  pose proof (days_before_month_bound (_is_leap y) m d ltac:(lia) ltac:(lia)) as Hn.
  unfold _ymd2ord, _days_before_month, _days_before_year.
  destruct (_is_leap y) eqn:Hleap.
  - assert (y <= 9996).
    { unfold _is_leap in Hleap. apply andb_true_iff in Hleap as [H4 _].
      apply Z.eqb_eq in H4. Z.div_mod_to_equations. lia. }
    Z.div_mod_to_equations. lia.
  - Z.div_mod_to_equations. lia.
Qed.

Lemma add_days_0 (dt : datetime) :
  valid dt = true -> add_days dt 0 = Ok dt.
Proof.
  intros Hv. unfold valid in Hv. apply andb_true_iff in Hv as [Hd _].
  unfold add_days, toordinal. rewrite Z.add_0_r.
  pose proof (toordinal_range _ _ _ Hd) as Hr.
  replace (0 <? _) with true by (symmetry; apply Z.ltb_lt; lia).
  replace (_ <=? _MAXORDINAL) with true by (symmetry; apply Z.leb_le; lia).
  simpl. unfold _check_date_fields in Hd.
  rewrite !andb_true_iff, !Z.leb_le in Hd.
  rewrite ord2ymd_ymd2ord by lia. destruct dt; reflexivity.
Qed.

End calendar_facts.


(** ** Ordering of datetimes and shifts by whole years *)

Module datetime_facts.
Import pydatetime.

Lemma cmp_refl (a : datetime) : _cmp a a = Eq.
Proof. unfold _cmp. rewrite !Z.compare_refl. reflexivity. Qed.

Lemma lt_irrefl (a : datetime) : lt a a = false.
Proof. unfold lt. rewrite cmp_refl. reflexivity. Qed.

Lemma cmp_year_lt (a b : datetime) : year a < year b -> _cmp a b = Lt.
Proof.
  intros H. unfold _cmp. apply Z.compare_lt_iff in H. rewrite H. reflexivity.
Qed.

Lemma new_valid (y m d h mi s us : Z) (r : datetime) :
  new y m d h mi s us = Ok r ->
  r = mk_datetime y m d h mi s us /\ valid r = true.
Proof.
  unfold new. destruct (_ && _) eqn:Hc; [|discriminate].
  intros [= <-]. split; [reflexivity|exact Hc].
Qed.

(** Shifting by whole years only replaces the year and clamps the day. *)
Lemma add_relativedelta_years (dt r : datetime) (ys : Z) :
  add_relativedelta dt ys 0 = Ok r ->
  r = mk_datetime (year dt + ys) (month dt)
        (Z.min (monthrange_ndays (year dt + ys) (month dt)) (day dt))
        (hour dt) (minute dt) (second dt) (microsecond dt)
  /\ valid r = true.
Proof.
  unfold add_relativedelta, replace_date, bind.
  destruct (new _ _ _ _ _ _ _) as [x|e] eqn:Hnew; [|discriminate].
  apply new_valid in Hnew as [-> Hv].
  rewrite (calendar_facts.add_days_0 _ Hv). intros [= <-]. auto.
Qed.

(** A longer shift never gives an earlier date. *)
Lemma add_relativedelta_years_mono (dt r1 r2 : datetime) (y1 y2 : Z) :
  y1 <= y2 ->
  add_relativedelta dt y1 0 = Ok r1 ->
  add_relativedelta dt y2 0 = Ok r2 ->
  le r1 r2 = true.
Proof.
  intros Hle H1 H2.
  apply add_relativedelta_years in H1 as [E1 _].
  apply add_relativedelta_years in H2 as [E2 _].
  unfold le. destruct (Z.eq_dec y1 y2) as [-> | Hne].
  - rewrite E1, <- E2, cmp_refl. reflexivity.
  - rewrite (cmp_year_lt r1 r2); [reflexivity|].
    rewrite E1, E2. simpl. lia.
Qed.

End datetime_facts.

(** ** The higher-tenure tables and the exemption window *)

Module tenure_facts.
Import pydatetime constants.

Lemma main_tenure_grades (g : string) (m : Z) :
  MAIN_HIGHER_TENURE !! g = Some m -> (g, m) ∈ MAIN_HIGHER_TENURE_items.
Proof. apply elem_of_list_to_map_2. Qed.

(** C3. For every grade of the policy tables the exception tenure limit is
    at least the main limit, so the date obtained with the exception limit
    is never before the date obtained with the main limit.  *)
Theorem exception_tenure_extends (g : string) (m : Z) :
  MAIN_HIGHER_TENURE !! g = Some m ->
  exists e : Z,
    EXCEPTION_HIGHER_TENURE !! g = Some e
    /\ m <= e
    /\ forall tafmsd d_main d_exc : datetime,
         hyt_test_exemption.add_tenure_years MAIN_HIGHER_TENURE g tafmsd = Ok d_main ->
         hyt_test_exemption.add_tenure_years EXCEPTION_HIGHER_TENURE g tafmsd = Ok d_exc ->
         le d_main d_exc = true.
Proof.
  intros Hm. pose proof (main_tenure_grades g m Hm) as Hin.
  assert (He : exists e, EXCEPTION_HIGHER_TENURE !! g = Some e /\ m <= e).
  { unfold MAIN_HIGHER_TENURE_items in Hin.
    repeat (apply elem_of_cons in Hin as [[= -> ->] | Hin];
            [eexists; split; [vm_compute; reflexivity | lia] | ]).
    apply elem_of_nil in Hin. contradiction. }
  destruct He as (e & He & Hle). exists e. repeat split; try assumption.
  intros tafmsd d_main d_exc. unfold hyt_test_exemption.add_tenure_years.
  rewrite Hm, He. apply datetime_facts.add_relativedelta_years_mono, Hle.
Qed.

Lemma exception_tenure_extends_witness :
  MAIN_HIGHER_TENURE !! "SSG" = Some 20
  /\ exists e : Z,
       EXCEPTION_HIGHER_TENURE !! "SSG" = Some e
       /\ 20 <= e
       /\ le (mk_datetime 2024 6 15 0 0 0 0) (mk_datetime 2026 6 15 0 0 0 0)
          = true.
Proof.
  assert (H : MAIN_HIGHER_TENURE !! "SSG" = Some 20) by (vm_compute; reflexivity).
  split; [exact H|].
  destruct (exception_tenure_extends "SSG" 20 H) as (e & He & Hle & Hmono).
  exists e. split; [exact He|]. split; [exact Hle|].
  apply (Hmono (mk_datetime 2004 6 15 0 0 0 0)); vm_compute; reflexivity.
Defined.

Lemma create_test_member_expected (name grade description : string) (year : Z)
    (tafmsd dor : datetime) (mem : hyt_test_exemption.member) :
  hyt_test_exemption.create_test_member name grade year tafmsd dor description
    = Ok mem ->
  hyt_test_exemption.add_tenure_years MAIN_HIGHER_TENURE grade tafmsd
    = Ok (hyt_test_exemption.expected_hyt_date mem).
Proof.
  unfold hyt_test_exemption.create_test_member, bind.
  destruct (hyt_test_exemption.add_tenure_years MAIN_HIGHER_TENURE _ _);
    [|discriminate].
  destruct (hyt_test_exemption.add_tenure_years EXCEPTION_HIGHER_TENURE _ _);
    [|discriminate].
  intros [= <-]. reflexivity.
Qed.

Lemma standard_hyt_date_test (grade : string) (tafmsd sd : datetime) :
  board_filter.standard_hyt_date grade tafmsd = Ok sd ->
  hyt_test_exemption.add_tenure_years MAIN_HIGHER_TENURE grade tafmsd = Ok sd.
Proof.
  unfold board_filter.standard_hyt_date, hyt_test_exemption.add_tenure_years.
  destruct (MAIN_HIGHER_TENURE !! grade); [auto|discriminate].
Qed.

(** The order of calendar dates, field by field. *)
Lemma date_lt_iff (a b : datetime) :
  lt (board_filter.date a) (board_filter.date b) = true
  <-> year a < year b
      \/ (year a = year b
          /\ (month a < month b \/ (month a = month b /\ day a < day b))).
Proof.
  unfold lt, _cmp, board_filter.date. cbn [year month day hour minute second microsecond].
  destruct (Z.compare_spec (year a) (year b)) as [Hy | Hy | Hy].
  - destruct (Z.compare_spec (month a) (month b)) as [Hm | Hm | Hm].
    + destruct (Z.compare_spec (day a) (day b)) as [Hd | Hd | Hd];
        cbn; split; intros H; try discriminate; try reflexivity; try lia.
    + split; [intros _; lia|reflexivity].
    + split; [discriminate|lia].
  - split; [intros _; lia|reflexivity].
  - split; [discriminate|lia].
Qed.

Lemma date_midnight (d : datetime) :
  hour d = 0 -> minute d = 0 -> second d = 0 -> microsecond d = 0 ->
  board_filter.date d = d.
Proof.
  destruct d as [y m dd h mi s us]. unfold board_filter.date.
  cbn [year month day hour minute second microsecond].
  intros -> -> -> ->. reflexivity.
Qed.

Lemma in_exception_window_iff (d : datetime) :
  board_filter.in_exception_window d = true
  <-> (2023 < year d
       \/ (year d = 2023 /\ (12 < month d \/ (month d = 12 /\ 8 < day d))))
      /\ (year d < 2026
          \/ (year d = 2026 /\ (month d < 9 \/ (month d = 9 /\ day d < 30)))).
Proof.
  unfold board_filter.in_exception_window.
  rewrite andb_true_iff, !date_lt_iff.
  unfold EXCEPTION_HYT_START_DATE, EXCEPTION_HYT_END_DATE.
  cbn [year month day]. intuition lia.
Qed.

Lemma exception_tenure_defined (g : string) (m : Z) :
  MAIN_HIGHER_TENURE !! g = Some m -> is_Some (EXCEPTION_HIGHER_TENURE !! g).
Proof.
  intros Hm. pose proof (main_tenure_grades g m Hm) as Hin.
  unfold MAIN_HIGHER_TENURE_items in Hin.
  repeat (apply elem_of_cons in Hin as [[= -> ->] | Hin];
          [eexists; vm_compute; reflexivity | ]).
  apply elem_of_nil in Hin. contradiction.
Qed.

Lemma hyt_limit_applied_eq (grade : string) (tafmsd sd : datetime) :
  board_filter.standard_hyt_date grade tafmsd = Ok sd ->
  board_filter.hyt_limit_applied grade tafmsd
  = Ok (if board_filter.in_exception_window sd
        then board_filter.ExceptionLimit else board_filter.MainLimit).
Proof.
  intros Hsd. unfold board_filter.hyt_limit_applied, bind. rewrite Hsd.
  reflexivity.
Qed.

(** C1. The exemption window is open at both ends, on calendar dates: the
    standard higher-tenure date of a member is the service date moved by
    the main limit of the grade, and the exception limit is the one
    applied exactly when that date falls after 8 December 2023 and before
    30 September 2026; a standard date on either of these two days keeps
    the main limit, whatever its time of day. Then the date used is the
    service date moved by the exception limit, otherwise the standard
    date. For a standard date at midnight the window test of
    [hyt_test_exemption.py], which compares date-times, decides the same
    condition. *)
Theorem hyt_exemption_window_open (grade : string) (tafmsd sd : datetime) :
  board_filter.standard_hyt_date grade tafmsd = Ok sd ->
  (exists m : Z,
     MAIN_HIGHER_TENURE !! grade = Some m
     /\ year sd = year tafmsd + m /\ month sd = month tafmsd
     /\ day sd = Z.min (monthrange_ndays (year tafmsd + m) (month tafmsd))
                   (day tafmsd))
  /\ (board_filter.hyt_limit_applied grade tafmsd = Ok board_filter.ExceptionLimit
      <-> (2023 < year sd
           \/ (year sd = 2023 /\ (12 < month sd \/ (month sd = 12 /\ 8 < day sd))))
          /\ (year sd < 2026
              \/ (year sd = 2026
                  /\ (month sd < 9 \/ (month sd = 9 /\ day sd < 30)))))
  /\ (board_filter.hyt_limit_applied grade tafmsd <> Ok board_filter.ExceptionLimit
      -> board_filter.hyt_limit_applied grade tafmsd = Ok board_filter.MainLimit)
  /\ (year sd = 2023 -> month sd = 12 -> day sd = 8 ->
      board_filter.hyt_limit_applied grade tafmsd = Ok board_filter.MainLimit)
  /\ (year sd = 2026 -> month sd = 9 -> day sd = 30 ->
      board_filter.hyt_limit_applied grade tafmsd = Ok board_filter.MainLimit)
  /\ (board_filter.hyt_limit_applied grade tafmsd = Ok board_filter.ExceptionLimit ->
      board_filter.effective_hyt_date grade tafmsd
      = hyt_test_exemption.add_tenure_years EXCEPTION_HIGHER_TENURE grade tafmsd)
  /\ (board_filter.hyt_limit_applied grade tafmsd = Ok board_filter.MainLimit ->
      board_filter.effective_hyt_date grade tafmsd = Ok sd)
  /\ (forall (name description : string) (year : Z) (dor : datetime)
             (mem : hyt_test_exemption.member),
        hyt_test_exemption.create_test_member name grade year tafmsd dor description
          = Ok mem ->
        hyt_test_exemption.expected_hyt_date mem = sd
        /\ (hour sd = 0 -> minute sd = 0 -> second sd = 0 -> microsecond sd = 0 ->
            (hyt_test_exemption.main_hyt_in_exemption mem = true
             <-> board_filter.hyt_limit_applied grade tafmsd
                 = Ok board_filter.ExceptionLimit))).
Proof.
  intros Hsd.
  pose proof (hyt_limit_applied_eq grade tafmsd sd Hsd) as Happlied.
  pose proof (in_exception_window_iff sd) as Hwin.
  assert (Hexc : board_filter.hyt_limit_applied grade tafmsd
                 = Ok board_filter.ExceptionLimit
                 <-> board_filter.in_exception_window sd = true).
  { rewrite Happlied. destruct (board_filter.in_exception_window sd);
      split; congruence. }
  assert (Hmain : board_filter.hyt_limit_applied grade tafmsd
                  = Ok board_filter.MainLimit
                  <-> board_filter.in_exception_window sd = false).
  { rewrite Happlied. destruct (board_filter.in_exception_window sd);
      split; congruence. }
  assert (Hout : forall P : Prop,
            (P -> ~ ((2023 < year sd
                      \/ (year sd = 2023
                          /\ (12 < month sd \/ (month sd = 12 /\ 8 < day sd))))
                     /\ (year sd < 2026
                         \/ (year sd = 2026
                             /\ (month sd < 9 \/ (month sd = 9 /\ day sd < 30)))))) ->
            P -> board_filter.hyt_limit_applied grade tafmsd
                 = Ok board_filter.MainLimit).
  { intros P HP HPp. apply Hmain.
    destruct (board_filter.in_exception_window sd) eqn:E; [|reflexivity].
    exfalso. apply (HP HPp). apply Hwin. reflexivity. }
  split; [|split; [|split; [|split; [|split; [|split; [|split]]]]]].
  - unfold board_filter.standard_hyt_date in Hsd.
    destruct (MAIN_HIGHER_TENURE !! grade) as [m|] eqn:Hm; [|discriminate].
    apply datetime_facts.add_relativedelta_years in Hsd as [-> _].
    exists m. cbn [year month day]. auto.
  - rewrite Hexc. exact Hwin.
  - intros Hne. apply Hmain.
    destruct (board_filter.in_exception_window sd) eqn:E; [|reflexivity].
    exfalso. apply Hne, Hexc. reflexivity.
  - intros Hy Hmo Hd.
    apply (Hout (year sd = 2023 /\ month sd = 12 /\ day sd = 8)); [lia|auto].
  - intros Hy Hmo Hd.
    apply (Hout (year sd = 2026 /\ month sd = 9 /\ day sd = 30)); [lia|auto].
  - intros He. apply Hexc in He.
    unfold board_filter.effective_hyt_date, bind. rewrite Hsd, He.
    unfold hyt_test_exemption.add_tenure_years.
    destruct (EXCEPTION_HIGHER_TENURE !! grade) as [e|] eqn:Ee; [reflexivity|].
    exfalso. unfold board_filter.standard_hyt_date in Hsd.
    destruct (MAIN_HIGHER_TENURE !! grade) as [m|] eqn:Hm; [|discriminate].
    destruct (exception_tenure_defined grade m Hm) as [e He']. congruence.
  - intros Hm'. apply Hmain in Hm'.
    unfold board_filter.effective_hyt_date, bind. rewrite Hsd, Hm'. reflexivity.
  - intros name description year dor mem Hmem.
    apply create_test_member_expected in Hmem.
    rewrite (standard_hyt_date_test _ _ _ Hsd) in Hmem.
    injection Hmem as Hexp.
    split; [congruence|].
    intros Hh Hmi Hs Hus. rewrite Hexc.
    unfold hyt_test_exemption.main_hyt_in_exemption,
      board_filter.in_exception_window.
    rewrite <- Hexp, (date_midnight sd Hh Hmi Hs Hus).
    rewrite !date_midnight by reflexivity. reflexivity.
Qed.

Lemma hyt_exemption_window_open_witness :
  (board_filter.standard_hyt_date "SSG" (mk_datetime 2003 12 8 13 30 0 0)
     = Ok (mk_datetime 2023 12 8 13 30 0 0)
   /\ board_filter.hyt_limit_applied "SSG" (mk_datetime 2003 12 8 13 30 0 0)
      = Ok board_filter.MainLimit)
  /\ (board_filter.standard_hyt_date "SSG" (mk_datetime 2006 9 30 0 0 0 0)
        = Ok (mk_datetime 2026 9 30 0 0 0 0)
      /\ board_filter.hyt_limit_applied "SSG" (mk_datetime 2006 9 30 0 0 0 0)
         = Ok board_filter.MainLimit)
  /\ (board_filter.standard_hyt_date "SSG" (mk_datetime 2003 12 9 0 0 0 0)
        = Ok (mk_datetime 2023 12 9 0 0 0 0)
      /\ board_filter.hyt_limit_applied "SSG" (mk_datetime 2003 12 9 0 0 0 0)
         = Ok board_filter.ExceptionLimit)
  /\ (board_filter.standard_hyt_date "SSG" (mk_datetime 2006 9 29 23 59 59 0)
        = Ok (mk_datetime 2026 9 29 23 59 59 0)
      /\ board_filter.hyt_limit_applied "SSG" (mk_datetime 2006 9 29 23 59 59 0)
         = Ok board_filter.ExceptionLimit).
Proof.
  assert (H1 : board_filter.standard_hyt_date "SSG" (mk_datetime 2003 12 8 13 30 0 0)
               = Ok (mk_datetime 2023 12 8 13 30 0 0)) by (vm_compute; reflexivity).
  assert (H2 : board_filter.standard_hyt_date "SSG" (mk_datetime 2006 9 30 0 0 0 0)
               = Ok (mk_datetime 2026 9 30 0 0 0 0)) by (vm_compute; reflexivity).
  assert (H3 : board_filter.standard_hyt_date "SSG" (mk_datetime 2003 12 9 0 0 0 0)
               = Ok (mk_datetime 2023 12 9 0 0 0 0)) by (vm_compute; reflexivity).
  assert (H4 : board_filter.standard_hyt_date "SSG" (mk_datetime 2006 9 29 23 59 59 0)
               = Ok (mk_datetime 2026 9 29 23 59 59 0)) by (vm_compute; reflexivity).
  split; [split; [exact H1|]|split; [split; [exact H2|]|split; [split; [exact H3|]|split; [exact H4|]]]].
  - destruct (hyt_exemption_window_open _ _ _ H1) as (_ & _ & _ & Hstart & _).
    apply Hstart; reflexivity.
  - destruct (hyt_exemption_window_open _ _ _ H2) as (_ & _ & _ & _ & Hend & _).
    apply Hend; reflexivity.
  - destruct (hyt_exemption_window_open _ _ _ H3) as (_ & Hiff & _).
    apply Hiff. cbn [year month day]. lia.
  - destruct (hyt_exemption_window_open _ _ _ H4) as (_ & Hiff & _).
    apply Hiff. cbn [year month day]. lia.
Defined.

End tenure_facts.

(** ** The accounting date *)

Module accounting_facts.
Import pydatetime constants initial_mel_generator.

Lemma strptime_None (rest : string) :
  _strptime.strptime_d_b_Y ("None" +:+ rest) = Raise ValueError.
Proof. reflexivity. Qed.

(** [get_accounting_date] never raises: whatever goes wrong inside is
    turned into the error text. *)
Lemma get_accounting_date_returns (grade : string) (year : Z) :
  exists s : string, get_accounting_date grade year = Ok s.
Proof.
  unfold get_accounting_date, try_except.
  destruct (bind _ _); eauto.
Qed.

(** C9. For a grade that is not a key of SCODS, [get_accounting_date] does
    not raise: it returns the text "Error calculating date". *)
Theorem get_accounting_date_unknown_grade (grade : string) (year : Z) :
  SCODS !! grade = None ->
  get_accounting_date grade year = Ok "Error calculating date".
Proof.
  intros Hnone. unfold get_accounting_date. rewrite Hnone.
  change (fstr_opt None +:+ "-" +:+ str_int year)
    with ("None" +:+ ("-" +:+ str_int year)).
  rewrite strptime_None. reflexivity.
Qed.

Lemma get_accounting_date_unknown_grade_witness :
  SCODS !! "AB" = None
  /\ get_accounting_date "AB" 2024 = Ok "Error calculating date".
Proof.
  assert (H : SCODS !! "AB" = None) by (vm_compute; reflexivity).
  split; [exact H | exact (get_accounting_date_unknown_grade "AB" 2024 H)].
Defined.

Lemma str_int_four_digits_table :
  forallb (fun y => four_digits y (str_int y)) (seqZ 1000 9000) = true.
Proof. vm_cast_no_check (eq_refl true). Qed.

Lemma str_int_four_digits (y : Z) :
  1000 <= y <= 9999 -> four_digits y (str_int y) = true.
Proof.
  intros Hy. pose proof str_int_four_digits_table as H.
  rewrite forallb_forall in H. apply H.
  apply list_elem_of_In, elem_of_seqZ. lia.
Qed.

Lemma match_Y_four_digits (y : Z) (s : string) :
  four_digits y s = true -> _strptime.match_Y s = Some (y, "").
Proof.
  destruct s as [|c1 [|c2 [|c3 [|c4 [|c5 s]]]]]; try discriminate.
  simpl. intros H. apply andb_true_iff in H as [H Hy].
  rewrite H. apply Z.eqb_eq in Hy. rewrite Hy. reflexivity.
Qed.

Lemma new_date_ok (y m d : Z) :
  _check_date_fields y m d = true ->
  new y m d 0 0 0 0 = Ok (mk_datetime y m d 0 0 0 0).
Proof. unfold new. intros ->. reflexivity. Qed.

Lemma check_date_fields_31 (y m d : Z) :
  1 <= y <= 9999 -> 1 <= m <= 12 -> 1 <= d <= _DAYS_IN_MONTH m ->
  _check_date_fields y m d = true.
Proof.
  intros Hy Hm Hd. unfold _check_date_fields, MINYEAR, MAXYEAR.
  rewrite calendar_facts.days_in_month_eq.
  rewrite !andb_true_iff, !Z.leb_le.
  destruct ((m =? 2) && _is_leap y); lia.
Qed.

(** Parsing [<dd>-<MON>-<year>] for a four-digit year, when the day is
    30 or 31 and the month is spelled as in SCODS. *)
Lemma strptime_scod (scod : string) (m d y : Z) :
  (scod, (m, d)) ∈ [ ("31-MAR", (3, 31)); ("31-JAN", (1, 31));
                     ("30-NOV", (11, 30)); ("30-SEP", (9, 30));
                     ("31-JUL", (7, 31)) ] ->
  1000 <= y <= 9999 ->
  _strptime.strptime_d_b_Y (scod +:+ "-" +:+ str_int y)
  = Ok (mk_datetime y m d 0 0 0 0).
Proof.
  intros Hin Hy. pose proof (str_int_four_digits y Hy) as H4.
  apply match_Y_four_digits in H4.
  repeat (apply elem_of_cons in Hin as [[= -> -> ->] | Hin];
    [ unfold _strptime.strptime_d_b_Y; simpl;
      unfold _strptime.match_tail; simpl;
      change ("" +:+ str_int y) with (str_int y); rewrite H4;
      match goal with
      | |- _ = Ok (mk_datetime _ ?m ?d _ _ _ _) =>
        change (new y m d 0 0 0 0 = Ok (mk_datetime y m d 0 0 0 0))
      end;
      apply new_date_ok, check_date_fields_31; unfold _DAYS_IN_MONTH; simpl; lia | ]).
  apply elem_of_nil in Hin. contradiction.
Qed.

Lemma days_before_year_succ (y : Z) :
  _days_before_year (y + 1)
  = _days_before_year y + 365 + (if _is_leap y then 1 else 0).
Proof.
  destruct (calendar_facts.year_split y) as (a & b & c & e & -> & Hb & Hc & He).
  rewrite calendar_facts.is_leap_split by assumption.
  rewrite calendar_facts.days_before_year_split by assumption.
  destruct (Z.eq_dec e 3) as [-> | He3].
  - destruct (Z.eq_dec c 24) as [-> | Hc24].
    + destruct (Z.eq_dec b 3) as [-> | Hb3].
      * replace (400 * a + 100 * 3 + 4 * 24 + 3 + 1 + 1)
          with (400 * (a + 1) + 100 * 0 + 4 * 0 + 0 + 1) by lia.
        rewrite calendar_facts.days_before_year_split by lia. simpl. lia.
      * replace (400 * a + 100 * b + 4 * 24 + 3 + 1 + 1)
          with (400 * a + 100 * (b + 1) + 4 * 0 + 0 + 1) by lia.
        rewrite calendar_facts.days_before_year_split by lia.
        replace (b =? 3) with false by (symmetry; apply Z.eqb_neq; lia).
        simpl. lia.
    + replace (400 * a + 100 * b + 4 * c + 3 + 1 + 1)
        with (400 * a + 100 * b + 4 * (c + 1) + 0 + 1) by lia.
      rewrite calendar_facts.days_before_year_split by lia.
      replace (c =? 24) with false by (symmetry; apply Z.eqb_neq; lia).
      simpl. lia.
  - replace (400 * a + 100 * b + 4 * c + e + 1 + 1)
      with (400 * a + 100 * b + 4 * c + (e + 1) + 1) by lia.
    rewrite calendar_facts.days_before_year_split by lia.
    replace (e =? 3) with false by (symmetry; apply Z.eqb_neq; lia).
    simpl. lia.
Qed.

Lemma check_date_fields_inv (y m d : Z) :
  _check_date_fields y m d = true ->
  1 <= y <= 9999 /\ 1 <= m <= 12 /\ 1 <= d <= _days_in_month y m.
Proof.
  unfold _check_date_fields, MINYEAR, MAXYEAR.
  rewrite !andb_true_iff, !Z.leb_le. lia.
Qed.

Lemma days_in_month_ge_28 (y m : Z) : 28 <= _days_in_month y m.
Proof.
  rewrite calendar_facts.days_in_month_eq. unfold _DAYS_IN_MONTH.
  destruct (m =? 2); simpl; [destruct (_is_leap y); lia|].
  destruct (_ || _); lia.
Qed.

Lemma monthrange_ndays_eq (y m : Z) : monthrange_ndays y m = _days_in_month y m.
Proof. unfold monthrange_ndays. symmetry. apply calendar_facts.days_in_month_eq. Qed.

(** Moving a valid midnight date back by [n] days, when the target ordinal
    is the ordinal of a known valid date. *)
Lemma sub_relativedelta_days_to (y m d n y' m' d' : Z) :
  _check_date_fields y m d = true ->
  _check_date_fields y' m' d' = true ->
  _ymd2ord y m d - n = _ymd2ord y' m' d' ->
  sub_relativedelta_days (mk_datetime y m d 0 0 0 0) n
  = Ok (mk_datetime y' m' d' 0 0 0 0).
Proof.
  intros Hv Hv' Hord.
  pose proof (check_date_fields_inv _ _ _ Hv) as (Hy & Hm & Hd).
  pose proof (check_date_fields_inv _ _ _ Hv') as (Hy' & Hm' & Hd').
  unfold sub_relativedelta_days, add_relativedelta, replace_date. simpl.
  rewrite Z.add_0_r, monthrange_ndays_eq, Z.min_r by lia.
  unfold new. rewrite Hv. simpl.
  unfold add_days, toordinal. simpl.
  replace (_ymd2ord y m d + - n) with (_ymd2ord y' m' d') by lia.
  pose proof (calendar_facts.toordinal_range _ _ _ Hv') as Hr.
  replace (0 <? _) with true by (symmetry; apply Z.ltb_lt; lia).
  replace (_ <=? _MAXORDINAL) with true by (symmetry; apply Z.leb_le; lia).
  simpl. rewrite calendar_facts.ord2ymd_ymd2ord by lia. reflexivity.
Qed.

Lemma append_nil_r (s : string) : s +:+ "" = s.
Proof.
  induction s as [|c s IH]; [reflexivity|].
  change (String c (s +:+ "") = String c s). f_equal. exact IH.
Qed.

Lemma strftime_display (dt : datetime) :
  strftime DATE_FORMAT_DISPLAY dt
  = fmt_d (day dt) +:+ " " +:+ month_name (month dt) +:+ " " +:+ fmt_Y (year dt).
Proof.
  change (fmt_d (day dt) +:+ " " +:+ month_name (month dt) +:+ " "
          +:+ (fmt_Y (year dt) +:+ "")
          = fmt_d (day dt) +:+ " " +:+ month_name (month dt) +:+ " "
            +:+ fmt_Y (year dt)).
  rewrite append_nil_r. reflexivity.
Qed.

(** The outcome of [get_accounting_date] once the SCOD and the date 119
    days before it are known. *)
Lemma get_accounting_date_from (g scod : string) (y m d y' m' d' : Z) :
  SCODS !! g = Some scod ->
  _strptime.strptime_d_b_Y (scod +:+ "-" +:+ str_int y)
    = Ok (mk_datetime y m d 0 0 0 0) ->
  sub_relativedelta_days (mk_datetime y m d 0 0 0 0) 119
    = Ok (mk_datetime y' m' d' 0 0 0 0) ->
  _check_date_fields y' m' d' = true ->
  get_accounting_date g y = Ok ("03 " +:+ month_name m' +:+ " " +:+ fmt_Y y').
Proof.
  intros Hg Hparse Hoff Hv'.
  pose proof (check_date_fields_inv _ _ _ Hv') as (Hy' & Hm' & Hd').
  unfold get_accounting_date. rewrite Hg. simpl fstr_opt.
  rewrite Hparse. cbn [bind]. rewrite Hoff. cbn [bind].
  unfold replace_day_hms, new. cbn [year month day microsecond].
  assert (H3 : _check_date_fields y' m' 3 = true).
  { unfold _check_date_fields, MINYEAR, MAXYEAR.
    pose proof (days_in_month_ge_28 y' m').
    rewrite !andb_true_iff, !Z.leb_le. lia. }
  rewrite H3. change (_check_time_fields 23 59 59 0) with true.
  cbn [andb bind]. unfold try_except. rewrite strftime_display. reflexivity.
Qed.

Ltac in_list :=
  repeat first [apply list_elem_of_here | apply list_elem_of_further].

Lemma days_before_year_pred (y : Z) :
  _days_before_year y
  = _days_before_year (y - 1) + 365 + (if _is_leap (y - 1) then 1 else 0).
Proof.
  rewrite <- days_before_year_succ. f_equal. lia.
Qed.

(** The date 119 days before each SCOD. *)
Lemma scod_offset (scod : string) (m d y : Z) :
  (scod, (m, d)) ∈ [ ("31-MAR", (3, 31)); ("31-JAN", (1, 31));
                     ("30-NOV", (11, 30)); ("30-SEP", (9, 30));
                     ("31-JUL", (7, 31)) ] ->
  2 <= y <= 9999 ->
  _check_date_fields y m d = true
  /\ exists y' m' d' : Z,
       _check_date_fields y' m' d' = true
       /\ _ymd2ord y m d - 119 = _ymd2ord y' m' d'
       /\ (y', m', d')
          ∈ [ (y - 1, 12, if _is_leap y then 3 else 2); (y - 1, 10, 4);
              (y, 8, 3); (y, 6, 3); (y, 4, 3) ].
Proof.
  intros Hin Hy.
  assert (Hv : forall y0 m0 d0, 1 <= y0 <= 9999 -> 1 <= m0 <= 12 ->
                 1 <= d0 <= _DAYS_IN_MONTH m0 ->
                 _check_date_fields y0 m0 d0 = true)
    by (intros; apply check_date_fields_31; assumption).
  pose proof (days_before_year_pred y) as Hpred.
  repeat (apply elem_of_cons in Hin as [[= -> -> ->] | Hin]).
  - split; [apply Hv; unfold _DAYS_IN_MONTH; simpl; lia|].
    exists (y - 1), 12, (if _is_leap y then 3 else 2).
    split; [|split; [|in_list]].
    + apply Hv; unfold _DAYS_IN_MONTH; simpl; destruct (_is_leap y); lia.
    + unfold _ymd2ord, _days_before_month, _DAYS_BEFORE_MONTH. simpl.
      rewrite Hpred.
      destruct (_is_leap y), (_is_leap (y - 1)); lia.
  - split; [apply Hv; unfold _DAYS_IN_MONTH; simpl; lia|].
    exists (y - 1), 10, 4. split; [|split; [|in_list]].
    + apply Hv; unfold _DAYS_IN_MONTH; simpl; lia.
    + unfold _ymd2ord, _days_before_month, _DAYS_BEFORE_MONTH. simpl.
      rewrite Hpred. destruct (_is_leap (y - 1)); lia.
  - split; [apply Hv; unfold _DAYS_IN_MONTH; simpl; lia|].
    exists y, 8, 3. split; [|split; [|in_list]].
    + apply Hv; unfold _DAYS_IN_MONTH; simpl; lia.
    + unfold _ymd2ord, _days_before_month, _DAYS_BEFORE_MONTH. simpl.
      destruct (_is_leap y); lia.
  - split; [apply Hv; unfold _DAYS_IN_MONTH; simpl; lia|].
    exists y, 6, 3. split; [|split; [|in_list]].
    + apply Hv; unfold _DAYS_IN_MONTH; simpl; lia.
    + unfold _ymd2ord, _days_before_month, _DAYS_BEFORE_MONTH. simpl.
      destruct (_is_leap y); lia.
  - split; [apply Hv; unfold _DAYS_IN_MONTH; simpl; lia|].
    exists y, 4, 3. split; [|split; [|in_list]].
    + apply Hv; unfold _DAYS_IN_MONTH; simpl; lia.
    + unfold _ymd2ord, _days_before_month, _DAYS_BEFORE_MONTH. simpl.
      destruct (_is_leap y); lia.
  - apply elem_of_nil in Hin. contradiction.
Qed.

Lemma SCODS_entry (g scod : string) :
  SCODS !! g = Some scod ->
  exists m d : Z,
    (scod, (m, d)) ∈ [ ("31-MAR", (3, 31)); ("31-JAN", (1, 31));
                       ("30-NOV", (11, 30)); ("30-SEP", (9, 30));
                       ("31-JUL", (7, 31)) ].
Proof.
  intros H. apply elem_of_list_to_map_2 in H.
  repeat (apply elem_of_cons in H as [[= -> ->] | H];
          [eexists _, _; in_list|]).
  apply elem_of_nil in H. contradiction.
Qed.

Lemma day_two_digits_differ (d : Z) (rest1 rest2 : string) :
  1 <= d <= 31 -> d <> 3 -> "03" +:+ rest1 <> fmt_d d +:+ rest2.
Proof.
  intros Hd Hne.
  assert (Hc : d ∈ seqZ 1 31) by (apply elem_of_seqZ; lia).
  unfold seqZ in Hc. simpl in Hc.
  repeat (apply elem_of_cons in Hc as [-> | Hc];
          [first [contradiction | vm_compute; discriminate]|]).
  apply elem_of_nil in Hc. contradiction.
Qed.

(** C8, as amended. For a grade of SCODS and a four-digit year, the SCOD
    of that year parses, the date 119 days earlier exists, and
    [get_accounting_date] returns day "03" followed by the month name and
    the year of that earlier date; the day of the earlier date shows in the
    output only when it is 3 itself. *)
Theorem get_accounting_date_day_three (g scod : string) (y : Z) :
  SCODS !! g = Some scod ->
  1000 <= y <= 9999 ->
  exists scod_date offset : datetime,
    _strptime.strptime_d_b_Y (scod +:+ "-" +:+ str_int y) = Ok scod_date
    /\ sub_relativedelta_days scod_date 119 = Ok offset
    /\ get_accounting_date g y
       = Ok ("03 " +:+ month_name (month offset) +:+ " " +:+ fmt_Y (year offset))
    /\ (day offset = 3
        \/ get_accounting_date g y <> Ok (strftime DATE_FORMAT_DISPLAY offset)).
Proof.
  intros Hg Hy.
  destruct (SCODS_entry g scod Hg) as (m & d & Hin).
  pose proof (strptime_scod scod m d y Hin Hy) as Hparse.
  destruct (scod_offset scod m d y Hin ltac:(lia))
    as (Hv & y' & m' & d' & Hv' & Hord & _).
  pose proof (sub_relativedelta_days_to y m d 119 y' m' d' Hv Hv' Hord) as Hoff.
  pose proof (get_accounting_date_from g scod y m d y' m' d' Hg Hparse Hoff Hv')
    as Hout.
  exists (mk_datetime y m d 0 0 0 0), (mk_datetime y' m' d' 0 0 0 0).
  split; [exact Hparse|]. split; [exact Hoff|]. split; [exact Hout|].
  cbn [day]. destruct (Z.eq_dec d' 3) as [-> | Hne]; [left; reflexivity|right].
  rewrite Hout, strftime_display. cbn [year month day].
  intros [= Heq]. revert Heq.
  apply (day_two_digits_differ d'
           (" " +:+ month_name m' +:+ " " +:+ fmt_Y y')
           (" " +:+ month_name m' +:+ " " +:+ fmt_Y y')); [|assumption].
  pose proof (check_date_fields_inv _ _ _ Hv') as (_ & _ & Hd').
  rewrite calendar_facts.days_in_month_eq in Hd'. unfold _DAYS_IN_MONTH in Hd'.
  destruct (m' =? 2); simpl in Hd'.
  - destruct (_is_leap y'); lia.
  - destruct (_ || _); lia.
Qed.

Lemma get_accounting_date_day_three_witness :
  SCODS !! "SSG" = Some "31-JAN"
  /\ 1000 <= 2025 <= 9999
  /\ exists scod_date offset : datetime,
       _strptime.strptime_d_b_Y ("31-JAN" +:+ "-" +:+ str_int 2025) = Ok scod_date
       /\ sub_relativedelta_days scod_date 119 = Ok offset
       /\ get_accounting_date "SSG" 2025
          = Ok ("03 " +:+ month_name (month offset) +:+ " " +:+ fmt_Y (year offset))
       /\ (day offset = 3
           \/ get_accounting_date "SSG" 2025 <> Ok (strftime DATE_FORMAT_DISPLAY offset)).
Proof.
  assert (H : SCODS !! "SSG" = Some "31-JAN") by (vm_compute; reflexivity).
  split; [exact H|]. split; [lia|].
  apply (get_accounting_date_day_three "SSG" "31-JAN" 2025 H). lia.
Defined.

(** C8 as stated fails: a year of fewer than four digits does not parse, so
    the error text is returned instead of a date; and for TSG the date 119
    days before the SCOD is itself the 3rd, so its day does appear. *)
Lemma get_accounting_date_not_every_year :
  SCODS !! "SRA" = Some "31-MAR"
  /\ get_accounting_date "SRA" 999 = Ok "Error calculating date"
  /\ sub_relativedelta_days (mk_datetime 2024 11 30 0 0 0 0) 119
     = Ok (mk_datetime 2024 8 3 0 0 0 0)
  /\ get_accounting_date "TSG" 2024
     = Ok (strftime DATE_FORMAT_DISPLAY (mk_datetime 2024 8 3 0 0 0 0)).
Proof. repeat split; vm_compute; reflexivity. Qed.

Example accounting_date_samples :
  get_accounting_date "SRA" 2024 = Ok "03 December 2023"
  /\ get_accounting_date "SSG" 2025 = Ok "03 October 2024"
  /\ get_accounting_date "TSG" 2025 = Ok "03 August 2025"
  /\ get_accounting_date "MSG" 2025 = Ok "03 June 2025"
  /\ get_accounting_date "SMS" 2025 = Ok "03 April 2025"
  /\ get_accounting_date "SRA" 10000 = Ok "Error calculating date"
  /\ get_accounting_date "CMS" 2025 = Ok "Error calculating date".
Proof. repeat split; vm_compute; reflexivity. Qed.

End accounting_facts.

(** ** The per-unit PDFs of the initial MEL *)

Module roster_pdf_facts.
Import initial_mel_generator.

Lemma collect_spec (i : nat) (data : list (list string)) (acc : gset string) (p : string) :
  p ∈ collect i data acc <-> p ∈ acc \/ exists row, row ∈ data /\ row !! i = Some p.
Proof.
  unfold collect. revert acc. induction data as [|row data IH]; intros acc; simpl.
  - split; [auto|]. intros [H | (row & Hin & _)]; [exact H|].
    apply elem_of_nil in Hin. contradiction.
  - rewrite IH. split.
    + intros [H | (r & Hin & Hr)].
      * destruct (row !! i) as [q|] eqn:Hq.
        -- apply elem_of_union in H as [H | H]; [auto|].
           apply elem_of_singleton in H. subst q.
           right. exists row. split; [apply list_elem_of_here | exact Hq].
        -- auto.
      * right. exists r. split; [apply list_elem_of_further, Hin | exact Hr].
    + intros [H | (r & Hin & Hr)].
      * left. destruct (row !! i); [apply elem_of_union; auto | exact H].
      * apply elem_of_cons in Hin as [-> | Hin].
        -- left. rewrite Hr. apply elem_of_union. right.
           apply elem_of_singleton. reflexivity.
        -- right. exists r. auto.
Qed.

Lemma sorted_pascodes_elem (e i b : list (list string)) (p : string) :
  p ∈ sorted_pascodes e i b
  <-> (exists row, row ∈ e /\ row !! 7%nat = Some p)
      \/ (exists row, row ∈ i /\ row !! 2%nat = Some p)
      \/ (exists row, row ∈ b /\ row !! 7%nat = Some p).
Proof.
  unfold sorted_pascodes. rewrite merge_sort_Permutation, elem_of_elements.
  rewrite !collect_spec. rewrite elem_of_empty. tauto.
Qed.

Lemma sorted_pascodes_ascending (e i b : list (list string)) :
  StronglySorted (strict String.le) (sorted_pascodes e i b).
Proof.
  unfold sorted_pascodes.
  set (l := elements _).
  assert (Hnd : NoDup (merge_sort String.le l)).
  { rewrite merge_sort_Permutation. apply NoDup_elements. }
  assert (Hs : StronglySorted String.le (merge_sort String.le l))
    by (apply StronglySorted_merge_sort; apply _).
  induction Hs as [|x xs Hxs IH Hall]; [constructor|].
  apply NoDup_cons in Hnd as [Hx Hnd].
  constructor; [apply IH, Hnd|].
  apply Forall_forall. intros y Hy. rewrite Forall_forall in Hall.
  split; [apply Hall, Hy|].
  intros Hyx. assert (x = y) by (apply (anti_symm String.le); auto).
  subst y. contradiction.
Qed.

Lemma position_is_Some (c : string) (cols : list string) :
  c ∈ cols -> is_Some (pandas.position c cols).
Proof.
  induction cols as [|c' cols IH]; intros Hin.
  - apply elem_of_nil in Hin. contradiction.
  - simpl. destruct (String.eqb_spec c c') as [-> | Hne]; [eauto|].
    apply elem_of_cons in Hin as [-> | Hin]; [contradiction|].
    destruct (IH Hin) as [j ->]. eauto.
Qed.

Lemma positions_is_Some (cols have : list string) :
  Forall (fun c => c ∈ have) cols -> is_Some (pandas.positions cols have).
Proof.
  induction 1 as [|c cols Hc _ IH]; simpl; [eauto|].
  destruct (position_is_Some c have Hc) as [j ->].
  destruct IH as [ixs ->]. eauto.
Qed.

(** Selecting the available ineligible columns never raises. *)
Lemma ineligible_rows_ok (s : session) :
  exists rows, ineligible_rows s = Ok rows.
Proof.
  unfold ineligible_rows. destruct (pandas.empty _); [eauto|].
  unfold pandas.getitem.
  destruct (positions_is_Some
              (List.filter (fun col => bool_decide (col ∈ pandas.columns (ineligible_df s)))
                 ineligible_columns) (pandas.columns (ineligible_df s))) as [ixs ->].
  - apply Forall_forall. intros c Hc. apply list_elem_of_In, filter_In in Hc as [_ Hc].
    apply bool_decide_eq_true in Hc. exact Hc.
  - simpl. eauto.
Qed.

Section loop_facts.

Variable get_promotion_eligibility : nat -> string -> result (Z * Z).
Variable doc_build : pascode_job -> bool.
Variable s : session.
Variables eligible ineligible btz : list (list string).
Variable last : option string.

Abbreviation has_rows := (has_rows eligible ineligible btz).
Abbreviation loop := (pascode_loop get_promotion_eligibility doc_build s
                    eligible ineligible btz last).

(** A PASCODE without an entry in [pascode_map] is passed over: the loop
    goes on with the remaining ones. *)
Lemma loop_skip_unmapped (p : string) (todo : list string) (acc : emitted) :
  pascode_map s !! p = None -> loop (p :: todo) acc = loop todo acc.
Proof. intros H. simpl. rewrite H. reflexivity. Qed.

Lemma loop_skip_no_rows (p : string) (todo : list string) (acc : emitted) :
  ~ has_rows p -> loop (p :: todo) acc = loop todo acc.
Proof.
  intros H. simpl. destruct (pascode_map s !! p); [|reflexivity].
  unfold has_rows in H.
  destruct (rows_of 7 p eligible); [|exfalso; apply H; left; discriminate].
  destruct (rows_of 2 p ineligible);
    [|exfalso; apply H; right; left; discriminate].
  destruct (rows_of 7 p btz); [reflexivity|].
  exfalso; apply H; right; right; discriminate.
Qed.

Lemma loop_step (p : string) (info : gmap string string) (todo : list string)
    (acc out : emitted) :
  pascode_map s !! p = Some info -> has_rows p ->
  loop (p :: todo) acc = Ok out ->
  exists acc' : emitted,
    loop todo acc' = Ok out
    /\ rendered acc' = rendered acc ++ [p]
    /\ (temp_pdfs acc' = temp_pdfs acc
        \/ temp_pdfs acc' = temp_pdfs acc ++ [temp_name p]).
Proof.
  intros Hinfo Hrows. simpl. rewrite Hinfo.
  assert (Hgo : forall (X : result emitted) (Y : result emitted),
            match rows_of 7 p eligible, rows_of 2 p ineligible, rows_of 7 p btz with
            | [], [], [] => X
            | _, _, _ => Y
            end = Y).
  { intros X Y. unfold has_rows in Hrows.
    destruct (rows_of 7 p eligible); [|reflexivity].
    destruct (rows_of 2 p ineligible); [|reflexivity].
    destruct (rows_of 7 p btz); [|reflexivity]. exfalso. tauto. }
  rewrite Hgo. unfold bind.
  destruct (get_promotion_eligibility _ _) as [quota|]; [|discriminate].
  unfold generate_pascode_pdf. simpl output_filename.
  destruct (doc_build _); intros Hout; eexists; (split; [exact Hout|]); simpl; auto.
Qed.

Lemma loop_raise_step (p : string) (todo : list string) (acc : emitted) (ex : exn) :
  loop (p :: todo) acc = Raise ex ->
  (is_Some (pascode_map s !! p)
   /\ exists n, get_promotion_eligibility n (cycle s) = Raise ex)
  \/ exists acc', loop todo acc' = Raise ex.
Proof.
  simpl. destruct (pascode_map s !! p) as [info|]; [|eauto].
  assert (Hcase :
    forall (X Y : result emitted),
      match rows_of 7 p eligible, rows_of 2 p ineligible, rows_of 7 p btz with
      | [], [], [] => X
      | _, _, _ => Y
      end = Raise ex -> X = Raise ex \/ Y = Raise ex).
  { intros X Y. destruct (rows_of 7 p eligible); [|auto].
    destruct (rows_of 2 p ineligible); [|auto].
    destruct (rows_of 7 p btz); auto. }
  intros H. apply Hcase in H as [H | H]; [eauto|].
  unfold bind in H.
  destruct (get_promotion_eligibility _ _) as [quota|ex'] eqn:Hq.
  - right. eauto.
  - left. injection H as ->. split; [eauto|eauto].
Qed.

(** The loop is aborted only by [get_promotion_eligibility] raising for a
    PASCODE that has an entry in [pascode_map]. *)
Lemma loop_raise (todo : list string) (acc : emitted) (ex : exn) :
  loop todo acc = Raise ex ->
  exists p n, p ∈ todo /\ is_Some (pascode_map s !! p)
              /\ get_promotion_eligibility n (cycle s) = Raise ex.
Proof.
  revert acc. induction todo as [|p todo IH]; intros acc H; [discriminate|].
  apply loop_raise_step in H as [[Hp [n Hn]] | [acc' H]].
  - exists p, n. split; [apply list_elem_of_here|auto].
  - destruct (IH _ H) as (q & n & Hq & Hrest).
    exists q, n. split; [apply list_elem_of_further, Hq|exact Hrest].
Qed.

(** What a completed loop has rendered and emitted. *)
Lemma loop_ok (todo : list string) (acc out : emitted) :
  loop todo acc = Ok out ->
  rendered out
  = rendered acc
    ++ filter (fun p => is_Some (pascode_map s !! p) /\ has_rows p) todo
  /\ exists built : list string,
       built `sublist_of`
         filter (fun p => is_Some (pascode_map s !! p) /\ has_rows p) todo
       /\ temp_pdfs out = temp_pdfs acc ++ (temp_name <$> built).
Proof.
  revert acc. induction todo as [|p todo IH]; intros acc H.
  - injection H as <-. rewrite filter_nil, app_nil_r. split; [reflexivity|].
    exists []. split; [constructor|]. simpl. rewrite app_nil_r. reflexivity.
  - destruct (decide (is_Some (pascode_map s !! p) /\ has_rows p)) as [[Hm Hr]|Hno].
    + destruct Hm as [info Hinfo].
      destruct (loop_step p info todo acc out Hinfo Hr H)
        as (acc' & Hloop & Hrend & Htemp).
      destruct (IH _ Hloop) as (Hr' & built & Hsub & Ht').
      rewrite filter_cons_True by eauto.
      split; [rewrite Hr', Hrend, <- app_assoc; reflexivity|].
      destruct Htemp as [Htemp | Htemp]; rewrite Htemp in Ht'.
      * exists built. split; [apply sublist_cons, Hsub | exact Ht'].
      * exists (p :: built). split; [apply sublist_skip, Hsub|].
        rewrite Ht', <- app_assoc. reflexivity.
    + rewrite filter_cons_False by exact Hno. apply IH.
      destruct (pascode_map s !! p) as [info|] eqn:Hinfo.
      * rewrite <- (loop_skip_no_rows p todo acc); [exact H|].
        intros Hr. apply Hno. eauto.
      * rewrite <- (loop_skip_unmapped p todo acc Hinfo). exact H.
Qed.

End loop_facts.

Lemma filter_ext_elem {A : Type} (P Q : A -> Prop) `{!forall x, Decision (P x)}
    `{!forall x, Decision (Q x)} (l : list A) :
  (forall x, x ∈ l -> (P x <-> Q x)) -> filter P l = filter Q l.
Proof.
  induction l as [|x l IH]; intros Hext; [reflexivity|].
  assert (Hx : P x <-> Q x) by (apply Hext, list_elem_of_here).
  assert (Hl : filter P l = filter Q l)
    by (apply IH; intros y Hy; apply Hext, list_elem_of_further, Hy).
  destruct (decide (P x)) as [HP | HP].
  - rewrite !filter_cons_True by tauto. f_equal. exact Hl.
  - rewrite !filter_cons_False by tauto. exact Hl.
Qed.

Lemma StronglySorted_sublist {A : Type} (R : relation A) (l1 l2 : list A) :
  l1 `sublist_of` l2 -> StronglySorted R l2 -> StronglySorted R l1.
Proof.
  induction 1 as [|x l1 l2 Hsub IH|x l1 l2 Hsub IH]; intros Hs.
  - constructor.
  - apply StronglySorted_inv in Hs as [Hs Hall]. constructor; [auto|].
    apply Forall_forall. intros y Hy. rewrite Forall_forall in Hall.
    apply Hall. eapply elem_of_sublist; eauto.
  - apply StronglySorted_inv in Hs as [Hs _]. auto.
Qed.

Lemma rows_of_nonempty (i : nat) (p : string) (data : list (list string)) :
  (exists row, row ∈ data /\ row !! i = Some p) -> rows_of i p data <> [].
Proof.
  intros (row & Hin & Hrow) Hnil.
  assert (Hf : In row (rows_of i p data)).
  { unfold rows_of. apply filter_In. split; [apply list_elem_of_In, Hin|].
    rewrite Hrow. apply String.eqb_refl. }
  rewrite Hnil in Hf. exact Hf.
Qed.

Lemma sorted_pascodes_has_rows (e i b : list (list string)) (p : string) :
  p ∈ sorted_pascodes e i b -> has_rows e i b p.
Proof.
  rewrite sorted_pascodes_elem. unfold has_rows.
  intros [H | [H | H]]; [left | right; left | right; right];
    apply rows_of_nonempty, H.
Qed.

Example generate_roster_pdf_sample :
  let row p := [ "N"; "SSG"; "01-JAN-2020"; "3F071"; "UNIT"; "D"; "T"; p ] in
  let s :=
    {| eligible_df :=
         pandas.mk_df constants.PDF_COLUMNS [ row "B2"; row "C3"; row "A1"; row "C3" ];
       ineligible_df := pandas.mk_df [] [];
       btz_df := pandas.mk_df [] [];
       small_unit_df := pandas.mk_df [] [];
       cycle := "SSG";
       melYear := 2025;
       pascode_map := {[ "C3" := ∅; "A1" := ∅ ]} |} in
  generate_roster_pdf (fun _ _ => Ok (0, 0)) (fun _ => true) s
  = Some {| temp_pdfs := [ "temp_A1.pdf"; "temp_C3.pdf" ];
            rendered := [ "A1"; "C3" ] |}.
Proof. vm_compute. reflexivity. Qed.

End roster_pdf_facts.

(** ** The columns of the report rows *)

Module column_facts.
Import pandas constants.

Lemma position_lookup (c : string) (cols : list string) (j : nat) :
  position c cols = Some j -> cols !! j = Some c.
Proof.
  revert j. induction cols as [|c' cols IH]; intros j; simpl; [discriminate|].
  destruct (String.eqb_spec c c') as [-> | Hne].
  - intros [= <-]. reflexivity.
  - destruct (position c cols) as [i|]; [|discriminate].
    intros [= <-]. simpl. apply IH. reflexivity.
Qed.

Lemma positions_lookup (cols have : list string) (ixs : list nat) :
  positions cols have = Some ixs ->
  length ixs = length cols
  /\ forall (k : nat) (c : string),
       cols !! k = Some c ->
       exists j, ixs !! k = Some j /\ position c have = Some j.
Proof.
  revert ixs. induction cols as [|c0 cols IH]; intros ixs; simpl.
  - intros [= <-]. split; [reflexivity|]. intros k c Hk. discriminate.
  - destruct (position c0 have) as [j0|] eqn:Hj0; [|discriminate].
    destruct (positions cols have) as [ixs'|]; [|discriminate].
    intros [= <-]. destruct (IH ixs' eq_refl) as [Hlen Hall].
    split; [simpl; congruence|].
    intros [|k] c Hk; simpl in Hk.
    + injection Hk as <-. exists j0. auto.
    + apply Hall, Hk.
Qed.

Lemma project_lookup (ixs : list nat) (r : list string) (k j : nat) (v : string) :
  ixs !! k = Some j -> r !! j = Some v -> project ixs r !! k = Some v.
Proof.
  intros Hk Hj. unfold project. rewrite list_lookup_fmap, Hk. simpl.
  f_equal. apply list_lookup_total_correct, Hj.
Qed.

(** What [df[cols]] holds: the labels asked for, and in every row the cells
    of those labels, in the order asked. *)
Lemma getitem_spec (df out : DataFrame) (cols : list string) :
  well_formed df -> getitem df cols = Ok out ->
  columns out = cols
  /\ well_formed out
  /\ length (values out) = length (values df)
  /\ forall (i : nat) (row : list string),
       values df !! i = Some row ->
       exists orow,
         values out !! i = Some orow
         /\ forall (k : nat) (c : string),
              cols !! k = Some c ->
              exists j v, position c (columns df) = Some j
                          /\ row !! j = Some v /\ orow !! k = Some v.
Proof.
  intros Hwf. unfold getitem.
  destruct (positions cols (columns df)) as [ixs|] eqn:Hpos; [|discriminate].
  intros [= <-]. simpl.
  destruct (positions_lookup _ _ _ Hpos) as [Hlen Hall].
  split; [reflexivity|]. split; [|split].
  - unfold well_formed. simpl. apply Forall_fmap, Forall_forall.
    intros r _. simpl. unfold project. rewrite length_fmap. exact Hlen.
  - apply length_fmap.
  - intros i row Hrow. exists (project ixs row).
    split; [rewrite list_lookup_fmap, Hrow; reflexivity|].
    intros k c Hk. destruct (Hall k c Hk) as (j & Hj & Hp).
    assert (Hlt : (j < length row)%nat).
    { unfold well_formed in Hwf. rewrite Forall_forall in Hwf.
      rewrite (Hwf row) by (eapply list_elem_of_lookup_2; eauto).
      apply lookup_lt_is_Some. rewrite (position_lookup _ _ _ Hp). eauto. }
    destruct (lookup_lt_is_Some_2 row j Hlt) as [v Hv].
    exists j, v. split; [exact Hp|]. split; [exact Hv|].
    eapply project_lookup; eauto.
Qed.

Lemma rows_of_sublist (i : nat) (p : string) (data : list (list string)) :
  initial_mel_generator.rows_of i p data `sublist_of` data.
Proof.
  unfold initial_mel_generator.rows_of.
  induction data as [|r data IH]; simpl; [constructor|].
  destruct (match r !! i with Some q => String.eqb q p | None => false end).
  - apply sublist_skip, IH.
  - apply sublist_cons, IH.
Qed.

(** The frame stored for the report at upload has the eight columns name,
    grade, date arrived on station, AFSC, cleartext unit, date of rank,
    service date, unit code, in this order: each cell is the cell of the
    uploaded row under that label; selecting the rows of one unit and
    building the table keep the rows as they are, under the header whose
    labels stand in the same positions. *)
Lemma upload_report_frame (df processed_df pdf_df : DataFrame) :
  well_formed df ->
  main.upload_frames df = Ok (processed_df, pdf_df) ->
  columns pdf_df
  = [ "FULL_NAME"; "GRADE"; "DATE_ARRIVED_STATION"; "DAFSC";
      "ASSIGNED_PAS_CLEARTEXT"; "DOR"; "TAFMSD"; "ASSIGNED_PAS" ]
  /\ length (values_tolist pdf_df) = length (values df)
  /\ (forall (i : nat) (row : list string),
        values df !! i = Some row ->
        exists orow : list string,
          values_tolist pdf_df !! i = Some orow
          /\ length orow = 8%nat
          /\ forall (k : nat) (c : string),
               columns pdf_df !! k = Some c ->
               exists j v, position c (columns df) = Some j
                           /\ row !! j = Some v /\ orow !! k = Some v)
  /\ (forall (p : string) (data : list (list string)),
        initial_mel_generator.rows_of 7 p data `sublist_of` data)
  /\ (forall (data : list (list string)) (table_type : string) (n : nat),
        table_type <> "" ->
        exists status_row : list string,
          initial_mel_generator.create_table data INITIAL_MEL_HEADER_ROW
            table_type (Some n)
          = status_row :: INITIAL_MEL_HEADER_ROW :: data)
  /\ zip (columns pdf_df) INITIAL_MEL_HEADER_ROW
     = [ ("FULL_NAME", "FULL NAME"); ("GRADE", "GRADE");
         ("DATE_ARRIVED_STATION", "DAS"); ("DAFSC", "DAFSC");
         ("ASSIGNED_PAS_CLEARTEXT", "UNIT"); ("DOR", "DOR");
         ("TAFMSD", "TAFMSD"); ("ASSIGNED_PAS", "PASCODE") ].
Proof.
  intros Hwf. unfold main.upload_frames, bind.
  destruct (getitem df _) as [processed|] eqn:H1; [|discriminate].
  destruct (getitem processed PDF_COLUMNS) as [pdf|] eqn:H2; [|discriminate].
  intros [= <- <-].
  destruct (getitem_spec _ _ _ Hwf H1) as (Hc1 & Hwf1 & Hl1 & Hr1).
  destruct (getitem_spec _ _ _ Hwf1 H2) as (Hc2 & Hwf2 & Hl2 & Hr2).
  split; [exact Hc2|]. split; [unfold values_tolist; congruence|].
  split; [|split; [intros; apply rows_of_sublist|split]].
  - intros i row Hrow.
    destruct (Hr1 i row Hrow) as (prow & Hprow & Hcells1).
    destruct (Hr2 i prow Hprow) as (orow & Horow & Hcells2).
    exists orow. split; [exact Horow|]. split.
    + unfold well_formed in Hwf2. rewrite Forall_forall in Hwf2.
      rewrite (Hwf2 orow) by (eapply list_elem_of_lookup_2; eauto).
      rewrite Hc2. reflexivity.
    + intros k c Hk. rewrite Hc2 in Hk.
      destruct (Hcells2 k c Hk) as (j1 & v & Hj1 & Hv1 & Hv).
      rewrite Hc1 in Hj1. apply position_lookup in Hj1.
      destruct (Hcells1 j1 c Hj1) as (j & v' & Hj & Hv' & Hpv).
      exists j, v. split; [exact Hj|]. split; [congruence|exact Hv].
  - intros data table_type n Hne. unfold initial_mel_generator.create_table.
    apply String.eqb_neq in Hne. rewrite Hne. simpl. eauto.
  - rewrite Hc2. reflexivity.
Qed.

End column_facts.

(** ** The roster partition and the small units *)

Module roster_facts.
Import roster_processor.
Local Open Scope nat_scope.

Section partition_facts.

Context {RawRow : Type}.
Variable parse : RawRow -> string + MemberRecord.
Variable evaluate : MemberRecord -> string -> Z -> string + EligibilityResult.
Variable grade_cycle : string.
Variable board_year : Z.

Abbreviation place := (place parse evaluate grade_cycle board_year).
Abbreviation process_from := (process_from parse evaluate grade_cycle board_year).
Abbreviation process := (process parse evaluate grade_cycle board_year).
Abbreviation verdict := (verdict parse evaluate grade_cycle board_year).
Abbreviation rows_with := (rows_with parse evaluate grade_cycle board_year).

Lemma place_ids (i : nat) (raw : RawRow) (p : RosterPartition) (v : option category) :
  let hit := if decide (verdict raw = v) then [i] else [] in
  match v with
  | Some ELIGIBLE => ids (eligible (place i raw p)) = ids (eligible p) ++ hit
  | Some INELIGIBLE => ids (ineligible (place i raw p)) = ids (ineligible p) ++ hit
  | Some BELOW_THE_ZONE =>
    ids (below_the_zone (place i raw p)) = ids (below_the_zone p) ++ hit
  | None => error_ids (error_log (place i raw p)) = error_ids (error_log p) ++ hit
  end.
Proof.
  unfold roster_processor.place, roster_processor.verdict, ids, error_ids.
  destruct (parse raw) as [why|rec]; simpl.
  - destruct v as [[]|]; simpl; rewrite ?app_nil_r, ?fmap_app; reflexivity.
  - destruct (evaluate rec grade_cycle board_year) as [why|res]; simpl.
    + destruct v as [[]|]; simpl; rewrite ?app_nil_r, ?fmap_app; reflexivity.
    + destruct (result_category res), v as [[]|]; simpl;
        rewrite ?app_nil_r, ?fmap_app; reflexivity.
Qed.

Lemma process_from_ids (rows : list RawRow) (i : nat) (p : RosterPartition) :
  ids (eligible (process_from i rows p))
    = ids (eligible p) ++ rows_with (Some ELIGIBLE) i rows
  /\ ids (ineligible (process_from i rows p))
    = ids (ineligible p) ++ rows_with (Some INELIGIBLE) i rows
  /\ ids (below_the_zone (process_from i rows p))
    = ids (below_the_zone p) ++ rows_with (Some BELOW_THE_ZONE) i rows
  /\ error_ids (error_log (process_from i rows p))
    = error_ids (error_log p) ++ rows_with None i rows.
Proof.
  revert i p. induction rows as [|raw rows IH]; intros i p; simpl.
  - rewrite !app_nil_r. auto.
  - destruct (IH (S i) (place i raw p)) as (He & Hi & Hb & Hx).
    rewrite He, Hi, Hb, Hx.
    pose proof (place_ids i raw p (Some ELIGIBLE)) as Pe.
    pose proof (place_ids i raw p (Some INELIGIBLE)) as Pi.
    pose proof (place_ids i raw p (Some BELOW_THE_ZONE)) as Pb.
    pose proof (place_ids i raw p None) as Px.
    simpl in Pe, Pi, Pb, Px. rewrite Pe, Pi, Pb, Px, <- !app_assoc. auto.
Qed.

Lemma rows_with_elem (v : option category) (rows : list RawRow) (i k : nat) :
  k ∈ rows_with v i rows
  <-> exists (j : nat) (raw : RawRow),
        k = (i + j)%nat /\ rows !! j = Some raw /\ verdict raw = v.
Proof.
  revert i. induction rows as [|raw0 rows IH]; intros i; simpl.
  - split; [intros H; apply elem_of_nil in H; contradiction|].
    intros (j & raw & _ & H & _). discriminate.
  - rewrite elem_of_app, IH. split.
    + intros [H | (j & raw & -> & Hj & Hv)].
      * destruct (decide (verdict raw0 = v)) as [Hv|].
        -- apply list_elem_of_singleton in H as ->.
           exists 0%nat, raw0. split; [lia|auto].
        -- apply elem_of_nil in H. contradiction.
      * exists (S j), raw. split; [lia|auto].
    + intros ([|j] & raw & -> & Hj & Hv); simpl in Hj.
      * injection Hj as ->. left. rewrite decide_True by exact Hv.
        rewrite Nat.add_0_r. apply list_elem_of_here.
      * right. exists j, raw. split; [lia|auto].
Qed.

(** Every position goes to exactly one of the four collections. *)
Lemma rows_with_partition (rows : list RawRow) (i : nat) :
  rows_with (Some ELIGIBLE) i rows ++ rows_with (Some INELIGIBLE) i rows
  ++ rows_with (Some BELOW_THE_ZONE) i rows ++ rows_with None i rows
  ≡ₚ seq i (length rows).
Proof.
  revert i. induction rows as [|raw rows IH]; intros i; simpl; [reflexivity|].
  rewrite <- (IH (S i)).
  destruct (verdict raw) as [[]|]; simpl;
    repeat (rewrite decide_False by discriminate);
    rewrite ?decide_True by reflexivity; simpl.
  - reflexivity.
  - rewrite <- Permutation_middle. reflexivity.
  - rewrite app_assoc, <- Permutation_middle, <- app_assoc. reflexivity.
  - rewrite !app_assoc, <- Permutation_middle, <- !app_assoc. reflexivity.
Qed.

(** C2. Processing partitions the rows: the identifiers held by the
    eligible, ineligible, below-the-zone and error collections are, taken
    together, exactly the positions of the input, each once; a row lands in
    the category of its verdict, and in the error log exactly when it has
    none; hence the three category counts add up to the input count minus
    the error count. *)
Theorem process_partitions_rows (raw_rows : list RawRow) :
  let p := process raw_rows in
  (length (eligible p) + length (ineligible p) + length (below_the_zone p)
   = length raw_rows - length (error_log p))%nat
  /\ ids (eligible p) ++ ids (ineligible p) ++ ids (below_the_zone p)
     ++ error_ids (error_log p) ≡ₚ seq 0 (length raw_rows)
  /\ NoDup (ids (eligible p) ++ ids (ineligible p) ++ ids (below_the_zone p)
            ++ error_ids (error_log p))
  /\ forall (k : nat) (raw : RawRow),
       raw_rows !! k = Some raw ->
       (k ∈ ids (eligible p) <-> verdict raw = Some ELIGIBLE)
       /\ (k ∈ ids (ineligible p) <-> verdict raw = Some INELIGIBLE)
       /\ (k ∈ ids (below_the_zone p) <-> verdict raw = Some BELOW_THE_ZONE)
       /\ (k ∈ error_ids (error_log p) <-> verdict raw = None).
Proof.
  cbv zeta. unfold roster_processor.process.
  destruct (process_from_ids raw_rows 0
              {| eligible := []; ineligible := []; below_the_zone := [];
                 error_log := [] |}) as (He & Hi & Hb & Hx).
  simpl in He, Hi, Hb, Hx.
  pose proof (rows_with_partition raw_rows 0) as Hperm.
  rewrite <- He, <- Hi, <- Hb, <- Hx in Hperm.
  split; [|split; [exact Hperm|split]].
  - apply Permutation_length in Hperm.
    rewrite !length_app, length_seq in Hperm.
    unfold ids, error_ids in Hperm. rewrite !length_fmap in Hperm. lia.
  - rewrite Hperm. apply NoDup_seq.
  - intros k raw Hk. rewrite He, Hi, Hb, Hx, !rows_with_elem.
    repeat split.
    all: try (intros (j & raw' & Hj & Hraw & Hv); simpl in Hj; subst j;
              congruence).
    all: intros Hv; exists k, raw; auto.
Qed.

End partition_facts.

Lemma eligible_by_unit_lookup (es : list entry) (u : string) :
  eligible_by_unit es !! u
  = match filter (fun e => unit_of e = u) es with
    | [] => None
    | rows => Some rows
    end.
Proof.
  induction es as [|e es IH]; simpl; [apply lookup_empty|].
  destruct (decide (unit_of e = u)) as [Heq | Hne].
  - rewrite filter_cons_True by exact Heq. rewrite Heq, lookup_insert_eq, IH.
    destruct (filter _ es); reflexivity.
  - rewrite filter_cons_False by exact Hne. rewrite lookup_insert_ne by exact Hne.
    exact IH.
Qed.

Lemma eligible_by_unit_Some (es : list entry) (u : string) (rows : list entry) :
  eligible_by_unit es !! u = Some rows ->
  rows = filter (fun e => unit_of e = u) es /\ rows <> [].
Proof.
  rewrite eligible_by_unit_lookup.
  destruct (filter _ es) eqn:Hf; [discriminate|].
  intros [= <-]. split; [reflexivity|discriminate].
Qed.

Lemma elem_of_concat {A : Type} (x : A) (ls : list (list A)) :
  x ∈ concat ls <-> exists l, x ∈ l /\ l ∈ ls.
Proof.
  rewrite list_elem_of_In, in_concat. split.
  - intros (l & Hl & Hx). exists l. rewrite !list_elem_of_In. auto.
  - intros (l & Hx & Hl). exists l. rewrite <- !list_elem_of_In. auto.
Qed.

Lemma group_fold (l : list (string * list entry))
    (m : gmap string (list entry)) (sm : list entry) :
  let r := foldl merge_if_small (m, sm) l in
  (forall u : string,
     r.1 !! u = if decide (u ∈ (filter small_pair l).*1) then None else m !! u)
  /\ r.2 = sm ++ concat ((filter small_pair l).*2).
Proof.
  revert m sm. induction l as [|[u0 rows0] l IH]; intros m sm; simpl.
  - split; [reflexivity|]. rewrite app_nil_r. reflexivity.
  - unfold merge_if_small at 2 4. simpl.
    destruct (is_small_unit rows0) eqn:Hsmall.
    + rewrite filter_cons_True by exact Hsmall. simpl.
      destruct (IH (delete u0 m) (sm ++ rows0)) as [Hm Hs]. split.
      * intros u. rewrite Hm.
        destruct (decide (u = u0)) as [-> | Hne].
        -- rewrite lookup_delete_eq.
           rewrite (decide_True (P := u0 ∈ u0 :: _)) by apply list_elem_of_here.
           destruct (decide _); reflexivity.
        -- rewrite lookup_delete_ne by congruence.
           destruct (decide (u ∈ (filter small_pair l).*1)) as [Hin | Hnin].
           ++ rewrite decide_True by (apply list_elem_of_further, Hin). reflexivity.
           ++ rewrite decide_False; [reflexivity|].
              intros [-> | Hin]%elem_of_cons; contradiction.
      * rewrite Hs, <- app_assoc. reflexivity.
    + rewrite filter_cons_False
        by (unfold small_pair; simpl; rewrite Hsmall; discriminate).
      apply IH.
Qed.

Lemma is_small_unit_lt (rows : list entry) :
  is_small_unit rows = true <-> length rows < 10.
Proof.
  unfold is_small_unit, constants.SMALL_UNIT_THRESHOLD.
  apply bool_decide_eq_true.
Qed.

(** C4. A unit whose eligible rows number fewer than ten is absent from
    the per-unit reporting map and all its rows are in the small-unit
    grouping; a unit with ten or more stays in the map with its rows, none
    of which is in the small-unit grouping. *)
Theorem small_units_merged (es : list entry) (u : string) (rows : list entry) :
  eligible_by_unit es !! u = Some rows ->
  rows = filter (fun e => unit_of e = u) es
  /\ (length rows < 10 ->
      per_unit_reporting es !! u = None
      /\ forall e, e ∈ rows -> e ∈ small_unit_grouping es)
  /\ (10 <= length rows ->
      per_unit_reporting es !! u = Some rows
      /\ forall e, e ∈ rows -> e ∉ small_unit_grouping es).
Proof.
  intros Hu. destruct (eligible_by_unit_Some es u rows Hu) as [Hrows _].
  split; [exact Hrows|].
  unfold per_unit_reporting, small_unit_grouping, group_small_units.
  destruct (group_fold (map_to_list (eligible_by_unit es)) (eligible_by_unit es) [])
    as [Hm Hs].
  cbv zeta in Hm, Hs. rewrite Hm, Hs. simpl. clear Hm Hs.
  assert (Hpair : (u, rows) ∈ map_to_list (eligible_by_unit es))
    by (apply elem_of_map_to_list, Hu).
  split.
  - intros Hlt. apply is_small_unit_lt in Hlt.
    assert (Hf : (u, rows) ∈ filter small_pair (map_to_list (eligible_by_unit es)))
      by (apply list_elem_of_filter; auto).
    split.
    + rewrite decide_True; [reflexivity|].
      apply list_elem_of_fmap. exists (u, rows). auto.
    + intros e He. apply elem_of_concat. exists rows. split; [exact He|].
      apply list_elem_of_fmap. exists (u, rows). auto.
  - intros Hge.
    assert (Hns : is_small_unit rows = false).
    { destruct (is_small_unit rows) eqn:E; [|reflexivity].
      apply is_small_unit_lt in E. lia. }
    assert (Hkey : forall rows', (u, rows') ∈ filter small_pair
                                   (map_to_list (eligible_by_unit es)) -> False).
    { intros rows' [Hsm Hin]%list_elem_of_filter.
      apply elem_of_map_to_list in Hin. rewrite Hu in Hin. injection Hin as <-.
      unfold small_pair in Hsm. simpl in Hsm. congruence. }
    split.
    + rewrite decide_False; [exact Hu|].
      intros [[u' rows'] [Heq Hin]]%list_elem_of_fmap. simpl in Heq. subst u'.
      eapply Hkey, Hin.
    + intros e He [rows' [He' Hin]]%elem_of_concat.
      apply list_elem_of_fmap in Hin as [[u' rows''] [Heq Hin]].
      simpl in Heq. subst rows''.
      assert (Hu' : eligible_by_unit es !! u' = Some rows').
      { apply list_elem_of_filter in Hin as [_ Hin].
        apply elem_of_map_to_list, Hin. }
      apply eligible_by_unit_Some in Hu' as [Hrows' _].
      rewrite Hrows in He. rewrite Hrows' in He'.
      apply list_elem_of_filter in He as [He _].
      apply list_elem_of_filter in He' as [He' _].
      assert (Heq : u' = u) by congruence. rewrite Heq in Hin.
      eapply Hkey, Hin.
Qed.

Example process_sample :
  let parse (raw : option string) : string + MemberRecord :=
    match raw with
    | Some unit => inr (sample_record unit)
    | None => inl "missing required field"
    end in
  let evaluate (rec : MemberRecord) (cycle : string) (year : Z)
      : string + EligibilityResult :=
    if String.eqb (assigned_pas rec) "ZZ"
    then inr (mk_result INELIGIBLE false (Some "Higher tenure"))
    else inr (mk_result ELIGIBLE true None) in
  let p := process parse evaluate "SSG" 2025%Z [ Some "AA"; None; Some "ZZ" ] in
  ids (eligible p) = [ 0 ] /\ ids (ineligible p) = [ 2 ]
  /\ ids (below_the_zone p) = [] /\ error_ids (error_log p) = [ 1 ].
Proof. repeat split. Qed.

Lemma small_units_merged_witness :
  eligible_by_unit sample_eligible !! "AA" = Some (sample_unit "AA" 0 9)
  /\ eligible_by_unit sample_eligible !! "BB" = Some (sample_unit "BB" 9 10)
  /\ per_unit_reporting sample_eligible !! "AA" = None
  /\ per_unit_reporting sample_eligible !! "BB" = Some (sample_unit "BB" 9 10).
Proof.
  assert (HA : eligible_by_unit sample_eligible !! "AA" = Some (sample_unit "AA" 0 9))
    by (vm_compute; reflexivity).
  assert (HB : eligible_by_unit sample_eligible !! "BB" = Some (sample_unit "BB" 9 10))
    by (vm_compute; reflexivity).
  split; [exact HA|]. split; [exact HB|].
  destruct (small_units_merged sample_eligible "AA" _ HA) as (_ & Hsmall & _).
  destruct (small_units_merged sample_eligible "BB" _ HB) as (_ & _ & Hbig).
  split.
  - apply Hsmall. simpl. lia.
  - apply Hbig. simpl. lia.
Defined.

End roster_facts.

(** ** The frames stored at upload *)

Module upload_facts.
Import pandas constants.
Local Open Scope nat_scope.

Lemma position_elem (c : string) (cols : list string) (j : nat) :
  position c cols = Some j -> c ∈ cols.
Proof.
  intros H. apply column_facts.position_lookup in H.
  eapply list_elem_of_lookup_2, H.
Qed.

Lemma position_lt (c : string) (cols : list string) (j : nat) :
  position c cols = Some j -> j < length cols.
Proof.
  intros H. apply column_facts.position_lookup in H.
  eapply lookup_lt_Some, H.
Qed.

Lemma positions_elem (cols have : list string) (ixs : list nat) :
  positions cols have = Some ixs -> Forall (fun c => c ∈ have) cols.
Proof.
  revert ixs. induction cols as [|c cols IH]; intros ixs; simpl; [constructor|].
  destruct (position c have) as [j|] eqn:Hj; [|discriminate].
  destruct (positions cols have) as [ixs'|]; [|discriminate].
  intros _. constructor; [eapply position_elem, Hj | eapply IH; reflexivity].
Qed.

(** [df[cols]] raises exactly when a label is missing. *)
Lemma getitem_ok_iff (df : DataFrame) (cols : list string) :
  (exists out, getitem df cols = Ok out) <-> Forall (fun c => c ∈ columns df) cols.
Proof.
  unfold getitem. split.
  - intros [out H]. destruct (positions cols (columns df)) eqn:Hp; [|discriminate].
    eapply positions_elem, Hp.
  - intros H. destruct (roster_pdf_facts.positions_is_Some _ _ H) as [ixs ->]. eauto.
Qed.

Lemma getitem_raises (df : DataFrame) (cols : list string) (e : exn) :
  getitem df cols = Raise e -> e = KeyError.
Proof.
  unfold getitem. destruct (positions _ _); [discriminate|]. congruence.
Qed.

Lemma pdf_columns_included :
  Forall (fun c => c ∈ REQUIRED_COLUMNS ++ OPTIONAL_COLUMNS) PDF_COLUMNS.
Proof.
  unfold PDF_COLUMNS, REQUIRED_COLUMNS, OPTIONAL_COLUMNS. simpl.
  repeat (constructor;
          [repeat first [apply list_elem_of_here | apply list_elem_of_further]|]).
  constructor.
Qed.

(** X1. The upload selection succeeds exactly when the uploaded frame has
    all sixteen labels of REQUIRED_COLUMNS and OPTIONAL_COLUMNS; otherwise
    it raises [KeyError] for a label that is missing. The second selection,
    of PDF_COLUMNS, never fails. *)
Theorem upload_frames_ok_iff (df : DataFrame) :
  ((exists frames, main.upload_frames df = Ok frames)
   <-> Forall (fun c => c ∈ columns df) (REQUIRED_COLUMNS ++ OPTIONAL_COLUMNS))
  /\ (forall e, main.upload_frames df = Raise e ->
        e = KeyError
        /\ exists c, c ∈ REQUIRED_COLUMNS ++ OPTIONAL_COLUMNS /\ c ∉ columns df).
Proof.
  unfold main.upload_frames, bind. split; [split|].
  - intros [frames H].
    destruct (getitem df _) as [processed|] eqn:H1; [|discriminate].
    apply getitem_ok_iff. eauto.
  - intros Hall. apply getitem_ok_iff in Hall as [processed H1]. rewrite H1.
    assert (Hc : columns processed = REQUIRED_COLUMNS ++ OPTIONAL_COLUMNS).
    { unfold getitem in H1. destruct (positions _ _); [|discriminate].
      injection H1 as <-. reflexivity. }
    destruct (proj2 (getitem_ok_iff processed PDF_COLUMNS)) as [pdf ->]; [|eauto].
    rewrite Hc. apply pdf_columns_included.
  - intros e H.
    destruct (getitem df _) as [processed|e1] eqn:H1.
    + exfalso.
      assert (Hc : columns processed = REQUIRED_COLUMNS ++ OPTIONAL_COLUMNS).
      { unfold getitem in H1. destruct (positions _ _); [|discriminate].
        injection H1 as <-. reflexivity. }
      destruct (proj2 (getitem_ok_iff processed PDF_COLUMNS)) as [pdf Hpdf].
      { rewrite Hc. apply pdf_columns_included. }
      rewrite Hpdf in H. discriminate.
    + injection H as <-. split; [eapply getitem_raises, H1|].
      assert (Hex : Exists (not ∘ (fun c => c ∈ columns df))
                      (REQUIRED_COLUMNS ++ OPTIONAL_COLUMNS)).
      { apply not_Forall_Exists; [intros c; apply _|].
        intros Hall. apply getitem_ok_iff in Hall as [out Hout]. congruence. }
      apply Exists_exists in Hex as (c & Hc & Hnot). eauto.
Qed.

Lemma project_project (ixs1 ixs2 : list nat) (r : list string) :
  Forall (fun j => j < length ixs1) ixs2 ->
  project ixs2 (project ixs1 r) = project ((fun j => ixs1 !!! j) <$> ixs2) r.
Proof.
  unfold project. intros H.
  change (((fun i => (((fun i => r !!! i) <$> ixs1) : list string) !!! i) <$> ixs2)
          = ((fun i => r !!! i) <$> ((fun j => ixs1 !!! j) <$> ixs2))).
  rewrite <- list_fmap_compose.
  apply Forall_fmap_ext_1. eapply Forall_impl; [exact H|].
  intros j Hj. exact (list_lookup_total_fmap (fun i => r !!! i) ixs1 j Hj).
Qed.

Lemma positions_compose (c2 c1 have : list string) (ixs1 ixs2 : list nat) :
  positions c1 have = Some ixs1 -> positions c2 c1 = Some ixs2 ->
  positions c2 have = Some ((fun j => ixs1 !!! j) <$> ixs2)
  /\ Forall (fun j => j < length ixs1) ixs2.
Proof.
  intros H1. destruct (column_facts.positions_lookup _ _ _ H1) as [Hlen Hall].
  revert ixs2. induction c2 as [|c c2 IH]; intros ixs2; simpl.
  - intros [= <-]. split; [reflexivity|constructor].
  - destruct (position c c1) as [j|] eqn:Hj; [|discriminate].
    destruct (positions c2 c1) as [ixs2'|]; [|discriminate].
    intros [= <-]. destruct (IH ixs2' eq_refl) as [-> Hlt].
    pose proof (column_facts.position_lookup _ _ _ Hj) as Hc.
    destruct (Hall j c Hc) as (i & Hi & ->).
    simpl. rewrite (list_lookup_total_correct _ _ _ Hi).
    split; [reflexivity|]. constructor; [|exact Hlt].
    rewrite Hlen. eapply position_lt, Hj.
Qed.

(** Selecting twice is selecting once. *)
Lemma getitem_getitem (df mid out : DataFrame) (c1 c2 : list string) :
  getitem df c1 = Ok mid -> getitem mid c2 = Ok out -> getitem df c2 = Ok out.
Proof.
  unfold getitem.
  destruct (positions c1 (columns df)) as [ixs1|] eqn:H1; [|discriminate].
  intros [= <-]. simpl.
  destruct (positions c2 c1) as [ixs2|] eqn:H2; [|discriminate].
  intros [= <-].
  destruct (positions_compose _ _ _ _ _ H1 H2) as [-> Hlt].
  f_equal. f_equal. rewrite <- list_fmap_compose.
  apply list_fmap_ext. intros i r _. simpl. symmetry.
  apply project_project, Hlt.
Qed.

Lemma getitem_shape (df out : DataFrame) (cols : list string) :
  getitem df cols = Ok out ->
  columns out = cols
  /\ length (values out) = length (values df)
  /\ Forall (fun r : list string => length r = length cols) (values out).
Proof.
  unfold getitem. destruct (positions cols (columns df)) as [ixs|] eqn:P;
    [|discriminate].
  intros [= <-]. destruct (column_facts.positions_lookup _ _ _ P) as [L _].
  cbn [columns values]. split; [reflexivity|]. split; [apply length_fmap|].
  apply Forall_fmap, Forall_forall. intros r _. unfold compose, project.
  rewrite length_map. exact L.
Qed.

(** X2. The frame stored for the report is the selection of PDF_COLUMNS
    from the uploaded frame itself; the processed frame has sixteen cells a
    row and the report frame eight. *)
Theorem upload_pdf_frame_direct (df processed_df pdf_df : DataFrame) :
  main.upload_frames df = Ok (processed_df, pdf_df) ->
  getitem df PDF_COLUMNS = Ok pdf_df
  /\ getitem df (REQUIRED_COLUMNS ++ OPTIONAL_COLUMNS) = Ok processed_df
  /\ length (values processed_df) = length (values df)
  /\ Forall (fun r : list string => length r = 16) (values processed_df)
  /\ Forall (fun r : list string => length r = 8) (values pdf_df).
Proof.
  unfold main.upload_frames, bind.
  destruct (getitem df _) as [processed|] eqn:H1; [|discriminate].
  destruct (getitem processed PDF_COLUMNS) as [pdf|] eqn:H2; [|discriminate].
  intros [= <- <-]. split; [eapply getitem_getitem; eauto|].
  split; [reflexivity|].
  destruct (getitem_shape _ _ _ H1) as (_ & L1 & R1).
  destruct (getitem_shape _ _ _ H2) as (_ & _ & R2).
  split; [exact L1|]. split; [exact R1 | exact R2].
Qed.

Lemma upload_pdf_frame_direct_witness :
  exists processed_df pdf_df : DataFrame,
    main.upload_frames sample_roster = Ok (processed_df, pdf_df)
    /\ getitem sample_roster PDF_COLUMNS = Ok pdf_df
    /\ Forall (fun r : list string => length r = 8) (values pdf_df).
Proof.
  destruct (main.upload_frames sample_roster) as [[processed_df pdf_df]|] eqn:Hup;
    [|vm_compute in Hup; discriminate].
  exists processed_df, pdf_df. split; [reflexivity|].
  destruct (upload_pdf_frame_direct sample_roster processed_df pdf_df Hup)
    as (H1 & _ & _ & _ & H2).
  split; [exact H1 | exact H2].
Defined.

End upload_facts.

(** ** The accounting date, grade by grade, and its failures *)

Module accounting_more.
Import pydatetime constants initial_mel_generator accounting_facts.

Lemma scod_lookup :
  SCODS !! "SRA" = Some "31-MAR" /\ SCODS !! "SSG" = Some "31-JAN"
  /\ SCODS !! "TSG" = Some "30-NOV" /\ SCODS !! "MSG" = Some "30-SEP"
  /\ SCODS !! "SMS" = Some "31-JUL".
Proof. repeat split; vm_compute; reflexivity. Qed.

Lemma accounting_date_at (g scod : string) (y m d y' m' d' : Z) :
  SCODS !! g = Some scod ->
  (scod, (m, d)) ∈ [ ("31-MAR", (3, 31)); ("31-JAN", (1, 31));
                     ("30-NOV", (11, 30)); ("30-SEP", (9, 30));
                     ("31-JUL", (7, 31)) ] ->
  1000 <= y <= 9999 ->
  1 <= y' <= 9999 -> 1 <= m' <= 12 -> 1 <= d' <= _DAYS_IN_MONTH m' ->
  _ymd2ord y m d - 119 = _ymd2ord y' m' d' ->
  get_accounting_date g y = Ok ("03 " +:+ month_name m' +:+ " " +:+ fmt_Y y').
Proof.
  intros Hg Hin Hy Hy' Hm' Hd' Hord.
  pose proof (strptime_scod scod m d y Hin Hy) as Hparse.
  destruct (scod_offset scod m d y Hin ltac:(lia)) as (Hv & _).
  pose proof (check_date_fields_31 y' m' d' Hy' Hm' Hd') as Hv'.
  eapply get_accounting_date_from; eauto.
  apply sub_relativedelta_days_to; assumption.
Qed.

(** X3. The accounting date of each cycle, for a four-digit year: the 3rd
    of December or of October of the year before for SRA and SSG, the 3rd
    of August, June and April of the year itself for TSG, MSG and SMS. *)
Theorem get_accounting_date_by_grade (y : Z) :
  1000 <= y <= 9999 ->
  get_accounting_date "SRA" y = Ok ("03 December " +:+ str_int (y - 1))
  /\ get_accounting_date "SSG" y = Ok ("03 October " +:+ str_int (y - 1))
  /\ get_accounting_date "TSG" y = Ok ("03 August " +:+ str_int y)
  /\ get_accounting_date "MSG" y = Ok ("03 June " +:+ str_int y)
  /\ get_accounting_date "SMS" y = Ok ("03 April " +:+ str_int y).
Proof.
  intros Hy. destruct scod_lookup as (Hsra & Hssg & Htsg & Hmsg & Hsms).
  pose proof (days_before_year_pred y) as Hpred.
  repeat split.
  - apply (accounting_date_at "SRA" "31-MAR" y 3 31 (y - 1) 12
             (if _is_leap y then 3 else 2) Hsra); try lia.
    + in_list.
    + unfold _DAYS_IN_MONTH; simpl; destruct (_is_leap y); lia.
    + unfold _ymd2ord, _days_before_month, _DAYS_BEFORE_MONTH. simpl.
      rewrite Hpred. destruct (_is_leap y), (_is_leap (y - 1)); lia.
  - apply (accounting_date_at "SSG" "31-JAN" y 1 31 (y - 1) 10 4 Hssg); try lia.
    + in_list.
    + unfold _DAYS_IN_MONTH; simpl; lia.
    + unfold _ymd2ord, _days_before_month, _DAYS_BEFORE_MONTH. simpl.
      rewrite Hpred. destruct (_is_leap (y - 1)); lia.
  - apply (accounting_date_at "TSG" "30-NOV" y 11 30 y 8 3 Htsg); try lia.
    + in_list.
    + unfold _DAYS_IN_MONTH; simpl; lia.
    + unfold _ymd2ord, _days_before_month, _DAYS_BEFORE_MONTH. simpl.
      destruct (_is_leap y); lia.
  - apply (accounting_date_at "MSG" "30-SEP" y 9 30 y 6 3 Hmsg); try lia.
    + in_list.
    + unfold _DAYS_IN_MONTH; simpl; lia.
    + unfold _ymd2ord, _days_before_month, _DAYS_BEFORE_MONTH. simpl.
      destruct (_is_leap y); lia.
  - apply (accounting_date_at "SMS" "31-JUL" y 7 31 y 4 3 Hsms); try lia.
    + in_list.
    + unfold _DAYS_IN_MONTH; simpl; lia.
    + unfold _ymd2ord, _days_before_month, _DAYS_BEFORE_MONTH. simpl.
      destruct (_is_leap y); lia.
Qed.

(** *** The decimal spelling of an integer *)

Lemma to_int_normal (z : Z) : Decimal.norm (Z.to_int z) = Z.to_int z.
Proof. rewrite <- DecimalZ.to_of, DecimalZ.of_to. reflexivity. Qed.

Lemma string_of_uint_head (u : Decimal.uint) (c : ascii) (s : string) :
  NilEmpty.string_of_uint u = String c s ->
  c = "0"%char -> exists u', u = Decimal.D0 u' /\ NilEmpty.string_of_uint u' = s.
Proof.
  destruct u; simpl; intros [= <- <-] Hc; try discriminate. eauto.
Qed.

(** [str(n)] has no leading zero, except for ["0"] itself. *)
Lemma str_int_leading_zero (z : Z) (s : string) :
  str_int z = String "0" s -> s = "".
Proof.
  unfold str_int. intros H. pose proof (to_int_normal z) as Hn.
  destruct (Z.to_int z) as [u|u]; simpl in H; [|discriminate].
  unfold NilZero.string_of_uint in H.
  destruct (Decimal.uint_eq_dec u Decimal.Nil) as [-> | Hne].
  - injection H as <-. reflexivity.
  - assert (H' : NilEmpty.string_of_uint u = String "0" s) by (destruct u; auto; contradiction).
    destruct (string_of_uint_head u _ _ H' eq_refl) as (u' & -> & Hs).
    simpl in Hn. injection Hn as Hn. unfold Decimal.unorm in Hn. simpl in Hn.
    destruct u'; [simpl in Hs; congruence| | | | | | | | | |].
    all: exfalso;
      match type of Hn with
      | match Decimal.nzhead ?x with _ => _ end = _ =>
        pose proof (DecimalFacts.nb_digits_nzhead x) as Hd;
        destruct (Decimal.nzhead x) eqn:E; try discriminate;
        rewrite Hn in Hd; simpl in Hd; lia
      end.
Qed.

Lemma to_int_not_nil (z : Z) :
  Z.to_int z <> Decimal.Pos Decimal.Nil /\ Z.to_int z <> Decimal.Neg Decimal.Nil.
Proof.
  pose proof (to_int_normal z) as Hn.
  split; intros E; rewrite E in Hn; discriminate.
Qed.

Lemma str_int_inj (a b : Z) : str_int a = str_int b -> a = b.
Proof.
  unfold str_int. intros H. apply DecimalZ.to_int_inj.
  destruct (to_int_not_nil a) as [Ha1 Ha2], (to_int_not_nil b) as [Hb1 Hb2].
  pose proof (NilZero.isi _ Ha1 Ha2) as Ia.
  pose proof (NilZero.isi _ Hb1 Hb2) as Ib.
  rewrite H in Ia. congruence.
Qed.

Lemma digit_val_inj (c d : ascii) :
  _strptime.digit_val c = _strptime.digit_val d -> c = d.
Proof.
  unfold _strptime.digit_val. intros H.
  assert (E : N_of_ascii c = N_of_ascii d) by lia.
  rewrite <- (ascii_N_embedding c), <- (ascii_N_embedding d), E. reflexivity.
Qed.

Lemma is_digit_range (c : ascii) :
  _strptime.is_digit c = true -> 0 <= _strptime.digit_val c <= 9.
Proof.
  unfold _strptime.is_digit, _strptime.digit_val.
  rewrite andb_true_iff, !N.leb_le. lia.
Qed.

(** A four-digit spelling is the spelling of one integer only, and that
    integer has four digits. *)
Lemma four_digits_str_int (y v : Z) :
  four_digits v (str_int y) = true -> y = v /\ 1000 <= y <= 9999.
Proof.
  intros H. destruct (str_int y) as [|c1 [|c2 [|c3 [|c4 [|c5 s]]]]] eqn:Hs;
    try discriminate.
  simpl in H. rewrite !andb_true_iff, Z.eqb_eq in H.
  destruct H as [[[[H1 H2] H3] H4] Hv].
  pose proof (is_digit_range _ H1) as R1. pose proof (is_digit_range _ H2) as R2.
  pose proof (is_digit_range _ H3) as R3. pose proof (is_digit_range _ H4) as R4.
  destruct (Z.eq_dec (_strptime.digit_val c1) 0) as [Hz | Hnz].
  - assert (c1 = "0"%char) as -> by (apply digit_val_inj; rewrite Hz; reflexivity).
    apply str_int_leading_zero in Hs. discriminate.
  - assert (Hr : 1000 <= v <= 9999) by lia.
    pose proof (str_int_four_digits v Hr) as Hv'.
    destruct (str_int v) as [|d1 [|d2 [|d3 [|d4 [|d5 s]]]]] eqn:Hsv;
      try discriminate.
    simpl in Hv'. rewrite !andb_true_iff, Z.eqb_eq in Hv'.
    destruct Hv' as [[[[G1 G2] G3] G4] Gv].
    pose proof (is_digit_range _ G1). pose proof (is_digit_range _ G2).
    pose proof (is_digit_range _ G3). pose proof (is_digit_range _ G4).
    assert (c1 = d1) as -> by (apply digit_val_inj; lia).
    assert (c2 = d2) as -> by (apply digit_val_inj; lia).
    assert (c3 = d3) as -> by (apply digit_val_inj; lia).
    assert (c4 = d4) as -> by (apply digit_val_inj; lia).
    assert (y = v) by (apply str_int_inj; congruence).
    lia.
Qed.

Lemma match_Y_inv (s : string) (v : Z) :
  _strptime.match_Y s = Some (v, "") -> four_digits v s = true.
Proof.
  destruct s as [|c1 [|c2 [|c3 [|c4 s]]]]; try discriminate. simpl.
  destruct (_ && _) eqn:Hd; [|discriminate].
  intros [= <- ->]. rewrite Z.eqb_refl. reflexivity.
Qed.

(** A SCOD followed by anything but a four-digit year does not parse. *)
Lemma strptime_scod_inv (scod : string) (m d : Z) (tail : string)
    (dt : datetime) :
  (scod, (m, d)) ∈ [ ("31-MAR", (3, 31)); ("31-JAN", (1, 31));
                     ("30-NOV", (11, 30)); ("30-SEP", (9, 30));
                     ("31-JUL", (7, 31)) ] ->
  _strptime.strptime_d_b_Y (scod +:+ "-" +:+ tail) = Ok dt ->
  exists v, four_digits v tail = true.
Proof.
  intros Hin.
  repeat (apply elem_of_cons in Hin as [[= -> -> ->] | Hin];
    [ unfold _strptime.strptime_d_b_Y; simpl;
      unfold _strptime.match_tail; simpl;
      change ("" +:+ tail) with tail;
      destruct (_strptime.match_Y tail) as [[v rest]|] eqn:HY; simpl;
      [ destruct (String.eqb_spec rest "") as [-> | Hne]; [|discriminate];
        intros _; exists v; apply match_Y_inv, HY
      | discriminate ] | ]).
  apply elem_of_nil in Hin. contradiction.
Qed.

(** X4. [get_accounting_date] returns the error text exactly when the
    grade is not a key of SCODS or the year is not a four-digit number. *)
Theorem get_accounting_date_error_iff (g : string) (y : Z) :
  get_accounting_date g y = Ok "Error calculating date"
  <-> SCODS !! g = None \/ y < 1000 \/ 9999 < y.
Proof.
  split.
  - intros Herr.
    destruct (SCODS !! g) as [scod|] eqn:Hg; [|auto]. right.
    destruct (Z_lt_le_dec y 1000) as [|Hlo]; [auto|].
    destruct (Z_lt_le_dec 9999 y) as [|Hhi]; [auto|]. exfalso.
    destruct (SCODS_entry g scod Hg) as (m & d & Hin).
    pose proof (strptime_scod scod m d y Hin ltac:(lia)) as Hparse.
    destruct (scod_offset scod m d y Hin ltac:(lia))
      as (Hv & y' & m' & d' & Hv' & Hord & _).
    pose proof (sub_relativedelta_days_to y m d 119 y' m' d' Hv Hv' Hord) as Hoff.
    rewrite (get_accounting_date_from g scod y m d y' m' d' Hg Hparse Hoff Hv')
      in Herr.
    discriminate.
  - intros [Hnone | Hy].
    + unfold get_accounting_date. rewrite Hnone.
      change (fstr_opt None +:+ "-" +:+ str_int y)
        with ("None" +:+ ("-" +:+ str_int y)).
      rewrite strptime_None. reflexivity.
    + destruct (SCODS !! g) as [scod|] eqn:Hg.
      * destruct (SCODS_entry g scod Hg) as (m & d & Hin).
        unfold get_accounting_date. rewrite Hg. cbn [fstr_opt].
        destruct (_strptime.strptime_d_b_Y _) as [dt|e] eqn:Hparse;
          [|reflexivity].
        exfalso. destruct (strptime_scod_inv _ _ _ _ _ Hin Hparse) as [v Hv].
        apply four_digits_str_int in Hv. lia.
      * unfold get_accounting_date. rewrite Hg.
        change (fstr_opt None +:+ "-" +:+ str_int y)
          with ("None" +:+ ("-" +:+ str_int y)).
        rewrite strptime_None. reflexivity.
Qed.

Lemma get_accounting_date_by_grade_witness :
  1000 <= 2025 <= 9999
  /\ get_accounting_date "SRA" 2025 = Ok ("03 December " +:+ str_int (2025 - 1))
  /\ get_accounting_date "SSG" 2025 = Ok ("03 October " +:+ str_int (2025 - 1))
  /\ get_accounting_date "TSG" 2025 = Ok ("03 August " +:+ str_int 2025)
  /\ get_accounting_date "MSG" 2025 = Ok ("03 June " +:+ str_int 2025)
  /\ get_accounting_date "SMS" 2025 = Ok ("03 April " +:+ str_int 2025).
Proof.
  assert (H : 1000 <= 2025 <= 9999) by lia.
  split; [exact H | exact (get_accounting_date_by_grade 2025 H)].
Defined.

End accounting_more.

(** ** The members built by the exemption test *)

Module test_member_facts.
Import pydatetime constants.

Lemma strftime_input (dt : datetime) :
  strftime "%d-%b-%Y" dt
  = fmt_d (day dt) +:+ "-" +:+ month_abbr (month dt) +:+ "-" +:+ fmt_Y (year dt).
Proof.
  change (fmt_d (day dt) +:+ "-" +:+ month_abbr (month dt) +:+ "-"
          +:+ (fmt_Y (year dt) +:+ "")
          = fmt_d (day dt) +:+ "-" +:+ month_abbr (month dt) +:+ "-"
            +:+ fmt_Y (year dt)).
  rewrite accounting_facts.append_nil_r. reflexivity.
Qed.

(** The month abbreviation and the year are read back. *)
Lemma match_tail_month_year (m y : Z) (s : string) :
  1 <= m <= 12 -> four_digits y s = true ->
  _strptime.match_tail ("-" +:+ month_abbr m +:+ "-" +:+ s) = Some (m, y, "").
Proof.
  intros Hm Hs. apply accounting_facts.match_Y_four_digits in Hs.
  assert (Hc : m ∈ seqZ 1 12) by (apply elem_of_seqZ; lia).
  unfold seqZ in Hc. simpl in Hc.
  repeat (apply elem_of_cons in Hc as [-> | Hc];
    [ unfold _strptime.match_tail; simpl; change ("" +:+ s) with s;
      rewrite Hs; reflexivity | ]).
  apply elem_of_nil in Hc. contradiction.
Qed.

(** A two-digit day followed by a tail that parses is read back. *)
Lemma first_match_day (d m y : Z) (tail rest : string) :
  1 <= d <= 31 ->
  _strptime.match_tail tail = Some (m, y, rest) ->
  _strptime.first_match (_strptime.match_d (fmt_d d +:+ tail))
  = Some (d, m, y, rest).
Proof.
  intros Hd Ht.
  assert (Hc : d ∈ seqZ 1 31) by (apply elem_of_seqZ; lia).
  vm_compute in Hc.
  repeat (apply elem_of_cons in Hc as [-> | Hc];
    [ match goal with
      | |- context [fmt_d ?k] =>
        let v := eval vm_compute in (fmt_d k) in change (fmt_d k) with v
      end;
      simpl; change ("" +:+ tail) with tail; rewrite Ht; reflexivity | ]).
  apply elem_of_nil in Hc. contradiction.
Qed.

(** Writing a date with [%d-%b-%Y] and reading it back gives the date. *)
Lemma strptime_strftime (dt : datetime) :
  valid dt = true -> 1000 <= year dt <= 9999 ->
  _strptime.strptime_d_b_Y (strftime "%d-%b-%Y" dt)
  = Ok (mk_datetime (year dt) (month dt) (day dt) 0 0 0 0).
Proof.
  intros Hv Hy. unfold valid in Hv. apply andb_true_iff in Hv as [Hdate _].
  pose proof (accounting_facts.check_date_fields_inv _ _ _ Hdate) as (_ & Hm & Hd).
  assert (Hd31 : 1 <= day dt <= 31).
  { rewrite calendar_facts.days_in_month_eq in Hd. unfold _DAYS_IN_MONTH in Hd.
    destruct (month dt =? 2); simpl in Hd.
    - destruct (_is_leap (year dt)); lia.
    - destruct (_ || _); lia. }
  rewrite strftime_input. unfold _strptime.strptime_d_b_Y.
  rewrite (first_match_day (day dt) (month dt) (year dt) _ ""); [|exact Hd31|].
  - simpl. unfold new. rewrite Hdate. reflexivity.
  - apply match_tail_month_year; [exact Hm|].
    apply accounting_facts.str_int_four_digits, Hy.
Qed.

Lemma clamp_day (y y' m d : Z) :
  _check_date_fields y m d = true ->
  Z.min (monthrange_ndays y' m) d
  = if (m =? 2) && (d =? 29) && negb (_is_leap y') then 28 else d.
Proof.
  intros Hv. apply accounting_facts.check_date_fields_inv in Hv as (_ & Hm & Hd).
  rewrite calendar_facts.days_in_month_eq in Hd.
  unfold monthrange_ndays. unfold _DAYS_IN_MONTH in *.
  destruct (m =? 2) eqn:Em; simpl in *.
  - destruct (_is_leap y), (_is_leap y'), (d =? 29) eqn:Ed; simpl;
      rewrite ?Z.eqb_eq, ?Z.eqb_neq in Ed; lia.
  - destruct (_ || _); lia.
Qed.

Lemma add_relativedelta_years_ok (dt : datetime) (ys : Z) :
  valid dt = true -> 1 <= year dt + ys <= 9999 ->
  add_relativedelta dt ys 0
  = Ok (mk_datetime (year dt + ys) (month dt)
          (if (month dt =? 2) && (day dt =? 29) && negb (_is_leap (year dt + ys))
           then 28 else day dt)
          (hour dt) (minute dt) (second dt) (microsecond dt)).
Proof.
  intros Hv Hy. unfold valid in Hv. apply andb_true_iff in Hv as [Hdate Htime].
  pose proof (accounting_facts.check_date_fields_inv _ _ _ Hdate) as (_ & Hm & Hd).
  unfold add_relativedelta, replace_date.
  rewrite (clamp_day (year dt) _ _ _ Hdate).
  set (d' := if (month dt =? 2) && (day dt =? 29) && negb (_is_leap (year dt + ys))
             then 28 else day dt).
  assert (Hd' : _check_date_fields (year dt + ys) (month dt) d' = true).
  { unfold _check_date_fields, MINYEAR, MAXYEAR.
    rewrite !andb_true_iff, !Z.leb_le. repeat split; try lia.
    - unfold d'. destruct (_ && _); lia.
    - unfold d'. rewrite calendar_facts.days_in_month_eq in *.
      unfold _DAYS_IN_MONTH in *.
      destruct (month dt =? 2) eqn:Em; simpl in *.
      + destruct (_is_leap (year dt)), (_is_leap (year dt + ys)),
          (day dt =? 29) eqn:Ed; simpl;
          rewrite ?Z.eqb_eq, ?Z.eqb_neq in Ed; lia.
      + destruct (_ || _); lia. }
  unfold new. rewrite Hd', Htime. cbn [andb bind].
  apply calendar_facts.add_days_0. unfold valid. cbn [year month day hour minute second microsecond].
  rewrite Hd', Htime. reflexivity.
Qed.

Lemma add_relativedelta_years_raise (dt : datetime) (ys : Z) :
  ~ 1 <= year dt + ys <= 9999 -> add_relativedelta dt ys 0 = Raise ValueError.
Proof.
  intros Hy. unfold add_relativedelta, replace_date, new.
  replace (_check_date_fields _ _ _) with false; [reflexivity|].
  symmetry. unfold _check_date_fields, MINYEAR, MAXYEAR.
  destruct (1 <=? year dt + ys) eqn:E1; [|reflexivity].
  destruct (year dt + ys <=? 9999) eqn:E2; [|reflexivity].
  apply Z.leb_le in E1, E2. lia.
Qed.

(** The two tenure tables have the same grades, two years apart. *)
Lemma tenure_tables (g : string) :
  (forall m, MAIN_HIGHER_TENURE !! g = Some m ->
     EXCEPTION_HIGHER_TENURE !! g = Some (m + 2) /\ 6 <= m <= 26)
  /\ (MAIN_HIGHER_TENURE !! g = None -> EXCEPTION_HIGHER_TENURE !! g = None).
Proof.
  split.
  - intros m Hm. apply elem_of_list_to_map_2 in Hm.
    unfold MAIN_HIGHER_TENURE_items in Hm.
    repeat (apply elem_of_cons in Hm as [[= -> ->] | Hm];
            [split; [vm_compute; reflexivity | lia] | ]).
    apply elem_of_nil in Hm. contradiction.
  - intros Hn. apply not_elem_of_list_to_map_2 in Hn.
    apply not_elem_of_list_to_map_1. exact Hn.
Qed.



Lemma create_test_member_run (name grade description : string) (y m : Z)
    (tafmsd_date dor_date : datetime) :
  valid tafmsd_date = true ->
  MAIN_HIGHER_TENURE !! grade = Some m ->
  hyt_test_exemption.create_test_member name grade y tafmsd_date dor_date description
  = if decide (year tafmsd_date + m + 2 <= 9999) then
      Ok (hyt_test_exemption.mk_member name grade y (strftime "%d-%b-%Y" dor_date) None None
            (strftime "%d-%b-%Y" tafmsd_date) None "3S0X1" None None None
            description (shifted tafmsd_date m) (shifted tafmsd_date (m + 2)))
    else Raise ValueError.
Proof.
  intros Hv Hm. destruct (proj1 (tenure_tables grade) m Hm) as [He Hr].
  assert (Hy : 1 <= year tafmsd_date).
  { unfold valid in Hv. apply andb_true_iff in Hv as [Hd _].
    apply accounting_facts.check_date_fields_inv in Hd. lia. }
  unfold hyt_test_exemption.create_test_member, hyt_test_exemption.add_tenure_years. rewrite Hm, He.
  destruct (decide (year tafmsd_date + m + 2 <= 9999)) as [Hle | Hgt].
  - rewrite !add_relativedelta_years_ok by (assumption || lia). reflexivity.
  - destruct (decide (year tafmsd_date + m <= 9999)).
    + rewrite (add_relativedelta_years_ok _ m) by (assumption || lia).
      cbn [bind].
      rewrite add_relativedelta_years_raise by lia. reflexivity.
    + rewrite add_relativedelta_years_raise by lia. reflexivity.
Qed.

(** X5. For a valid service date, [create_test_member] returns a member
    exactly when the grade is in the tenure tables and the exception date
    stays within year 9999; an unknown grade raises [TypeError], a date
    beyond year 9999 raises [ValueError]. *)
Theorem create_test_member_ok_iff (name grade description : string) (y : Z)
    (tafmsd_date dor_date : datetime) :
  valid tafmsd_date = true ->
  ((exists mem,
      hyt_test_exemption.create_test_member name grade y tafmsd_date dor_date description = Ok mem)
   <-> exists m, MAIN_HIGHER_TENURE !! grade = Some m
                 /\ year tafmsd_date + m + 2 <= 9999)
  /\ (MAIN_HIGHER_TENURE !! grade = None ->
      hyt_test_exemption.create_test_member name grade y tafmsd_date dor_date description
      = Raise TypeError)
  /\ (forall m, MAIN_HIGHER_TENURE !! grade = Some m ->
        9999 < year tafmsd_date + m + 2 ->
        hyt_test_exemption.create_test_member name grade y tafmsd_date dor_date description
        = Raise ValueError).
Proof.
  intros Hv. split; [split|split].
  - intros [mem Hmem]. destruct (MAIN_HIGHER_TENURE !! grade) as [m|] eqn:Hm.
    + exists m. split; [reflexivity|].
      rewrite (create_test_member_run _ _ _ _ m _ _ Hv Hm) in Hmem.
      destruct (decide _); [assumption|discriminate].
    + unfold hyt_test_exemption.create_test_member, hyt_test_exemption.add_tenure_years in Hmem. rewrite Hm in Hmem.
      discriminate.
  - intros (m & Hm & Hle). rewrite (create_test_member_run _ _ _ _ m _ _ Hv Hm).
    rewrite decide_True by exact Hle. eauto.
  - intros Hn. unfold hyt_test_exemption.create_test_member, hyt_test_exemption.add_tenure_years. rewrite Hn.
    reflexivity.
  - intros m Hm Hgt. rewrite (create_test_member_run _ _ _ _ m _ _ Hv Hm).
    rewrite decide_False by lia. reflexivity.
Qed.

(** X6. The two dates of a test member keep the month of the service date,
    their years are the service year plus the main limit and two years
    more, and the day is kept except that 29 February falls back to 28
    February in a target year that is not a leap year; the exception date
    is strictly later than the main one. *)
Theorem test_member_hyt_dates (name grade description : string) (y : Z)
    (tafmsd_date dor_date : datetime) (mem : hyt_test_exemption.member) :
  valid tafmsd_date = true ->
  hyt_test_exemption.create_test_member name grade y tafmsd_date dor_date description = Ok mem ->
  exists m,
    MAIN_HIGHER_TENURE !! grade = Some m
    /\ EXCEPTION_HIGHER_TENURE !! grade = Some (m + 2)
    /\ year (hyt_test_exemption.expected_hyt_date mem) = year tafmsd_date + m
    /\ year (hyt_test_exemption.exception_hyt_date mem) = year (hyt_test_exemption.expected_hyt_date mem) + 2
    /\ month (hyt_test_exemption.expected_hyt_date mem) = month tafmsd_date
    /\ month (hyt_test_exemption.exception_hyt_date mem) = month tafmsd_date
    /\ day (hyt_test_exemption.expected_hyt_date mem)
       = (if (month tafmsd_date =? 2) && (day tafmsd_date =? 29)
             && negb (_is_leap (year tafmsd_date + m))
          then 28 else day tafmsd_date)
    /\ day (hyt_test_exemption.exception_hyt_date mem)
       = (if (month tafmsd_date =? 2) && (day tafmsd_date =? 29)
             && negb (_is_leap (year tafmsd_date + m + 2))
          then 28 else day tafmsd_date)
    /\ lt (hyt_test_exemption.expected_hyt_date mem) (hyt_test_exemption.exception_hyt_date mem) = true.
Proof.
  intros Hv Hmem. destruct (MAIN_HIGHER_TENURE !! grade) as [m|] eqn:Hm.
  - rewrite (create_test_member_run _ _ _ _ m _ _ Hv Hm) in Hmem.
    destruct (decide _); [|discriminate]. injection Hmem as <-.
    destruct (proj1 (tenure_tables grade) m Hm) as [He _].
    exists m. cbn [hyt_test_exemption.expected_hyt_date hyt_test_exemption.exception_hyt_date shifted year month day].
    split; [reflexivity|]. split; [exact He|]. split; [reflexivity|].
    split; [lia|]. split; [reflexivity|]. split; [reflexivity|].
    split; [reflexivity|]. split; [rewrite Z.add_assoc; reflexivity|].
    unfold lt. rewrite datetime_facts.cmp_year_lt; [reflexivity|].
    cbn [year shifted]. lia.
  - unfold hyt_test_exemption.create_test_member, hyt_test_exemption.add_tenure_years in Hmem. rewrite Hm in Hmem.
    discriminate.
Qed.

(** X7. The date strings stored in a test member, written with
    [%d-%b-%Y], parse back under the same format to the dates they were
    written from, at midnight. *)
Theorem test_member_strings_parse_back (name grade description : string) (y : Z)
    (tafmsd_date dor_date : datetime) (mem : hyt_test_exemption.member) :
  valid tafmsd_date = true -> valid dor_date = true ->
  1000 <= year tafmsd_date -> 1000 <= year dor_date ->
  hyt_test_exemption.create_test_member name grade y tafmsd_date dor_date description = Ok mem ->
  _strptime.strptime_d_b_Y (hyt_test_exemption.tafmsd mem)
  = Ok (mk_datetime (year tafmsd_date) (month tafmsd_date) (day tafmsd_date)
          0 0 0 0)
  /\ _strptime.strptime_d_b_Y (hyt_test_exemption.date_of_rank mem)
     = Ok (mk_datetime (year dor_date) (month dor_date) (day dor_date) 0 0 0 0).
Proof.
  intros Hv Hvd Hy Hyd Hmem.
  assert (Hup : forall dt, valid dt = true -> year dt <= 9999).
  { intros dt H. unfold valid in H. apply andb_true_iff in H as [H _].
    apply accounting_facts.check_date_fields_inv in H. lia. }
  destruct (MAIN_HIGHER_TENURE !! grade) as [m|] eqn:Hm.
  - rewrite (create_test_member_run _ _ _ _ m _ _ Hv Hm) in Hmem.
    destruct (decide _); [|discriminate]. injection Hmem as <-.
    cbn [hyt_test_exemption.tafmsd hyt_test_exemption.date_of_rank].
    split; apply strptime_strftime; auto; split; auto.
  - unfold hyt_test_exemption.create_test_member, hyt_test_exemption.add_tenure_years in Hmem. rewrite Hm in Hmem.
    discriminate.
Qed.

Lemma create_test_member_ok_iff_witness :
  valid (mk_datetime 2004 6 15 0 0 0 0) = true
  /\ (exists mem,
        hyt_test_exemption.create_test_member "A" "SSG" 2024
          (mk_datetime 2004 6 15 0 0 0 0) (mk_datetime 2019 3 1 0 0 0 0) "d"
        = Ok mem)
  /\ hyt_test_exemption.create_test_member "A" "CMS" 2024
       (mk_datetime 2004 6 15 0 0 0 0) (mk_datetime 2019 3 1 0 0 0 0) "d"
     = Raise TypeError.
Proof.
  assert (Hv : valid (mk_datetime 2004 6 15 0 0 0 0) = true) by reflexivity.
  split; [exact Hv|]. split.
  - apply (create_test_member_ok_iff "A" "SSG" "d" 2024 _
             (mk_datetime 2019 3 1 0 0 0 0) Hv).
    exists 20. split; [vm_compute; reflexivity | simpl; lia].
  - apply (create_test_member_ok_iff "A" "CMS" "d" 2024 _
             (mk_datetime 2019 3 1 0 0 0 0) Hv).
    vm_compute. reflexivity.
Defined.

Lemma test_member_hyt_dates_witness :
  valid (mk_datetime 2004 2 29 0 0 0 0) = true
  /\ exists mem,
       hyt_test_exemption.create_test_member "A" "SSG" 2024
         (mk_datetime 2004 2 29 0 0 0 0) (mk_datetime 2019 3 1 0 0 0 0) "d"
       = Ok mem
       /\ day (hyt_test_exemption.expected_hyt_date mem) = 29
       /\ day (hyt_test_exemption.exception_hyt_date mem) = 28
       /\ lt (hyt_test_exemption.expected_hyt_date mem)
            (hyt_test_exemption.exception_hyt_date mem) = true.
Proof.
  assert (Hv : valid (mk_datetime 2004 2 29 0 0 0 0) = true) by reflexivity.
  split; [exact Hv|].
  destruct (hyt_test_exemption.create_test_member "A" "SSG" 2024
              (mk_datetime 2004 2 29 0 0 0 0) (mk_datetime 2019 3 1 0 0 0 0) "d")
    as [mem|] eqn:Hmem; [|vm_compute in Hmem; discriminate].
  exists mem. split; [reflexivity|].
  destruct (test_member_hyt_dates _ _ _ _ _ _ mem Hv Hmem)
    as (m & Hm & _ & _ & _ & _ & _ & Hd1 & Hd2 & Hlt).
  assert (m = 20) as -> by (vm_compute in Hm; congruence).
  split; [exact Hd1|]. split; [exact Hd2 | exact Hlt].
Defined.

Lemma test_member_strings_parse_back_witness :
  valid (mk_datetime 2004 6 15 0 0 0 0) = true
  /\ valid (mk_datetime 2019 3 1 0 0 0 0) = true
  /\ exists mem,
       hyt_test_exemption.test_member_2 = Ok mem
       /\ hyt_test_exemption.tafmsd mem = "15-Jun-2004"
       /\ _strptime.strptime_d_b_Y (hyt_test_exemption.tafmsd mem)
          = Ok (mk_datetime 2004 6 15 0 0 0 0)
       /\ _strptime.strptime_d_b_Y (hyt_test_exemption.date_of_rank mem)
          = Ok (mk_datetime 2019 3 1 0 0 0 0).
Proof.
  assert (Hv : valid (mk_datetime 2004 6 15 0 0 0 0) = true) by reflexivity.
  assert (Hd : valid (mk_datetime 2019 3 1 0 0 0 0) = true) by reflexivity.
  split; [exact Hv|]. split; [exact Hd|].
  destruct hyt_test_exemption.test_member_2 as [mem|] eqn:Hmem;
    [|vm_compute in Hmem; discriminate].
  exists mem. split; [reflexivity|].
  split; [vm_compute in Hmem; injection Hmem as <-; reflexivity|].
  unfold hyt_test_exemption.test_member_2 in Hmem.
  apply (test_member_strings_parse_back _ _ _ _ _ _ mem Hv Hd
           ltac:(simpl; lia) ltac:(simpl; lia) Hmem).
Defined.

End test_member_facts.

(** ** The calls to [generate_pascode_pdf], unit by unit *)

Module roster_job_facts.
Import initial_mel_generator roster_jobs.
Local Open Scope nat_scope.

Lemma match_rows {D : Type} (l1 l2 l3 : list (list string)) (X Y : D) :
  match l1, l2, l3 with
  | [], [], [] => X
  | _, _, _ => Y
  end = if bool_decide (l1 = [] /\ l2 = [] /\ l3 = []) then X else Y.
Proof.
  destruct l1, l2, l3; try reflexivity.
Qed.

Section job_facts.

Variable get_promotion_eligibility : nat -> string -> result (Z * Z).
Variable doc_build : pascode_job -> bool.
Variable s : session.
Variables eligible ineligible btz : list (list string).
Variable last : option string.

Abbreviation loop := (pascode_loop get_promotion_eligibility doc_build s
                    eligible ineligible btz last).
Abbreviation jobs_of := (pascode_jobs get_promotion_eligibility s
                    eligible ineligible btz last).
Abbreviation job := (job_of s eligible ineligible btz last).

Abbreviation emit := (roster_jobs.emit doc_build).

Lemma emit_nil (acc : emitted) : emit acc [] = acc.
Proof. unfold emit. simpl. rewrite !app_nil_r. destruct acc; reflexivity. Qed.

(** The loop renders the jobs of [pascode_jobs], one after the other. *)
Lemma loop_jobs (todo : list string) (acc : emitted) :
  loop todo acc = (jobs <-! jobs_of todo ;; Ok (emit acc jobs)).
Proof.
  revert acc. induction todo as [|p todo IH]; intros acc; simpl.
  - rewrite emit_nil. reflexivity.
  - destruct (pascode_map s !! p) as [info|]; [|apply IH].
    assert (Hstep :
      (quota <-! get_promotion_eligibility (length (rows_of 7 p eligible)) (cycle s) ;;
       loop todo
         match generate_pascode_pdf doc_build (job p info quota) with
         | Some temp_pdf =>
           {| temp_pdfs := temp_pdfs acc ++ [temp_pdf];
              rendered := rendered acc ++ [p] |}
         | None =>
           {| temp_pdfs := temp_pdfs acc; rendered := rendered acc ++ [p] |}
         end)
      = (jobs <-!
           (quota <-! get_promotion_eligibility
                        (length (rows_of 7 p eligible)) (cycle s) ;;
            rest <-! jobs_of todo ;; Ok (job p info quota :: rest)) ;;
         Ok (emit acc jobs))).
    { destruct (get_promotion_eligibility _ _) as [quota|]; [|reflexivity].
      cbn [bind]. rewrite IH.
      destruct (jobs_of todo) as [rest|]; [|reflexivity]. cbn [bind].
      f_equal. unfold emit. cbn [omap list_omap fmap list_fmap].
      change (job_pascode (job p info quota)) with p.
      destruct (generate_pascode_pdf doc_build (job p info quota));
        cbn [temp_pdfs rendered]; rewrite <- ?app_assoc; reflexivity. }
    rewrite !match_rows. destruct (bool_decide _); [apply IH|exact Hstep].
Qed.

(** Each job is the job of a PASCODE that has an entry in [pascode_map]
    and rows, built with the quota of its eligible rows. *)
Lemma jobs_spec (todo : list string) (jobs : list pascode_job) :
  jobs_of todo = Ok jobs ->
  Forall2 (fun p j =>
             exists info q,
               pascode_map s !! p = Some info
               /\ get_promotion_eligibility (length (rows_of 7 p eligible))
                    (cycle s) = Ok q
               /\ j = job p info q)
    (filter (fun p => is_Some (pascode_map s !! p)
                      /\ has_rows eligible ineligible btz p) todo) jobs.
Proof.
  revert jobs. induction todo as [|p todo IH]; intros jobs; simpl.
  - intros [= <-]. constructor.
  - destruct (pascode_map s !! p) as [info|] eqn:Hinfo.
    + rewrite match_rows.
      destruct (bool_decide _) eqn:Hb.
      * apply bool_decide_eq_true in Hb. intros H.
        rewrite filter_cons_False; [apply IH, H|].
        unfold has_rows. tauto.
      * apply bool_decide_eq_false in Hb.
        destruct (get_promotion_eligibility _ _) as [q|] eqn:Hq; [|discriminate].
        cbn [bind]. destruct (jobs_of todo) as [rest|]; [|discriminate].
        cbn [bind]. intros [= <-].
        rewrite filter_cons_True.
        -- constructor; [eauto|apply IH; reflexivity].
        -- split; [eauto|]. unfold has_rows.
           destruct (rows_of 7 p eligible); [|left; discriminate].
           destruct (rows_of 2 p ineligible); [|right; left; discriminate].
           destruct (rows_of 7 p btz); [tauto|right; right; discriminate].
    + intros H. rewrite filter_cons_False; [apply IH, H|].
      intros [[? ?] _]. congruence.
Qed.

Lemma jobs_pascodes (todo : list string) (jobs : list pascode_job) :
  jobs_of todo = Ok jobs ->
  job_pascode <$> jobs
  = filter (fun p => is_Some (pascode_map s !! p)
                     /\ has_rows eligible ineligible btz p) todo.
Proof.
  intros H. apply jobs_spec in H.
  induction H as [|p j ps js (info & q & _ & _ & ->) _ IH]; [reflexivity|].
  simpl. f_equal. exact IH.
Qed.

End job_facts.

Lemma rows_of_elem (i : nat) (p : string) (data : list (list string))
    (r : list string) :
  r ∈ rows_of i p data <-> r ∈ data /\ r !! i = Some p.
Proof.
  unfold rows_of. rewrite list_elem_of_In, filter_In, <- list_elem_of_In.
  destruct (r !! i) as [q|]; [|intuition discriminate].
  rewrite String.eqb_eq. intuition congruence.
Qed.

Lemma generate_via_jobs
    (get_promotion_eligibility : nat -> string -> result (Z * Z))
    (doc_build : pascode_job -> bool) (s : session) :
  generate_roster_pdf get_promotion_eligibility doc_build s
  = match session_jobs get_promotion_eligibility s with
    | Ok jobs =>
      match omap (generate_pascode_pdf doc_build) jobs with
      | [] => None
      | pdfs => Some {| temp_pdfs := pdfs; rendered := job_pascode <$> jobs |}
      end
    | Raise _ => None
    end.
Proof.
  unfold generate_roster_pdf, session_jobs.
  destruct (ineligible_rows s) as [ineligible|]; [|reflexivity]. cbn [bind].
  destruct (sorted_pascodes _ _ _) as [|p ps] eqn:Hps; [reflexivity|].
  rewrite loop_jobs.
  destruct (pascode_jobs _ _ _ _ _ _ _) as [jobs|]; [|reflexivity].
  cbn [bind]. unfold emit. cbn [temp_pdfs rendered app].
  destruct (omap _ jobs); reflexivity.
Qed.

(** The jobs of a session, spelled out. *)
Lemma session_jobs_spec
    (get_promotion_eligibility : nat -> string -> result (Z * Z))
    (s : session) (jobs : list pascode_job) :
  session_jobs get_promotion_eligibility s = Ok jobs ->
  exists ineligible,
    ineligible_rows s = Ok ineligible
    /\ let ps := sorted_pascodes (eligible_rows s) ineligible (btz_rows s) in
       job_pascode <$> jobs = filter (fun p => is_Some (pascode_map s !! p)) ps
       /\ Forall (fun j =>
                    exists info q,
                      pascode_map s !! job_pascode j = Some info
                      /\ get_promotion_eligibility
                           (length (rows_of 7 (job_pascode j) (eligible_rows s)))
                           (cycle s) = Ok q
                      /\ j = job_of s (eligible_rows s) ineligible (btz_rows s)
                               (last ps) (job_pascode j) info q) jobs.
Proof.
  unfold session_jobs.
  destruct (ineligible_rows s) as [ineligible|] eqn:Hi; [|discriminate].
  cbn [bind]. intros H. exists ineligible. split; [reflexivity|]. cbv zeta.
  split.
  - rewrite (jobs_pascodes _ _ _ _ _ _ _ _ H).
    apply roster_pdf_facts.filter_ext_elem. intros p Hp. split; [tauto|].
    intros Hm. split; [exact Hm|].
    apply roster_pdf_facts.sorted_pascodes_has_rows, Hp.
  - apply jobs_spec in H. induction H as [|p j ps js Hj _ IH]; constructor.
    + destruct Hj as (info & q & Hinfo & Hq & ->). exists info, q. auto.
    + exact IH.
Qed.

Lemma string_length_app (a b : string) :
  String.length (a +:+ b) = String.length a + String.length b.
Proof.
  induction a as [|c a IH]; [reflexivity|].
  change (S (String.length (a +:+ b)) = S (String.length a + String.length b)).
  rewrite IH. reflexivity.
Qed.

Lemma string_app_inj_r (a b t : string) : a +:+ t = b +:+ t -> a = b.
Proof.
  revert b. induction a as [|c a IH]; intros [|d b] H.
  - reflexivity.
  - apply (f_equal String.length) in H.
    change (String.length t = S (String.length (b +:+ t))) in H.
    rewrite string_length_app in H. lia.
  - apply (f_equal String.length) in H.
    change (S (String.length (a +:+ t)) = String.length t) in H.
    rewrite string_length_app in H. lia.
  - change (String c (a +:+ t) = String d (b +:+ t)) in H.
    injection H as -> H. f_equal. apply IH, H.
Qed.

(** Two units never share a temporary file. *)
Lemma temp_name_inj (p q : string) : temp_name p = temp_name q -> p = q.
Proof.
  unfold temp_name. intros H.
  change (String "t" (String "e" (String "m" (String "p" (String "_" (p +:+ ".pdf")))))
          = String "t" (String "e" (String "m" (String "p" (String "_" (q +:+ ".pdf"))))))
    in H.
  injection H as H. eapply string_app_inj_r, H.
Qed.

Lemma omap_build (doc_build : pascode_job -> bool) (jobs : list pascode_job) :
  omap (generate_pascode_pdf doc_build) jobs
  = output_filename <$> filter (fun j => doc_build j = true) jobs.
Proof.
  induction jobs as [|j jobs IH]; [reflexivity|].
  cbn [omap list_omap]. unfold generate_pascode_pdf at 1.
  destruct (doc_build j) eqn:Hb.
  - rewrite filter_cons_True by exact Hb. rewrite fmap_cons. f_equal. exact IH.
  - rewrite filter_cons_False by congruence. exact IH.
Qed.

Lemma StronglySorted_strict_NoDup (l : list string) :
  StronglySorted (strict String.le) l -> NoDup l.
Proof.
  induction 1 as [|x l _ IH Hall]; constructor; [|exact IH].
  intros Hin. rewrite Forall_forall in Hall. destruct (Hall x Hin) as [_ Hn].
  apply Hn. reflexivity.
Qed.

Section session_facts.

Variable get_promotion_eligibility : nat -> string -> result (Z * Z).
Variable doc_build : pascode_job -> bool.
Variable s : session.

Lemma session_jobs_sorted (jobs : list pascode_job) :
  session_jobs get_promotion_eligibility s = Ok jobs ->
  StronglySorted (strict String.le) (job_pascode <$> jobs).
Proof.
  intros H. destruct (session_jobs_spec _ _ _ H) as (ineligible & _ & Hp & _).
  cbv zeta in Hp. rewrite Hp.
  eapply roster_pdf_facts.StronglySorted_sublist; [apply sublist_filter|].
  apply roster_pdf_facts.sorted_pascodes_ascending.
Qed.

(** X8. The calls to [generate_pascode_pdf] made for a session: their
    PASCODEs are strictly ascending and all have an entry in [pascode_map];
    the three row lists of a call are exactly the session's eligible,
    ineligible and below-the-zone rows that carry its PASCODE (column 8,
    column 3 and column 8); its quota is that of the number of its eligible
    rows; its file is [temp_<pascode>.pdf]. An eligible row of a mapped
    unit is in the call of its unit, one of an unmapped unit is in none. *)
Theorem session_jobs_rows (jobs : list pascode_job) :
  session_jobs get_promotion_eligibility s = Ok jobs ->
  exists ineligible,
    ineligible_rows s = Ok ineligible
    /\ StronglySorted (strict String.le) (job_pascode <$> jobs)
    /\ (forall j, j ∈ jobs ->
          is_Some (pascode_map s !! job_pascode j)
          /\ (forall r, r ∈ eligible_data j
                <-> r ∈ eligible_rows s /\ r !! 7 = Some (job_pascode j))
          /\ (forall r, r ∈ ineligible_data j
                <-> r ∈ ineligible /\ r !! 2 = Some (job_pascode j))
          /\ (forall r, r ∈ btz_data j
                <-> r ∈ btz_rows s /\ r !! 7 = Some (job_pascode j))
          /\ get_promotion_eligibility (length (eligible_data j)) (cycle s)
             = Ok (mp (job_pas_info j), pn (job_pas_info j))
          /\ output_filename j = temp_name (job_pascode j))
    /\ (forall r p, r ∈ eligible_rows s -> r !! 7 = Some p ->
          (is_Some (pascode_map s !! p) ->
           exists j, j ∈ jobs /\ job_pascode j = p /\ r ∈ eligible_data j)
          /\ (pascode_map s !! p = None ->
              forall j, j ∈ jobs -> r ∉ eligible_data j)).
Proof.
  intros H. pose proof (session_jobs_sorted jobs H) as Hsorted.
  destruct (session_jobs_spec _ _ _ H) as (ineligible & Hi & Hp & Hall).
  cbv zeta in Hp, Hall. rewrite Forall_forall in Hall.
  exists ineligible. split; [exact Hi|]. split; [exact Hsorted|]. split.
  - intros j Hj. destruct (Hall j Hj) as (info & q & Hinfo & Hq & Hjob).
    split; [eauto|]. rewrite Hjob.
    cbn [eligible_data ineligible_data btz_data job_pascode job_pas_info
         output_filename job_of mp pn].
    split; [intros r; apply rows_of_elem|].
    split; [intros r; apply rows_of_elem|].
    split; [intros r; apply rows_of_elem|].
    split; [rewrite Hq; destruct q; reflexivity|reflexivity].
  - intros r p Hr Hrp. split.
    + intros Hm.
      assert (Hin : p ∈ job_pascode <$> jobs).
      { rewrite Hp. apply list_elem_of_filter. split; [exact Hm|].
        apply roster_pdf_facts.sorted_pascodes_elem. left. eauto. }
      apply list_elem_of_fmap in Hin as (j & -> & Hj).
      exists j. split; [exact Hj|]. split; [reflexivity|].
      destruct (Hall j Hj) as (info & q & _ & _ & Hjob). rewrite Hjob.
      apply rows_of_elem. auto.
    + intros Hn j Hj Hrj.
      destruct (Hall j Hj) as (info & q & Hinfo & _ & Hjob).
      rewrite Hjob in Hrj. cbn [eligible_data job_of] in Hrj.
      apply rows_of_elem in Hrj as [_ Hrj]. congruence.
Qed.

End session_facts.

Lemma sorted_last_max (l : list string) (x : string) :
  StronglySorted (strict String.le) l -> last l = Some x ->
  forall y, y ∈ l -> String.le y x.
Proof.
  induction 1 as [|a l Hs IH Hall]; intros Hl y Hy.
  - apply elem_of_nil in Hy. contradiction.
  - destruct l as [|b l].
    + apply list_elem_of_singleton in Hy. injection Hl as <-. subst y. reflexivity.
    + change (last (b :: l) = Some x) in Hl.
      apply elem_of_cons in Hy as [-> | Hy]; [|apply IH; assumption].
      rewrite Forall_forall in Hall.
      assert (Hx : x ∈ b :: l).
      { apply last_Some in Hl as [l' Hl']. rewrite Hl'.
        apply elem_of_app. right. apply list_elem_of_here. }
      apply (Hall x Hx).
Qed.

Lemma last_filter_keep {A : Type} (P : A -> Prop) `{forall x, Decision (P x)}
    (l : list A) (x : A) :
  last l = Some x -> P x -> last (filter P l) = Some x.
Proof.
  intros Hl HP. apply last_Some in Hl as [l' ->].
  rewrite filter_app, filter_cons_True by exact HP.
  rewrite filter_nil. apply last_snoc.
Qed.

Section small_unit_facts.

Variable get_promotion_eligibility : nat -> string -> result (Z * Z).
Variable doc_build : pascode_job -> bool.
Variable s : session.

(** The job of a session is determined by its PASCODE. *)
Lemma session_job_unique (jobs : list pascode_job) (j j' : pascode_job) :
  session_jobs get_promotion_eligibility s = Ok jobs ->
  j ∈ jobs -> j' ∈ jobs -> job_pascode j = job_pascode j' -> j = j'.
Proof.
  intros H Hj Hj' Heq.
  destruct (session_jobs_spec _ _ _ H) as (ineligible & _ & _ & Hall).
  cbv zeta in Hall. rewrite Forall_forall in Hall.
  destruct (Hall j Hj) as (info & q & Hinfo & Hq & E).
  destruct (Hall j' Hj') as (info' & q' & Hinfo' & Hq' & E').
  rewrite E, E'. rewrite <- Heq in *. congruence.
Qed.

(** X9. Only the last call of a session can go on to
    [generate_small_unit_pdf]: then its document was built, the session has
    small-unit rows, and its PASCODE is the greatest of all those
    collected. *)
Theorem small_unit_only_last (jobs : list pascode_job) (j : pascode_job) :
  session_jobs get_promotion_eligibility s = Ok jobs ->
  j ∈ jobs ->
  reaches_small_unit doc_build j = true ->
  last jobs = Some j
  /\ doc_build j = true
  /\ pandas.values (small_unit_df s) <> []
  /\ exists ineligible,
       ineligible_rows s = Ok ineligible
       /\ forall p, p ∈ sorted_pascodes (eligible_rows s) ineligible (btz_rows s) ->
                    String.le p (job_pascode j).
Proof.
  intros H Hj Hr.
  destruct (session_jobs_spec _ _ _ H) as (ineligible & Hi & Hp & Hall).
  cbv zeta in Hp, Hall. rewrite Forall_forall in Hall.
  destruct (Hall j Hj) as (info & q & Hinfo & Hq & E).
  unfold reaches_small_unit in Hr.
  apply andb_true_iff in Hr as [Hr Hsu]. apply andb_true_iff in Hr as [Hb Hlast].
  rewrite E in Hlast, Hsu. cbn [is_last small_unit_data job_of] in Hlast, Hsu.
  apply bool_decide_eq_true in Hlast. symmetry in Hlast.
  apply negb_true_iff, bool_decide_eq_false in Hsu.
  split; [|split; [exact Hb|split; [exact Hsu|]]].
  - assert (Hl : last (job_pascode <$> jobs) = Some (job_pascode j)).
    { rewrite Hp. apply last_filter_keep; [exact Hlast|eauto]. }
    rewrite fmap_last in Hl.
    destruct (last jobs) as [j'|] eqn:Hj'; [|discriminate].
    injection Hl as Hl. f_equal.
    apply (session_job_unique jobs); auto.
    apply last_Some in Hj' as [l' ->]. apply elem_of_app. right.
    apply list_elem_of_here.
  - exists ineligible. split; [exact Hi|].
    apply sorted_last_max; [apply roster_pdf_facts.sorted_pascodes_ascending|exact Hlast].
Qed.

(** X10. When the greatest PASCODE collected has no entry in
    [pascode_map], no call goes on to [generate_small_unit_pdf], whatever
    [small_unit_df] holds. *)
Theorem small_unit_dropped (ineligible : list (list string)) (p : string)
    (jobs : list pascode_job) :
  ineligible_rows s = Ok ineligible ->
  last (sorted_pascodes (eligible_rows s) ineligible (btz_rows s)) = Some p ->
  pascode_map s !! p = None ->
  session_jobs get_promotion_eligibility s = Ok jobs ->
  forall j, j ∈ jobs -> reaches_small_unit doc_build j = false.
Proof.
  intros Hi Hlast Hn H j Hj.
  destruct (session_jobs_spec _ _ _ H) as (ineligible' & Hi' & _ & Hall).
  rewrite Hi in Hi'. injection Hi' as <-.
  cbv zeta in Hall. rewrite Forall_forall in Hall.
  destruct (Hall j Hj) as (info & q & Hinfo & _ & E).
  unfold reaches_small_unit. rewrite E at 2. cbn [is_last job_of].
  rewrite Hlast. rewrite bool_decide_eq_false_2.
  - rewrite andb_false_r. reflexivity.
  - intros [= Heq]. congruence.
Qed.

(** X11. When [generate_roster_pdf] succeeds, the files handed to
    [merge_pdfs] are not empty and pairwise distinct: one
    [temp_<pascode>.pdf] for each unit whose document was built, in the
    order of the calls. *)
Theorem temp_files_distinct (out : emitted) :
  generate_roster_pdf get_promotion_eligibility doc_build s = Some out ->
  temp_pdfs out <> []
  /\ NoDup (temp_pdfs out)
  /\ exists jobs,
       session_jobs get_promotion_eligibility s = Ok jobs
       /\ rendered out = job_pascode <$> jobs
       /\ temp_pdfs out
          = temp_name <$> (job_pascode <$> filter (fun j => doc_build j = true) jobs).
Proof.
  rewrite generate_via_jobs.
  destruct (session_jobs get_promotion_eligibility s) as [jobs|] eqn:H;
    [|discriminate].
  pose proof (session_jobs_sorted _ _ _ H) as Hsorted.
  destruct (session_jobs_spec _ _ _ H) as (ineligible & _ & _ & Hall).
  cbv zeta in Hall.
  assert (Hfiles : omap (generate_pascode_pdf doc_build) jobs
                   = temp_name <$> (job_pascode <$> filter (fun j => doc_build j = true) jobs)).
  { rewrite omap_build. rewrite <- list_fmap_compose.
    apply Forall_fmap_ext_1. apply Forall_forall. intros j Hj.
    apply list_elem_of_filter in Hj as [_ Hj]. rewrite Forall_forall in Hall.
    destruct (Hall j Hj) as (info & q & _ & _ & E). rewrite E. reflexivity. }
  intros Hout.
  assert (Eout : omap (generate_pascode_pdf doc_build) jobs <> []
                 /\ out = {| temp_pdfs := omap (generate_pascode_pdf doc_build) jobs;
                             rendered := job_pascode <$> jobs |}).
  { destruct (omap _ jobs); [discriminate|].
    split; [discriminate|congruence]. }
  destruct Eout as [Hne ->]. cbn [temp_pdfs rendered].
  split; [exact Hne|]. split.
  - rewrite Hfiles. apply NoDup_fmap_2; [intros a b; apply temp_name_inj|].
    apply StronglySorted_strict_NoDup.
    eapply roster_pdf_facts.StronglySorted_sublist; [|exact Hsorted].
    apply fmap_sublist, sublist_filter.
  - exists jobs. auto.
Qed.

(** X12. [generate_roster_pdf] returns [None] exactly when reading the
    rows or [get_promotion_eligibility] raised, or no document at all was
    built; in particular when [pascode_map] is empty. *)
Theorem generate_roster_pdf_none_iff :
  (generate_roster_pdf get_promotion_eligibility doc_build s = None
   <-> match session_jobs get_promotion_eligibility s with
       | Ok jobs => Forall (fun j => doc_build j = false) jobs
       | Raise _ => True
       end)
  /\ (pascode_map s = ∅ ->
      generate_roster_pdf get_promotion_eligibility doc_build s = None).
Proof.
  assert (Hiff : generate_roster_pdf get_promotion_eligibility doc_build s = None
   <-> match session_jobs get_promotion_eligibility s with
       | Ok jobs => Forall (fun j => doc_build j = false) jobs
       | Raise _ => True
       end).
  { rewrite generate_via_jobs.
    destruct (session_jobs get_promotion_eligibility s) as [jobs|]; [|tauto].
    rewrite omap_build.
    destruct (filter _ jobs) as [|j js] eqn:Hf.
    - split; [intros _|reflexivity]. apply Forall_forall. intros j Hj.
      destruct (doc_build j) eqn:Hb; [|reflexivity].
      assert (Hin : j ∈ filter (fun j => doc_build j = true) jobs)
        by (apply list_elem_of_filter; auto).
      rewrite Hf in Hin. apply elem_of_nil in Hin. contradiction.
    - split; [discriminate|]. intros Hall. rewrite Forall_forall in Hall.
      assert (Hin : j ∈ filter (fun j => doc_build j = true) jobs)
        by (rewrite Hf; apply list_elem_of_here).
      apply list_elem_of_filter in Hin as [Hb Hin].
      rewrite (Hall j Hin) in Hb. discriminate. }
  split; [exact Hiff|].
  intros Hm. apply Hiff.
  destruct (session_jobs get_promotion_eligibility s) as [jobs|] eqn:H; [|exact I].
  destruct (session_jobs_spec _ _ _ H) as (ineligible & _ & _ & Hall).
  cbv zeta in Hall. destruct Hall as [|j js (info & q & Hinfo & _) _]; [constructor|].
  rewrite Hm, lookup_empty in Hinfo. discriminate.
Qed.

End small_unit_facts.

Lemma session_jobs_rows_witness :
  session_jobs sample_quota (sample_session {[ "A1" := ∅; "B2" := ∅ ]})
  = Ok (sample_jobs {[ "A1" := ∅; "B2" := ∅ ]})
  /\ forall j, j ∈ sample_jobs {[ "A1" := ∅; "B2" := ∅ ]} ->
       forall r, r ∈ eligible_data j -> r !! 7%nat = Some (job_pascode j).
Proof.
  assert (H : session_jobs sample_quota (sample_session {[ "A1" := ∅; "B2" := ∅ ]})
              = Ok (sample_jobs {[ "A1" := ∅; "B2" := ∅ ]}))
    by (vm_compute; reflexivity).
  split; [exact H|].
  destruct (session_jobs_rows _ _ _ H) as (ineligible & _ & _ & Hj & _).
  intros j Hin r Hr. destruct (Hj j Hin) as (_ & He & _).
  apply He in Hr as [_ Hr]. exact Hr.
Defined.

Lemma small_unit_only_last_witness :
  exists j,
    session_jobs sample_quota
      (sample_session {[ "A1" := ∅; "B2" := ∅; "C3" := ∅ ]})
    = Ok (sample_jobs {[ "A1" := ∅; "B2" := ∅; "C3" := ∅ ]})
    /\ j ∈ sample_jobs {[ "A1" := ∅; "B2" := ∅; "C3" := ∅ ]}
    /\ reaches_small_unit (fun _ => true) j = true
    /\ job_pascode j = "C3"
    /\ last (sample_jobs {[ "A1" := ∅; "B2" := ∅; "C3" := ∅ ]}) = Some j.
Proof.
  assert (H : session_jobs sample_quota
                (sample_session {[ "A1" := ∅; "B2" := ∅; "C3" := ∅ ]})
              = Ok (sample_jobs {[ "A1" := ∅; "B2" := ∅; "C3" := ∅ ]}))
    by (vm_compute; reflexivity).
  destruct (last (sample_jobs {[ "A1" := ∅; "B2" := ∅; "C3" := ∅ ]}))
    as [j|] eqn:Hl; [|vm_compute in Hl; discriminate].
  assert (Hj : j ∈ sample_jobs {[ "A1" := ∅; "B2" := ∅; "C3" := ∅ ]}).
  { apply last_Some in Hl as [l' ->]. apply elem_of_app. right.
    apply list_elem_of_here. }
  assert (Hr : reaches_small_unit (fun _ => true) j = true
               /\ job_pascode j = "C3").
  { vm_compute in Hl. injection Hl as <-. split; vm_compute; reflexivity. }
  destruct Hr as [Hr Hp].
  exists j. split; [exact H|]. split; [exact Hj|]. split; [exact Hr|].
  split; [exact Hp|].
  destruct (small_unit_only_last sample_quota (fun _ => true) _ _ j H Hj Hr)
    as (Hlast & _).
  exact (eq_trans (eq_sym Hl) Hlast).
Defined.

Lemma small_unit_dropped_witness :
  Forall (fun j => reaches_small_unit (fun _ => true) j = false)
    (sample_jobs {[ "A1" := ∅; "B2" := ∅ ]}).
Proof.
  apply Forall_forall.
  apply (small_unit_dropped sample_quota (fun _ => true)
           (sample_session {[ "A1" := ∅; "B2" := ∅ ]}) [] "C3").
  - vm_compute. reflexivity.
  - vm_compute. reflexivity.
  - vm_compute. reflexivity.
  - vm_compute. reflexivity.
Defined.

Lemma temp_files_distinct_witness :
  generate_roster_pdf sample_quota (fun _ => true)
    (sample_session {[ "A1" := ∅; "B2" := ∅ ]})
  = Some {| temp_pdfs := [ "temp_A1.pdf"; "temp_B2.pdf" ];
            rendered := [ "A1"; "B2" ] |}
  /\ NoDup [ "temp_A1.pdf"; "temp_B2.pdf" ].
Proof.
  assert (H : generate_roster_pdf sample_quota (fun _ => true)
                (sample_session {[ "A1" := ∅; "B2" := ∅ ]})
              = Some {| temp_pdfs := [ "temp_A1.pdf"; "temp_B2.pdf" ];
                        rendered := [ "A1"; "B2" ] |})
    by (vm_compute; reflexivity).
  split; [exact H|].
  destruct (temp_files_distinct _ _ _ _ H) as (_ & Hnd & _). exact Hnd.
Defined.

Lemma generate_roster_pdf_none_iff_witness :
  generate_roster_pdf sample_quota (fun _ => true) (sample_session ∅) = None.
Proof.
  apply (proj2 (generate_roster_pdf_none_iff sample_quota (fun _ => true)
                  (sample_session ∅))).
  reflexivity.
Defined.

End roster_job_facts.

(** ** The wrapping of the footer text *)

Module wrapped_text_facts.
Import wrapped_text.
Local Open Scope nat_scope.

Section wrap_facts.

Variable W : Type.
Variable zero : W.
Variable add : W -> W -> W.
Variable leb : W -> W -> bool.
Variable word_width : string -> W.
Variable max_width : W.

Abbreviation wloop := (wrap_loop W add leb word_width max_width).
Abbreviation gloop := (group_loop W add leb word_width max_width).
Abbreviation lwidth := (line_width W zero add word_width).
Abbreviation awidth := (acc_width W add word_width).
Abbreviation fits := (wrapped_text.fits W zero add leb word_width max_width).
Abbreviation greedy := (wrapped_text.greedy W zero add leb word_width max_width).
Abbreviation inv := (wrapped_text.inv W zero add leb word_width max_width).

Lemma wrap_loop_groups (words : list string) (groups : list (list string))
    (cur : list string) (cw : W) :
  wloop words (join " " <$> groups) cur cw
  = let '(gs, c, w) := gloop words groups cur cw in (join " " <$> gs, c, w).
Proof.
  revert groups cur cw. induction words as [|word words IH]; intros groups cur cw.
  - reflexivity.
  - cbn [wrap_loop group_loop]. destruct (leb _ _).
    + apply IH.
    + rewrite <- IH. rewrite fmap_app. reflexivity.
Qed.

Lemma wrapped_lines_groups (words : list string) :
  wrapped_lines W zero add leb word_width max_width words
  = join " " <$> wrapped_groups W zero add leb word_width max_width words.
Proof.
  unfold wrapped_lines, wrapped_groups.
  pose proof (wrap_loop_groups words [] [] zero) as H.
  change (join " " <$> []) with (@nil string) in H. rewrite H.
  destruct (gloop words [] [] zero) as [[gs c] w].
  destruct c; [reflexivity|]. rewrite fmap_app. reflexivity.
Qed.

Lemma acc_width_snoc (start : W) (line : list string) (w : string) :
  awidth start (line ++ [w]) = add (awidth start line) (word_width w).
Proof. unfold acc_width. rewrite foldl_app. reflexivity. Qed.

Lemma line_width_snoc (first : bool) (line : list string) (w : string) :
  (first = false -> line <> []) ->
  lwidth first (line ++ [w]) = add (lwidth first line) (word_width w).
Proof.
  intros Hne. unfold line_width. destruct first.
  - apply acc_width_snoc.
  - destruct line as [|a line]; [exfalso; apply Hne; reflexivity|].
    cbn [app]. apply acc_width_snoc.
Qed.

Lemma fits_snoc_first (cur : list string) :
  fits [cur] <-> (cur <> [] -> leb (lwidth true cur) max_width = true).
Proof.
  unfold fits. split; [intros [H _]; exact H|]. intros H. split; [exact H|constructor].
Qed.

Lemma fits_snoc_later (g0 : list string) (gs : list (list string))
    (cur : list string) :
  fits ((g0 :: gs) ++ [cur])
  <-> fits (g0 :: gs)
      /\ (2 <= length cur -> leb (lwidth false cur) max_width = true).
Proof.
  unfold fits. cbn [app]. rewrite Forall_app, Forall_singleton. tauto.
Qed.

Lemma inv_step_fit (groups : list (list string)) (cur : list string) (cw : W)
    (word : string) :
  inv groups cur cw ->
  leb (add cw (word_width word)) max_width = true ->
  inv groups (cur ++ [word]) (add cw (word_width word)).
Proof.
  intros [Hcur Htail Hw Hfits Hgreedy] Hleb.
  assert (Hw' : add cw (word_width word)
                = lwidth (bool_decide (groups = [])) (cur ++ [word])).
  { rewrite line_width_snoc, <- Hw; [reflexivity|].
    intros Hb. apply bool_decide_eq_false in Hb. auto. }
  split.
  - intros _ H. destruct cur; discriminate.
  - exact Htail.
  - exact Hw'.
  - destruct groups as [|g0 gs].
    + rewrite bool_decide_eq_true_2 in Hw' by reflexivity.
      apply fits_snoc_first. intros _. rewrite <- Hw'. exact Hleb.
    + rewrite bool_decide_eq_false_2 in Hw' by discriminate.
      apply fits_snoc_later. apply fits_snoc_later in Hfits as [Hf _].
      split; [exact Hf|]. intros _. rewrite <- Hw'. exact Hleb.
  - intros i g w rest Hi HSi.
    destruct (decide (S i < length groups)) as [Hlt | Hge].
    + rewrite lookup_app_l in Hi by lia. rewrite lookup_app_l in HSi by lia.
      apply (Hgreedy i g w rest); rewrite lookup_app_l by lia; assumption.
    + destruct (decide (S i = length groups)) as [Heq | Hne].
      * rewrite lookup_app_l in Hi by lia.
        rewrite lookup_app_r in HSi by lia.
        replace (S i - length groups) with 0 in HSi by lia.
        cbn in HSi. injection HSi as HSi.
        destruct cur as [|a cur'].
        { exfalso. apply Hcur; [|reflexivity]. intros ->. cbn in Heq. lia. }
        cbn [app] in HSi. injection HSi as -> _.
        apply (Hgreedy i g w cur').
        -- rewrite lookup_app_l by lia. exact Hi.
        -- rewrite lookup_app_r by lia.
           replace (S i - length groups) with 0 by lia. reflexivity.
      * apply lookup_lt_Some in HSi. rewrite length_app in HSi.
        cbn [length] in HSi. lia.
Qed.

Lemma inv_step_break (groups : list (list string)) (cur : list string) (cw : W)
    (word : string) :
  inv groups cur cw ->
  leb (add cw (word_width word)) max_width = false ->
  inv (groups ++ [cur]) [word] (word_width word).
Proof.
  intros [Hcur Htail Hw Hfits Hgreedy] Hleb.
  split.
  - discriminate.
  - destruct groups as [|g0 gs]; [constructor|].
    cbn [app tail]. apply Forall_app. split; [exact Htail|].
    apply Forall_singleton. apply Hcur. discriminate.
  - rewrite bool_decide_eq_false_2; [reflexivity|]. destruct groups; discriminate.
  - destruct (groups ++ [cur]) as [|g0 gs] eqn:E; [destruct groups; discriminate|].
    apply fits_snoc_later. split; [exact Hfits|].
    cbn [length]. lia.
  - intros i g w rest Hi HSi.
    destruct (decide (S i < length (groups ++ [cur]))) as [Hlt | Hge].
    + rewrite lookup_app_l in Hi by lia. rewrite lookup_app_l in HSi by lia.
      apply (Hgreedy i g w rest); assumption.
    + destruct (decide (S i = length (groups ++ [cur]))) as [Heq | Hne].
      * rewrite lookup_app_r in HSi by lia.
        replace (S i - length (groups ++ [cur])) with 0 in HSi by lia.
        cbn in HSi. injection HSi as <- <-.
        rewrite length_app in Heq. cbn [length] in Heq.
        rewrite lookup_app_l in Hi by (rewrite length_app; cbn [length]; lia).
        rewrite lookup_app_r in Hi by lia.
        replace (i - length groups) with 0 in Hi by lia.
        cbn in Hi. injection Hi as <-.
        assert (Hb : bool_decide (i = 0) = bool_decide (groups = [])).
        { apply bool_decide_ext. destruct groups; cbn [length] in Heq; split;
            intros; try lia; try discriminate; reflexivity. }
        rewrite Hb, <- Hw. exact Hleb.
      * apply lookup_lt_Some in HSi. rewrite length_app in HSi.
        cbn [length] in HSi. lia.
Qed.

Lemma group_loop_inv (words : list string) (groups : list (list string))
    (cur : list string) (cw : W) :
  inv groups cur cw ->
  let '(gs, c, w) := gloop words groups cur cw in
  inv gs c w /\ concat gs ++ c = concat groups ++ cur ++ words.
Proof.
  revert groups cur cw. induction words as [|word words IH]; intros groups cur cw Hinv.
  - cbn [group_loop]. split; [exact Hinv|]. rewrite app_nil_r. reflexivity.
  - cbn [group_loop]. destruct (leb _ _) eqn:Hleb.
    + pose proof (IH _ _ _ (inv_step_fit _ _ _ word Hinv Hleb)) as H.
      destruct (gloop words groups (cur ++ [word]) _) as [[gs c] w].
      destruct H as [H1 H2]. split; [exact H1|]. rewrite H2.
      rewrite <- !app_assoc. reflexivity.
    + pose proof (IH _ _ _ (inv_step_break _ _ _ word Hinv Hleb)) as H.
      destruct (gloop words (groups ++ [cur]) [word] _) as [[gs c] w].
      destruct H as [H1 H2]. split; [exact H1|]. rewrite H2.
      rewrite concat_app. cbn [concat app]. rewrite app_nil_r, <- !app_assoc.
      reflexivity.
Qed.

Lemma inv_start : inv [] [] zero.
Proof.
  split.
  - intros H. contradiction.
  - constructor.
  - reflexivity.
  - apply fits_snoc_first. intros H. contradiction.
  - intros i g w rest Hi HSi. apply lookup_lt_Some in HSi. cbn in HSi. lia.
Qed.

(** An empty line is closed only by a first word that does not fit. *)
Lemma group_loop_empty (words : list string) (groups : list (list string))
    (cur : list string) (cw : W) :
  [] ∈ (gloop words groups cur cw).1.1
  <-> [] ∈ groups
      \/ (cur = [] /\ exists w ws, words = w :: ws
                     /\ leb (add cw (word_width w)) max_width = false).
Proof.
  revert groups cur cw. induction words as [|word words IH]; intros groups cur cw.
  - cbn [group_loop fst]. split; [auto|]. intros [H | (_ & w & ws & H & _)];
      [exact H | discriminate].
  - cbn [group_loop]. destruct (leb _ _) eqn:Hleb.
    + rewrite IH. split.
      * intros [H | (H & _)]; [auto|]. destruct cur; discriminate.
      * intros [H | (_ & w & ws & [= <- <-] & H)]; [auto|]. congruence.
    + rewrite IH. rewrite elem_of_app, list_elem_of_singleton. split.
      * intros [[H | H] | (H & _)]; [auto| |discriminate].
        right. split; [auto|]. eauto.
      * intros [H | (-> & _)]; auto.
Qed.

(** X13. The footer text is wrapped without losing or reordering a word:
    the lines are the words of consecutive groups joined by single spaces,
    and the groups put end to end are the words. No line after the first
    is empty, and the first is empty exactly when the first word alone does
    not fit. The first line, when not empty, and every later line of two
    words or more fit the width; and a line is closed only by a word that
    does not fit after it. *)
Theorem wrapped_words_kept (words : list string) :
  exists groups : list (list string),
    wrapped_lines W zero add leb word_width max_width words
    = join " " <$> groups
    /\ concat groups = words
    /\ Forall (fun g => g <> []) (tail groups)
    /\ ([] ∈ groups
        <-> exists w ws, words = w :: ws
              /\ leb (add zero (word_width w)) max_width = false)
    /\ match groups with
       | [] => words = []
       | g0 :: gs =>
         (g0 <> [] -> leb (lwidth true g0) max_width = true)
         /\ Forall (fun g => 2 <= length g
                             -> leb (lwidth false g) max_width = true) gs
       end
    /\ (forall (i : nat) (g : list string) (w : string) (rest : list string),
          groups !! i = Some g -> groups !! S i = Some (w :: rest) ->
          leb (add (lwidth (bool_decide (i = 0)) g) (word_width w)) max_width
          = false).
Proof.
  exists (wrapped_groups W zero add leb word_width max_width words).
  split; [apply wrapped_lines_groups|].
  unfold wrapped_groups.
  pose proof (group_loop_inv words [] [] zero inv_start) as H.
  pose proof (group_loop_empty words [] [] zero) as He.
  destruct (gloop words [] [] zero) as [[gs c] w].
  destruct H as [[Hcur Htail Hw Hfits Hgreedy] Hcat]. cbn [fst] in He.
  cbn [concat app] in Hcat.
  assert (He' : [] ∈ gs <-> exists w ws, words = w :: ws
              /\ leb (add zero (word_width w)) max_width = false).
  { rewrite He. split.
    - intros [H | (_ & H)]; [apply elem_of_nil in H; contradiction | exact H].
    - intros H. right. auto. }
  destruct c as [|a c].
  - rewrite app_nil_r in Hcat. split; [exact Hcat|]. split; [exact Htail|].
    split; [exact He'|]. split.
    + destruct gs as [|g0 gs]; [symmetry; exact Hcat|].
      apply fits_snoc_later in Hfits as [Hf _]. exact Hf.
    + intros i g w' rest Hi HSi. apply (Hgreedy i g w' rest).
      * apply lookup_app_l_Some. exact Hi.
      * apply lookup_app_l_Some. exact HSi.
  - split; [rewrite concat_app; cbn [concat]; rewrite app_nil_r; exact Hcat|].
    split.
    { destruct gs as [|g0 gs]; [constructor|]. cbn [app tail].
      apply Forall_app. split; [exact Htail|]. apply Forall_singleton. discriminate. }
    split.
    { rewrite elem_of_app, list_elem_of_singleton. rewrite <- He'.
      split; [intros [H | H]; [exact H | discriminate] | auto]. }
    split; [destruct gs as [|g0 gs]; exact Hfits|].
    exact Hgreedy.
Qed.

End wrap_facts.

End wrapped_text_facts.

(** ** The PASCODEs of each senior rater *)

Module submit_facts.
Import submit.
Local Open Scope nat_scope.

Lemma append_at_keys (d : odict (list string)) (key x : string) :
  (append_at d key x).*1 = d.*1.
Proof.
  induction d as [|[k l] d IH]; [reflexivity|]. cbn [append_at].
  destruct (String.eqb k key); cbn [fmap list_fmap fst]; [reflexivity|].
  f_equal. exact IH.
Qed.

Lemma append_at_elem (d : odict (list string)) (key x : string)
    (k : string) (l : list string) :
  NoDup d.*1 ->
  (k, l) ∈ append_at d key x
  <-> (k <> key /\ (k, l) ∈ d)
      \/ (k = key /\ exists l0, (k, l0) ∈ d /\ l = l0 ++ [x]).
Proof.
  induction d as [|[k0 l0] d IH]; intros Hnd.
  - cbn [append_at]. split.
    + intros H. apply elem_of_nil in H. contradiction.
    + intros [[_ H] | (_ & l1 & H & _)]; apply elem_of_nil in H; contradiction.
  - cbn [fmap list_fmap fst] in Hnd. apply NoDup_cons in Hnd as [Hk0 Hnd].
    assert (Hfresh : forall l', (k0, l') ∈ d -> False).
    { intros l' H. apply Hk0. apply list_elem_of_fmap. exists (k0, l'). auto. }
    cbn [append_at]. destruct (String.eqb_spec k0 key) as [-> | Hne].
    + rewrite !elem_of_cons. split.
      * intros [[= -> ->] | H].
        -- right. split; [reflexivity|]. exists l0. split; [left; reflexivity|reflexivity].
        -- left. split; [|right; exact H]. intros ->. eapply Hfresh, H.
      * intros [[Hk [[= -> ->] | H]] | (-> & l1 & H & ->)].
        -- contradiction.
        -- right. exact H.
        -- apply elem_of_cons in H as [[= ->] | H]; [left; reflexivity|].
           exfalso. eapply Hfresh, H.
    + rewrite !elem_of_cons, (IH Hnd). split.
      * intros [[= -> ->] | [[Hk H] | (-> & l1 & H & ->)]].
        -- left. split; [exact Hne|left; reflexivity].
        -- left. split; [exact Hk|right; exact H].
        -- right. split; [reflexivity|]. exists l1. split; [right; exact H|reflexivity].
      * intros [[Hk [[= -> ->] | H]] | (-> & l1 & H & ->)].
        -- left. reflexivity.
        -- right. left. auto.
        -- right. right. split; [reflexivity|]. exists l1.
           apply elem_of_cons in H as [[= E _] | H]; [congruence|]. auto.
Qed.

Lemma distinct_elem (l : list string) (x : string) : x ∈ distinct l <-> x ∈ l.
Proof.
  induction l as [|a l IH]; [reflexivity|]. cbn [distinct].
  rewrite !elem_of_cons, list_elem_of_filter, IH.
  destruct (decide (x = a)); intuition.
Qed.

Lemma distinct_NoDup (l : list string) : NoDup (distinct l).
Proof.
  induction l as [|a l IH]; [constructor|]. cbn [distinct]. constructor.
  - rewrite list_elem_of_filter. intros [H _]. apply H. reflexivity.
  - apply NoDup_filter, IH.
Qed.

Lemma filter_distinct_comm (P : string -> Prop) `{forall x, Decision (P x)}
    (l : list string) :
  filter P (distinct l) = distinct (filter P l).
Proof.
  induction l as [|a l IH]; [reflexivity|]. cbn [distinct].
  destruct (decide (P a)) as [Ha | Ha].
  - rewrite !filter_cons_True by exact Ha. cbn [distinct]. f_equal.
    rewrite <- IH. rewrite !list_filter_filter. apply list_filter_iff.
    intros x. tauto.
  - rewrite !filter_cons_False by exact Ha. rewrite <- IH.
    rewrite list_filter_filter. apply list_filter_iff. intros x.
    split; [tauto|]. intros Hx. split; [exact Hx|]. intros ->. contradiction.
Qed.

Lemma distinct_snoc (l : list string) (x : string) :
  distinct (l ++ [x]) = if decide (x ∈ l) then distinct l else distinct l ++ [x].
Proof.
  induction l as [|a l IH].
  - cbn. rewrite decide_False by (apply not_elem_of_nil). reflexivity.
  - cbn [app distinct]. rewrite IH.
    destruct (decide (x ∈ a :: l)) as [Hin | Hnin];
      destruct (decide (x ∈ l)) as [Hin' | Hnin']; cbn [distinct].
    + reflexivity.
    + apply elem_of_cons in Hin as [-> | Hin]; [|contradiction].
      rewrite filter_app, filter_cons_False, filter_nil, app_nil_r by tauto.
      reflexivity.
    + exfalso. apply Hnin. right. exact Hin'.
    + rewrite filter_app, filter_cons_True, filter_nil.
      * reflexivity.
      * intros ->. apply Hnin. left.
Qed.

Lemma filter_none {A : Type} (P : A -> Prop) `{forall x, Decision (P x)}
    (l : list A) :
  (forall x, x ∈ l -> P x -> False) -> filter P l = [].
Proof.
  intros Hno. destruct (filter P l) as [|x l'] eqn:E; [reflexivity|].
  assert (Hx : x ∈ filter P l) by (rewrite E; apply list_elem_of_here).
  apply list_elem_of_filter in Hx as [HP Hx]. exfalso. eapply Hno; eauto.
Qed.

Section loop.

Variable pascode_map : gmap string (gmap string string).

Abbreviation grouped := (submit.grouped pascode_map).

Lemma srid_loop_ok (pascodes seen : list string) (d : odict (list string)) :
  grouped seen d ->
  Forall (fun p => exists srid, srid_of pascode_map p = Ok srid) pascodes ->
  exists d', srid_loop pascode_map pascodes d = Ok d'
             /\ grouped (seen ++ pascodes) d'.
Proof.
  revert seen d. induction pascodes as [|p pascodes IH]; intros seen d Hg Hall.
  - exists d. rewrite app_nil_r. auto.
  - apply Forall_cons in Hall as [(srid & Hp) Hall].
    cbn [srid_loop]. rewrite Hp. cbn [bind].
    replace (seen ++ p :: pascodes) with ((seen ++ [p]) ++ pascodes)
      by (rewrite <- app_assoc; reflexivity).
    destruct Hg as (srids & Hs & Hkeys & Hvals).
    assert (Hnd : NoDup d.*1) by (rewrite Hkeys; apply distinct_NoDup).
    assert (Hseen : forall k, rated_by pascode_map k (seen ++ [p])
                    = rated_by pascode_map k seen
                      ++ (if decide (k = srid) then [p] else [])).
    { intros k. unfold rated_by. rewrite filter_app. f_equal.
      destruct (decide (k = srid)) as [-> | Hne].
      - rewrite filter_cons_True by exact Hp. reflexivity.
      - rewrite filter_cons_False by (rewrite Hp; congruence). reflexivity. }
    unfold contains. destruct (bool_decide (srid ∈ d.*1)) eqn:Hin.
    + apply bool_decide_eq_true in Hin. apply IH; [|exact Hall].
      exists (srids ++ [srid]). split; [apply Forall2_app; auto|]. split.
      * rewrite append_at_keys, distinct_snoc, Hkeys.
        rewrite decide_True; [reflexivity|].
        apply distinct_elem. rewrite <- Hkeys. exact Hin.
      * intros k l Hkl. rewrite Hseen.
        apply append_at_elem in Hkl as [[Hne H] | (-> & l0 & H & ->)];
          [| |exact Hnd].
        -- rewrite decide_False by exact Hne. rewrite app_nil_r. auto.
        -- rewrite decide_True by reflexivity. f_equal. auto.
    + apply bool_decide_eq_false in Hin. apply IH; [|exact Hall].
      exists (srids ++ [srid]). split; [apply Forall2_app; auto|]. split.
      * unfold set_new. rewrite fmap_app, distinct_snoc, Hkeys.
        rewrite decide_False; [reflexivity|].
        rewrite <- distinct_elem, <- Hkeys. exact Hin.
      * intros k l Hkl. rewrite Hseen. unfold set_new in Hkl.
        apply elem_of_app in Hkl as [H | H].
        -- rewrite decide_False.
           ++ rewrite app_nil_r. auto.
           ++ intros ->. apply Hin. apply list_elem_of_fmap. exists (srid, l). auto.
        -- apply list_elem_of_singleton in H. injection H as -> ->.
           rewrite decide_True by reflexivity.
           assert (Hnil : rated_by pascode_map srid seen = []).
           { unfold rated_by. apply filter_none. intros q Hq Hqs.
             apply Hin. rewrite Hkeys. apply distinct_elem.
             apply list_elem_of_lookup in Hq as [i Hi].
             destruct (Forall2_lookup_l _ _ _ _ _ Hs Hi) as (s' & Hs' & Hq').
             rewrite Hqs in Hq'. injection Hq' as ->.
             eapply list_elem_of_lookup_2, Hs'. }
           rewrite Hnil. reflexivity.
Qed.

Lemma srid_loop_raise (pascodes : list string) (d : odict (list string)) :
  Exists (fun p => srid_of pascode_map p = Raise KeyError) pascodes ->
  srid_loop pascode_map pascodes d = Raise KeyError.
Proof.
  revert d. induction pascodes as [|p pascodes IH]; intros d Hex.
  - apply Exists_nil in Hex. contradiction.
  - cbn [srid_loop]. destruct (srid_of pascode_map p) as [srid|e] eqn:Hp.
    + apply Exists_cons in Hex as [Hex | Hex]; [congruence|]. cbn [bind].
      destruct (contains d srid); apply IH, Hex.
    + cbn [bind]. f_equal. unfold srid_of in Hp.
      destruct (pascode_map !! p) as [info|]; [|congruence].
      destruct (info !! "srid"); congruence.
Qed.

Lemma srid_of_cases (p : string) :
  srid_of pascode_map p = Raise KeyError
  \/ exists srid, srid_of pascode_map p = Ok srid.
Proof.
  unfold srid_of. destruct (pascode_map !! p) as [info|]; [|auto].
  destruct (info !! "srid"); eauto.
Qed.

Lemma srid_of_all (pascodes : list string) :
  Forall (fun p => exists srid, srid_of pascode_map p = Ok srid) pascodes
  \/ Exists (fun p => srid_of pascode_map p = Raise KeyError) pascodes.
Proof.
  induction pascodes as [|p pascodes [IH | IH]].
  - left. constructor.
  - destruct (srid_of_cases p) as [H | H].
    + right. left. exact H.
    + left. constructor; assumption.
  - right. right. exact IH.
Qed.

Lemma srid_of_ok (p : string) :
  (exists srid, srid_of pascode_map p = Ok srid)
  <-> exists info, pascode_map !! p = Some info /\ is_Some (info !! "srid").
Proof.
  unfold srid_of. destruct (pascode_map !! p) as [info|].
  - destruct (info !! "srid") as [srid|] eqn:E.
    + split; intros _; [exists info; split; [reflexivity|eauto]|eauto].
    + split; [intros [? ?]; discriminate|].
      intros (info' & [= <-] & [? ?]). congruence.
  - split; [intros [? ?]; discriminate|]. intros (info' & ? & _). discriminate.
Qed.

(** X14. The grouping of the session's PASCODEs by senior rater succeeds
    exactly when every PASCODE has an entry in [pascode_map] with an
    ["srid"]; otherwise it raises [KeyError]. *)
Theorem srid_pascode_map_ok_iff (pascodes : list string) :
  ((exists d, srid_pascode_map pascode_map pascodes = Ok d)
   <-> Forall (fun p => exists info, pascode_map !! p = Some info
                                     /\ is_Some (info !! "srid")) pascodes)
  /\ (forall e, srid_pascode_map pascode_map pascodes = Raise e
                  -> e = KeyError).
Proof.
  assert (Hstart : grouped [] []).
  { exists []. split; [constructor|]. split; [reflexivity|].
    intros srid l H. apply elem_of_nil in H. contradiction. }
  unfold srid_pascode_map.
  destruct (srid_of_all pascodes) as [Hall | Hex].
  - destruct (srid_loop_ok pascodes [] [] Hstart Hall) as (d & Hd & _).
    split.
    + split; [intros _|eauto]. eapply Forall_impl; [exact Hall|].
      intros p Hp. apply srid_of_ok, Hp.
    + intros e He. congruence.
  - pose proof (srid_loop_raise pascodes [] Hex) as Hr. split.
    + split; [intros [d Hd]; congruence|]. intros Hall. exfalso.
      apply Exists_exists in Hex as (p & Hp & Hraise).
      rewrite Forall_forall in Hall. apply Hall, srid_of_ok in Hp as [srid Hs].
      congruence.
    + intros e He. congruence.
Qed.

(** X15. When the grouping succeeds, its keys are the distinct senior
    rater ids in the order in which the session's PASCODEs first name them,
    and the list under a key holds exactly the PASCODEs of that senior
    rater, in session order: no list is empty, and every PASCODE of the
    session is in the list of its own senior rater and in no other. *)
Theorem srid_pascode_map_groups (pascodes : list string)
    (d : odict (list string)) :
  srid_pascode_map pascode_map pascodes = Ok d ->
  (exists srids,
     Forall2 (fun p srid => srid_of pascode_map p = Ok srid) pascodes srids
     /\ d.*1 = distinct srids)
  /\ NoDup d.*1
  /\ (forall srid l, (srid, l) ∈ d ->
        l = rated_by pascode_map srid pascodes /\ l <> [])
  /\ (forall p, p ∈ pascodes ->
        exists srid l, srid_of pascode_map p = Ok srid /\ (srid, l) ∈ d /\ p ∈ l)
  /\ (forall p srid l, (srid, l) ∈ d -> p ∈ l ->
        p ∈ pascodes /\ srid_of pascode_map p = Ok srid).
Proof.
  intros Hd.
  assert (Hstart : grouped [] []).
  { exists []. split; [constructor|]. split; [reflexivity|].
    intros srid l H. apply elem_of_nil in H. contradiction. }
  assert (Hall : Forall (fun p => exists srid, srid_of pascode_map p = Ok srid)
                   pascodes).
  { destruct (srid_of_all pascodes) as [Hall | Hex]; [exact Hall|].
    unfold srid_pascode_map in Hd.
    rewrite (srid_loop_raise pascodes [] Hex) in Hd. discriminate. }
  destruct (srid_loop_ok pascodes [] [] Hstart Hall) as (d' & Hd' & Hg).
  unfold srid_pascode_map in Hd. rewrite Hd in Hd'. injection Hd' as <-.
  cbn [app] in Hg. destruct Hg as (srids & Hs & Hkeys & Hvals).
  assert (Hin : forall srid, srid ∈ srids ->
                  exists p, p ∈ pascodes /\ srid_of pascode_map p = Ok srid).
  { intros srid H. apply list_elem_of_lookup in H as [i Hi].
    destruct (Forall2_lookup_r _ _ _ _ _ Hs Hi) as (p & Hp & Hps).
    exists p. split; [eapply list_elem_of_lookup_2, Hp|exact Hps]. }
  split; [eauto|]. split; [rewrite Hkeys; apply distinct_NoDup|].
  split; [|split].
  - intros srid l Hl. split; [apply Hvals, Hl|].
    assert (Hk : srid ∈ d.*1) by (apply list_elem_of_fmap; exists (srid, l); auto).
    rewrite Hkeys in Hk. apply distinct_elem, Hin in Hk as (p & Hp & Hps).
    rewrite (Hvals srid l Hl). intros Hnil.
    assert (Hpl : p ∈ rated_by pascode_map srid pascodes)
      by (apply list_elem_of_filter; auto).
    rewrite Hnil in Hpl. apply elem_of_nil in Hpl. contradiction.
  - intros p Hp. rewrite Forall_forall in Hall. destruct (Hall p Hp) as [srid Hps].
    assert (Hk : srid ∈ d.*1).
    { rewrite Hkeys. apply distinct_elem.
      apply list_elem_of_lookup in Hp as [i Hi].
      destruct (Forall2_lookup_l _ _ _ _ _ Hs Hi) as (s' & Hs' & Hq).
      rewrite Hps in Hq. injection Hq as ->. eapply list_elem_of_lookup_2, Hs'. }
    apply list_elem_of_fmap in Hk as ([k l] & Hkl & Hl). cbn in Hkl. subst k.
    exists srid, l. split; [exact Hps|]. split; [exact Hl|].
    rewrite (Hvals srid l Hl). apply list_elem_of_filter. auto.
  - intros p srid l Hl Hp. rewrite (Hvals srid l Hl) in Hp.
    apply list_elem_of_filter in Hp as [Hps Hp]. auto.
Qed.

End loop.

Lemma srid_pascode_map_groups_witness :
  srid_pascode_map sample_pascode_map [ "A1"; "B2"; "C3" ]
  = Ok [ ("R1", [ "A1"; "C3" ]); ("R2", [ "B2" ]) ]
  /\ NoDup [ "R1"; "R2" ].
Proof.
  assert (H : srid_pascode_map sample_pascode_map [ "A1"; "B2"; "C3" ]
              = Ok [ ("R1", [ "A1"; "C3" ]); ("R2", [ "B2" ]) ])
    by (vm_compute; reflexivity).
  split; [exact H|].
  destruct (srid_pascode_map_groups sample_pascode_map _ _ H) as (_ & Hnd & _).
  exact Hnd.
Defined.

End submit_facts.

(** ** The merge and the clean-up of the temporary files *)

Module merge_facts.
Import merge.

Section facts.

Variable append_ok : string -> bool.
Variable write_ok : list string -> bool.
Variable remove_ok : string -> bool.

Lemma present_spec (fs : gset string) (path : string) :
  present fs path = true <-> path <> "" /\ path ∈ fs.
Proof.
  unfold present. rewrite andb_true_iff, negb_true_iff, bool_decide_eq_true.
  destruct (String.eqb_spec path ""); intuition congruence.
Qed.

Lemma clean_up_spec (temp_pdfs : list string) (fs : gset string) (p : string) :
  p ∈ clean_up remove_ok fs temp_pdfs
  <-> p ∈ fs /\ ~ (p ∈ temp_pdfs /\ p <> "" /\ remove_ok p = true).
Proof.
  revert fs. induction temp_pdfs as [|path rest IH]; intros fs.
  - cbn [clean_up]. rewrite elem_of_nil. tauto.
  - cbn [clean_up]. rewrite elem_of_cons.
    destruct (present fs path) eqn:Hp.
    + apply present_spec in Hp as [Hne Hin].
      destruct (remove_ok path) eqn:Hr.
      * rewrite IH, elem_of_difference, elem_of_singleton.
        split.
        -- intros [[Hfs Hpp] Hn]. split; [exact Hfs|]. intros [[-> | H] H']; tauto.
        -- intros [Hfs Hn]. split; [split; [exact Hfs|]|].
           ++ intros ->. apply Hn. auto.
           ++ intros [H H']. apply Hn. auto.
      * rewrite IH. split.
        -- intros [Hfs Hn]. split; [exact Hfs|].
           intros [[-> | H] [H1 H2]]; [congruence|]. apply Hn. auto.
        -- intros [Hfs Hn]. split; [exact Hfs|]. intros [H H']. apply Hn. auto.
    + assert (Hno : ~ (path <> "" /\ path ∈ fs)).
      { intros H. apply present_spec in H. congruence. }
      rewrite IH. split.
      * intros [Hfs Hn]. split; [exact Hfs|].
        intros [[-> | H] [H1 H2]]; [tauto|]. apply Hn. auto.
      * intros [Hfs Hn]. split; [exact Hfs|]. intros [H H']. apply Hn. auto.
Qed.

Lemma appended_spec (fs : gset string) (temp_pdfs : list string) :
  appended append_ok fs temp_pdfs
  = filter (fun p => p <> "" /\ p ∈ fs /\ append_ok p = true) temp_pdfs.
Proof.
  induction temp_pdfs as [|path rest IH]; [reflexivity|].
  cbn [appended]. destruct (present fs path) eqn:Hp.
  - apply present_spec in Hp as [Hne Hin]. destruct (append_ok path) eqn:Ha.
    + rewrite filter_cons_True by auto. f_equal. exact IH.
    + rewrite filter_cons_False by (intros (_ & _ & H); congruence). exact IH.
  - rewrite filter_cons_False; [exact IH|].
    intros (H1 & H2 & _). assert (present fs path = true) by (apply present_spec; auto).
    congruence.
Qed.

(** X16. The files merged by [merge_pdfs] are the listed ones that exist
    and that the merger accepted, in the listed order; an empty list gives
    [None]. Whether or not the merge succeeds, the files left on disk are
    those that were there, less the listed ones whose removal succeeded: no
    other file is removed, and none is created. *)
Theorem merge_pdfs_cleans_up (fs : gset string) (temp_pdfs : list string)
    (response : option (list string)) (fs' : gset string) :
  merge_pdfs append_ok write_ok remove_ok fs temp_pdfs = (response, fs') ->
  (forall p, p ∈ fs'
     <-> p ∈ fs /\ ~ (p ∈ temp_pdfs /\ p <> "" /\ remove_ok p = true))
  /\ (forall files, response = Some files ->
        temp_pdfs <> []
        /\ write_ok files = true
        /\ files = filter (fun p => p <> "" /\ p ∈ fs /\ append_ok p = true)
                    temp_pdfs)
  /\ (temp_pdfs = [] -> response = None).
Proof.
  unfold merge_pdfs. destruct temp_pdfs as [|path rest].
  - intros [= <- <-]. split.
    + intros p. rewrite elem_of_nil. tauto.
    + split; [discriminate|reflexivity].
  - intros [= <- <-].
    split; [intros p; exact (clean_up_spec (path :: rest) fs p)|]. split.
    + intros files H. split; [discriminate|].
      destruct (write_ok _) eqn:Hw; [|discriminate].
      injection H as <-. split; [exact Hw|].
      exact (appended_spec fs (path :: rest)).
    + discriminate.
Qed.

End facts.

Lemma merge_pdfs_cleans_up_witness :
  merge_pdfs (fun _ => true) (fun _ => true)
    (fun p => negb (String.eqb p "b"))
    {[ "a"; "b"; "k" ]} [ "a"; "m"; "b" ]
  = (Some [ "a"; "b" ], {[ "b"; "k" ]})
  /\ forall p : string,
       p ∈ ({[ "b"; "k" ]} : gset string)
       <-> p ∈ ({[ "a"; "b"; "k" ]} : gset string)
           /\ ~ (p ∈ [ "a"; "m"; "b" ] /\ p <> ""
                 /\ negb (String.eqb p "b") = true).
Proof.
  assert (H : merge_pdfs (fun _ => true) (fun _ => true)
                (fun p => negb (String.eqb p "b"))
                {[ "a"; "b"; "k" ]}
                [ "a"; "m"; "b" ]
              = (Some [ "a"; "b" ], {[ "b"; "k" ]}))
    by (vm_compute; reflexivity).
  split; [exact H|].
  destruct (merge_pdfs_cleans_up _ _ _ _ _ _ _ H) as (Hfs & _). exact Hfs.
Defined.

End merge_facts.

(** ** The tables of a unit's document, the ineligible rows and the
    page identifier *)

Module roster_document_facts.
Import initial_mel_generator roster_jobs roster_document pandas.
Local Open Scope nat_scope.

Lemma available_third (s : session) :
  available_columns s !! 2 = Some "ASSIGNED_PAS"
  <-> "FULL_NAME" ∈ columns (ineligible_df s)
      /\ "GRADE" ∈ columns (ineligible_df s)
      /\ "ASSIGNED_PAS" ∈ columns (ineligible_df s).
Proof.
  unfold available_columns, ineligible_columns. cbn [List.filter].
  repeat case_bool_decide; cbn; split; intros Hthird; try discriminate;
    try tauto; destruct Hthird as (? & ? & ?); contradiction.
Qed.

(** X17. The ineligible rows have one cell for each of the six report
    columns that the stored frame has, in report order, each being the
    cell of the stored row under that label. Their third cell, from which
    the PASCODE is read, is the ASSIGNED_PAS cell exactly when the frame
    has the FULL_NAME, GRADE and ASSIGNED_PAS columns. *)
Theorem ineligible_rows_cells (s : session) (rows : list (list string)) :
  well_formed (ineligible_df s) ->
  empty (ineligible_df s) = false ->
  ineligible_rows s = Ok rows ->
  length rows = length (values (ineligible_df s))
  /\ Forall (fun r => length r = length (available_columns s)) rows
  /\ (forall (i : nat) (row : list string),
        values (ineligible_df s) !! i = Some row ->
        exists orow,
          rows !! i = Some orow
          /\ forall (k : nat) (c : string),
               available_columns s !! k = Some c ->
               exists j v, position c (columns (ineligible_df s)) = Some j
                           /\ row !! j = Some v /\ orow !! k = Some v)
  /\ (available_columns s !! 2 = Some "ASSIGNED_PAS"
      <-> "FULL_NAME" ∈ columns (ineligible_df s)
          /\ "GRADE" ∈ columns (ineligible_df s)
          /\ "ASSIGNED_PAS" ∈ columns (ineligible_df s)).
Proof.
  intros Hwf Hne. unfold ineligible_rows. rewrite Hne.
  fold (available_columns s).
  destruct (getitem (ineligible_df s) (available_columns s)) as [out|] eqn:Hout;
    [|discriminate].
  cbn [bind]. intros [= <-].
  destruct (column_facts.getitem_spec _ _ _ Hwf Hout) as (Hcols & Hwf' & Hlen & Hcells).
  unfold values_tolist.
  split; [exact Hlen|]. split.
  - unfold well_formed in Hwf'. rewrite Hcols in Hwf'. exact Hwf'.
  - split; [exact Hcells|apply available_third].
Qed.

Lemma ineligible_rows_cells_witness :
  ineligible_rows sample_ineligible_session = Ok [ [ "DOE, JANE"; "A1"; "3F071"; "UIF" ] ]
  /\ Forall (fun r : list string => length r = 4) [ [ "DOE, JANE"; "A1"; "3F071"; "UIF" ] ].
Proof.
  assert (Hwf : well_formed (ineligible_df sample_ineligible_session))
    by (repeat constructor).
  assert (Hne : empty (ineligible_df sample_ineligible_session) = false)
    by reflexivity.
  assert (H : ineligible_rows sample_ineligible_session
              = Ok [ [ "DOE, JANE"; "A1"; "3F071"; "UIF" ] ])
    by (vm_compute; reflexivity).
  split; [exact H|].
  destruct (ineligible_rows_cells _ _ Hwf Hne H) as (_ & Hall & _).
  exact Hall.
Defined.

Lemma last_app_cons {A : Type} (l : list A) (x y : A) :
  last (l ++ [x; y]) = Some y.
Proof.
  change [x; y] with ([x] ++ [y]). rewrite app_assoc. apply last_snoc.
Qed.

(** X18. Every document handed to the layout engine has at least one
    table and ends with a page break; each table has its two heading rows
    on top of the data rows, which are the eligible, ineligible or
    below-the-zone rows of the unit, and the total in its status row is
    the number of its data rows. *)
Theorem unit_document_tables
    (get_promotion_eligibility : nat -> string -> result (Z * Z))
    (s : session) (jobs : list pascode_job) (j : pascode_job) :
  session_jobs get_promotion_eligibility s = Ok jobs ->
  j ∈ jobs ->
  last (pascode_elements j) = Some PageBreak
  /\ (exists t rr, Table t rr ∈ pascode_elements j)
  /\ forall t rr, Table t rr ∈ pascode_elements j ->
       rr = 2
       /\ exists status header data,
            t = status :: header :: data
            /\ data <> []
            /\ last status
               = Some ("Total: " +:+ str_int (Z.of_nat (length data)))
            /\ ((length status = 8
                 /\ header = constants.INITIAL_MEL_HEADER_ROW
                 /\ (data = eligible_data j \/ data = btz_data j))
                \/ (length status = 6
                    /\ header = constants.INITIAL_MEL_INELIGIBLE_HEADER_ROW
                    /\ data = ineligible_data j)).
Proof.
  intros H Hj.
  destruct (roster_job_facts.session_jobs_spec _ _ _ H)
    as (ineligible & _ & Hp & Hall).
  cbv zeta in Hp, Hall. rewrite Forall_forall in Hall.
  destruct (Hall j Hj) as (info & q & _ & _ & E).
  assert (Hin : job_pascode j
                ∈ sorted_pascodes (eligible_rows s) ineligible (btz_rows s)).
  { assert (Hm : job_pascode j ∈ job_pascode <$> jobs)
      by (apply list_elem_of_fmap; eauto).
    rewrite Hp in Hm. apply list_elem_of_filter in Hm as [_ Hm]. exact Hm. }
  apply roster_pdf_facts.sorted_pascodes_has_rows in Hin.
  assert (Hrows : eligible_data j <> [] \/ ineligible_data j <> []
                  \/ btz_data j <> []).
  { rewrite E. exact Hin. }
  clear E Hin Hall Hp.
  unfold pascode_elements.
  destruct (eligible_data j) as [|e es] eqn:He;
    destruct (ineligible_data j) as [|i is'] eqn:Hi;
    destruct (btz_data j) as [|b bs] eqn:Hb.
  all: try (exfalso; destruct Hrows as [? | [? | ?]]; congruence).
  all: cbn [app].
  all: split; [reflexivity|].
  all: split; [eexists _, _; apply list_elem_of_here|].
  all: intros t rr Ht.
  all: repeat (apply elem_of_cons in Ht as [Ht | Ht]; [|]);
       try (apply elem_of_nil in Ht; contradiction); try discriminate.
  all: injection Ht as -> ->; split; [reflexivity|].
  all: cbn [create_table create_ineligible_table String.eqb Ascii.eqb negb
            Bool.eqb repeat_rows].
  all: eexists _, _, _; split; [reflexivity|]; split; [discriminate|];
       split; [reflexivity|].
  all: first [ left; split; [reflexivity|]; split; [reflexivity|];
               first [left; reflexivity | right; reflexivity]
             | right; split; [reflexivity|]; split; reflexivity ].
Qed.

Lemma unit_document_tables_witness :
  exists j,
    j ∈ sample_jobs {[ "A1" := ∅; "B2" := ∅ ]}
    /\ last (pascode_elements j) = Some PageBreak.
Proof.
  assert (H : session_jobs sample_quota (sample_session {[ "A1" := ∅; "B2" := ∅ ]})
              = Ok (sample_jobs {[ "A1" := ∅; "B2" := ∅ ]}))
    by (vm_compute; reflexivity).
  destruct (last (sample_jobs {[ "A1" := ∅; "B2" := ∅ ]}))
    as [j|] eqn:Hl; [|vm_compute in Hl; discriminate].
  assert (Hj : j ∈ sample_jobs {[ "A1" := ∅; "B2" := ∅ ]}).
  { apply last_Some in Hl as [l' ->]. apply elem_of_app. right.
    apply list_elem_of_here. }
  exists j. split; [exact Hj|].
  destruct (unit_document_tables sample_quota _ _ j H Hj) as (Hlast & _).
  exact Hlast.
Defined.

(** X19. For a MEL year from 999 to 9998 the identifier printed at the
    bottom of the page starts with the last two digits of the following
    year, followed by the grade of [PROMOTION_MAP] for the cycle, or by XX
    for a cycle that is not a key of it. *)
Theorem identifier_text_year (melYear : Z) (cycle : string) :
  (999 <= melYear <= 9998)%Z ->
  exists c3 c4 : ascii,
    identifier_text melYear cycle
    = String c3 (String c4 (default "XX" (constants.PROMOTION_MAP !! cycle)
                            +:+ " - Initial MEL"))
    /\ _strptime.is_digit c3 = true /\ _strptime.is_digit c4 = true
    /\ (10 * _strptime.digit_val c3 + _strptime.digit_val c4
        = (melYear + 1) mod 100)%Z.
Proof.
  intros Hy.
  assert (H4 : four_digits (melYear + 1) (str_int (melYear + 1)) = true)
    by (apply accounting_facts.str_int_four_digits; lia).
  unfold identifier_text.
  destruct (str_int (melYear + 1)) as [|c1 [|c2 [|c3 [|c4 [|c5 r]]]]];
    try discriminate.
  cbn [four_digits] in H4. rewrite !andb_true_iff, Z.eqb_eq in H4.
  destruct H4 as [[[[H1 H2] H3] H4] Hv].
  exists c3, c4. split; [reflexivity|]. split; [exact H3|]. split; [exact H4|].
  pose proof (accounting_more.is_digit_range _ H1).
  pose proof (accounting_more.is_digit_range _ H2).
  pose proof (accounting_more.is_digit_range _ H3).
  pose proof (accounting_more.is_digit_range _ H4).
  rewrite <- Hv.
  replace (1000 * _strptime.digit_val c1 + 100 * _strptime.digit_val c2
           + 10 * _strptime.digit_val c3 + _strptime.digit_val c4)%Z
    with ((10 * _strptime.digit_val c3 + _strptime.digit_val c4)
          + (10 * _strptime.digit_val c1 + _strptime.digit_val c2) * 100)%Z
    by lia.
  rewrite Z.mod_add by lia. rewrite Z.mod_small by lia. reflexivity.
Qed.

Lemma identifier_text_year_witness :
  exists c3 c4 : ascii,
    identifier_text 2025 "SSG" = String c3 (String c4 "E6 - Initial MEL")
    /\ (10 * _strptime.digit_val c3 + _strptime.digit_val c4 = 26)%Z.
Proof.
  destruct (identifier_text_year 2025 "SSG") as (c3 & c4 & H & _ & _ & Hv);
    [lia|].
  exists c3, c4. split; [exact H | exact Hv].
Defined.

End roster_document_facts.

(** ** The order of the unit documents *)

Module roster_order_facts.
Import initial_mel_generator roster_jobs.
Local Open Scope nat_scope.

Section order.

Variable get_promotion_eligibility : nat -> string -> result (Z * Z).
Variable doc_build : pascode_job -> bool.
Variable s : session.

Lemma pascode_jobs_ok (eligible ineligible btz : list (list string))
    (last : option string) (todo : list string) :
  (forall p, p ∈ todo -> is_Some (pascode_map s !! p) ->
     exists qv, get_promotion_eligibility (length (rows_of 7 p eligible)) (cycle s)
                = Ok qv) ->
  exists jobs,
    pascode_jobs get_promotion_eligibility s eligible ineligible btz last todo
    = Ok jobs.
Proof.
  induction todo as [|p todo IH]; intros Hq.
  - exists []. reflexivity.
  - destruct IH as [rest Hrest].
    { intros p' Hp'. apply Hq. right. exact Hp'. }
    cbn [pascode_jobs]. destruct (pascode_map s !! p) as [info|] eqn:Hinfo; [|eauto].
    rewrite roster_job_facts.match_rows. destruct (bool_decide _); [eauto|].
    destruct (Hq p) as [qv Hqv]; [left|eauto|].
    rewrite Hqv, Hrest. cbn [bind]. eauto.
Qed.

Lemma pascode_jobs_raise (eligible ineligible btz : list (list string))
    (last : option string) (todo : list string) (p : string) (ex : exn) :
  p ∈ todo -> is_Some (pascode_map s !! p) ->
  has_rows eligible ineligible btz p ->
  get_promotion_eligibility (length (rows_of 7 p eligible)) (cycle s) = Raise ex ->
  exists ex',
    pascode_jobs get_promotion_eligibility s eligible ineligible btz last todo
    = Raise ex'.
Proof.
  intros Hin [info Hinfo] Hrows Hq.
  induction todo as [|p' todo IH]; [apply elem_of_nil in Hin; contradiction|].
  cbn [pascode_jobs]. apply elem_of_cons in Hin as [<- | Hin].
  - rewrite Hinfo, roster_job_facts.match_rows.
    rewrite bool_decide_eq_false_2.
    + rewrite Hq. cbn [bind]. exists ex. reflexivity.
    + unfold has_rows in Hrows. tauto.
  - destruct (IH Hin) as [ex' Hex'].
    destruct (pascode_map s !! p') as [info'|]; [|exists ex'; exact Hex'].
    rewrite roster_job_facts.match_rows.
    destruct (bool_decide _); [exists ex'; exact Hex'|].
    destruct (get_promotion_eligibility (length (rows_of 7 p' eligible)) (cycle s))
      as [qv|e]; cbn [bind].
    + rewrite Hex'. cbn [bind]. exists ex'. reflexivity.
    + exists e. reflexivity.
Qed.

(** C10. The unit codes collected from the eligible, ineligible and
    below-the-zone rows are sorted into strictly ascending lexicographic
    order before the loop, and a unit code without an entry in
    [pascode_map] is passed over and the loop goes on. When
    [get_promotion_eligibility] returns for the mapped units,
    [generate_pascode_pdf] is called once for each mapped unit code, in
    ascending order, and the files handed to the merge are
    [temp_<pascode>.pdf] for the units whose document was built, in that
    order: all the mapped units when every document is built, and [None]
    only when none is. [get_promotion_eligibility] raising for a mapped
    unit aborts the run. *)
Theorem generate_roster_pdf_ascending :
  exists ineligible : list (list string),
    ineligible_rows s = Ok ineligible
    /\ let unique_pascodes :=
         sorted_pascodes (eligible_rows s) ineligible (btz_rows s) in
       let mapped :=
         filter (fun p => is_Some (pascode_map s !! p)) unique_pascodes in
       let quota p :=
         get_promotion_eligibility (length (rows_of 7 p (eligible_rows s)))
           (cycle s) in
       let loop :=
         pascode_loop get_promotion_eligibility doc_build s (eligible_rows s)
           ineligible (btz_rows s) (last unique_pascodes) in
       StronglySorted (strict String.le) unique_pascodes
       /\ (forall p : string,
             p ∈ unique_pascodes
             <-> (exists row, row ∈ eligible_rows s /\ row !! 7 = Some p)
                 \/ (exists row, row ∈ ineligible /\ row !! 2 = Some p)
                 \/ (exists row, row ∈ btz_rows s /\ row !! 7 = Some p))
       /\ (forall (p : string) (todo : list string) (acc : emitted),
             pascode_map s !! p = None -> loop (p :: todo) acc = loop todo acc)
       /\ ((exists p ex, p ∈ mapped /\ quota p = Raise ex) ->
           generate_roster_pdf get_promotion_eligibility doc_build s = None)
       /\ ((forall p, p ∈ mapped -> exists qv, quota p = Ok qv) ->
           exists jobs : list pascode_job,
             Forall2 (fun p j =>
                        exists info qv,
                          pascode_map s !! p = Some info
                          /\ quota p = Ok qv
                          /\ j = job_of s (eligible_rows s) ineligible
                                   (btz_rows s) (last unique_pascodes) p info qv)
               mapped jobs
             /\ generate_roster_pdf get_promotion_eligibility doc_build s
                = match filter (fun j => doc_build j = true) jobs with
                  | [] => None
                  | built =>
                    Some {| temp_pdfs :=
                              (fun j => temp_name (job_pascode j)) <$> built;
                            rendered := mapped |}
                  end
             /\ (mapped <> [] -> Forall (fun j => doc_build j = true) jobs ->
                 generate_roster_pdf get_promotion_eligibility doc_build s
                 = Some {| temp_pdfs := temp_name <$> mapped;
                           rendered := mapped |})).
Proof.
  destruct (roster_pdf_facts.ineligible_rows_ok s) as [ineligible Hinel].
  exists ineligible. split; [exact Hinel|]. cbv zeta.
  set (ps := sorted_pascodes (eligible_rows s) ineligible (btz_rows s)).
  assert (Hfilter :
    filter (fun p => is_Some (pascode_map s !! p)
                     /\ has_rows (eligible_rows s) ineligible (btz_rows s) p) ps
    = filter (fun p => is_Some (pascode_map s !! p)) ps).
  { apply roster_pdf_facts.filter_ext_elem. intros p Hp. split; [tauto|].
    intros Hm. split; [exact Hm|].
    apply roster_pdf_facts.sorted_pascodes_has_rows, Hp. }
  assert (Hsession :
    session_jobs get_promotion_eligibility s
    = pascode_jobs get_promotion_eligibility s (eligible_rows s) ineligible
        (btz_rows s) (last ps) ps).
  { unfold session_jobs. rewrite Hinel. reflexivity. }
  split; [apply roster_pdf_facts.sorted_pascodes_ascending|].
  split; [intros p; apply roster_pdf_facts.sorted_pascodes_elem|].
  split; [intros p todo acc; apply roster_pdf_facts.loop_skip_unmapped|].
  split.
  - intros (p & ex & Hp & Hq). apply list_elem_of_filter in Hp as [Hm Hp].
    destruct (pascode_jobs_raise (eligible_rows s) ineligible (btz_rows s)
                (last ps) ps p ex Hp Hm
                (roster_pdf_facts.sorted_pascodes_has_rows _ _ _ _ Hp) Hq)
      as [ex' Hex'].
    rewrite roster_job_facts.generate_via_jobs, Hsession, Hex'. reflexivity.
  - intros Hq.
    destruct (pascode_jobs_ok (eligible_rows s) ineligible (btz_rows s)
                (last ps) ps) as [jobs Hjobs].
    { intros p Hp Hm. apply Hq. apply list_elem_of_filter. auto. }
    exists jobs.
    pose proof (roster_job_facts.jobs_spec _ _ _ _ _ _ _ _ Hjobs) as Hspec.
    rewrite Hfilter in Hspec.
    assert (Hcodes : job_pascode <$> jobs
                     = filter (fun p => is_Some (pascode_map s !! p)) ps).
    { clear -Hspec. induction Hspec as [|p j l js (info & qv & _ & _ & ->) _ IH];
        [reflexivity|]. cbn [fmap list_fmap]. f_equal. exact IH. }
    assert (Hnames : forall l : list pascode_job,
              Forall (fun j => j ∈ jobs) l ->
              output_filename <$> l = (fun j => temp_name (job_pascode j)) <$> l).
    { intros l Hl. apply Forall_fmap_ext_1. eapply Forall_impl; [exact Hl|].
      intros j Hj. apply list_elem_of_lookup in Hj as [i Hi].
      destruct (Forall2_lookup_r _ _ _ _ _ Hspec Hi)
        as (p & _ & info & qv & _ & _ & ->). reflexivity. }
    assert (Hgen :
      generate_roster_pdf get_promotion_eligibility doc_build s
      = match filter (fun j => doc_build j = true) jobs with
        | [] => None
        | built =>
          Some {| temp_pdfs := (fun j => temp_name (job_pascode j)) <$> built;
                  rendered := filter (fun p => is_Some (pascode_map s !! p)) ps |}
        end).
    { rewrite roster_job_facts.generate_via_jobs, Hsession, Hjobs.
      rewrite roster_job_facts.omap_build, Hcodes.
      rewrite Hnames
        by (apply Forall_forall; intros j Hj;
            apply list_elem_of_filter in Hj as [_ Hj]; exact Hj).
      destruct (filter _ jobs); reflexivity. }
    split; [exact Hspec|]. split; [exact Hgen|].
    intros Hne Hall. rewrite Hgen.
    assert (Hall' : filter (fun j => doc_build j = true) jobs = jobs).
    { clear -Hall. induction Hall as [|j js Hj _ IH]; [reflexivity|].
      rewrite filter_cons_True by exact Hj. f_equal. exact IH. }
    rewrite Hall'. rewrite <- Hcodes in *.
    destruct jobs as [|j js]; [exfalso; apply Hne; reflexivity|].
    rewrite <- list_fmap_compose. reflexivity.
Qed.

End order.

End roster_order_facts.

(** ** The column order of the rows handed to report rendering *)

Module report_order_facts.
Import initial_mel_generator roster_jobs roster_document pandas report_sample.
Local Open Scope nat_scope.

Lemma frame_rows_sublist (df : DataFrame) :
  (if empty df then [] else values_tolist df) `sublist_of` values df.
Proof.
  destruct (empty df); [apply sublist_nil_l|reflexivity].
Qed.

Lemma available_all (s : session) :
  Forall (fun c => c ∈ columns (ineligible_df s)) ineligible_columns ->
  List.filter (fun col => bool_decide (col ∈ columns (ineligible_df s)))
    ineligible_columns
  = ineligible_columns.
Proof.
  intros Hall. induction Hall as [|c cs Hc _ IH]; [reflexivity|].
  cbn [List.filter]. rewrite bool_decide_eq_true_2 by exact Hc.
  f_equal. exact IH.
Qed.

(** A row of a selection is the selection of a row. *)
Lemma getitem_row (df out : DataFrame) (cols : list string) (r : list string) :
  well_formed df -> getitem df cols = Ok out -> r ∈ values out ->
  exists row,
    row ∈ values df
    /\ length r = length cols
    /\ forall (k : nat) (c : string),
         cols !! k = Some c ->
         exists j v, position c (columns df) = Some j
                     /\ row !! j = Some v /\ r !! k = Some v.
Proof.
  intros Hwf Hout Hr.
  destruct (column_facts.getitem_spec _ _ _ Hwf Hout) as (Hc & Hwf' & Hlen & Hcells).
  apply list_elem_of_lookup in Hr as [i Hi].
  assert (Hlt : i < length (values df)).
  { rewrite <- Hlen. eapply lookup_lt_Some, Hi. }
  apply lookup_lt_is_Some in Hlt as [row Hrow].
  destruct (Hcells i row Hrow) as (orow & Horow & Hk).
  rewrite Hi in Horow. injection Horow as <-.
  exists row. split; [eapply list_elem_of_lookup_2, Hrow|]. split; [|exact Hk].
  unfold well_formed in Hwf'. rewrite Forall_forall in Hwf'.
  rewrite (Hwf' r) by (eapply list_elem_of_lookup_2, Hi). rewrite Hc. reflexivity.
Qed.




End report_order_facts.

Example ord_roundtrip_2024 :
  pydatetime._ord2ymd (pydatetime._ymd2ord 2024 2 29) = (2024, 2, 29)
  /\ pydatetime._ymd2ord 2024 3 31 = 738976
  /\ pydatetime._ord2ymd 1 = (1, 1, 1)
  /\ pydatetime._ord2ymd 3652059 = (9999, 12, 31)
  /\ pydatetime.sub_relativedelta_days (pydatetime.mk_datetime 2024 3 31 0 0 0 0) 119
     = Ok (pydatetime.mk_datetime 2023 12 3 0 0 0 0)
  /\ pydatetime.strftime constants.DATE_FORMAT_DISPLAY (pydatetime.mk_datetime 2023 12 3 0 0 0 0) = "03 December 2023"
  /\ str_int 0 = "0" /\ str_int (-5) = "-5" /\ slice_last 4 "FF1Z0ABC" = "0ABC" /\ slice_first 2 "FF1Z0ABC" = "FF"
  /\ slice_first 2 (String "195"%char (String "169"%char "1Z"))
     = String "195"%char (String "169"%char "1")
  /\ slice_last 2 (String "090"%char (String "195"%char (String "169"%char "1")))
     = String "195"%char (String "169"%char "1").
Proof. repeat split; vm_compute; reflexivity. Qed.

Example strptime_samples :
  _strptime.strptime_d_b_Y "31-MAR-2024" = Ok (pydatetime.mk_datetime 2024 3 31 0 0 0 0)
  /\ _strptime.strptime_d_b_Y "31-MAR-999" = Raise ValueError
  /\ _strptime.strptime_d_b_Y "31-MAR-10000" = Raise ValueError
  /\ _strptime.strptime_d_b_Y "None-2024" = Raise ValueError
  /\ _strptime.strptime_d_b_Y "5-jan-2024" = Ok (pydatetime.mk_datetime 2024 1 5 0 0 0 0)
  /\ _strptime.strptime_d_b_Y "30-Feb-2024" = Raise ValueError
  /\ (m <-! hyt_test_exemption.test_member_1 ;; Ok (hyt_test_exemption.main_hyt_in_exemption m, hyt_test_exemption.tafmsd m)) = Ok (false, "15-Jan-2003")
  /\ (m <-! hyt_test_exemption.test_member_2 ;; Ok (hyt_test_exemption.main_hyt_in_exemption m, hyt_test_exemption.expected_hyt_date m)) = Ok (true, pydatetime.mk_datetime 2024 6 15 0 0 0 0)
  /\ board_filter.effective_hyt_date "SSG" (pydatetime.mk_datetime 2004 6 15 0 0 0 0) = Ok (pydatetime.mk_datetime 2026 6 15 0 0 0 0).
Proof. repeat split; vm_compute; reflexivity. Qed.
